(** * Prover task engine and layer-2 settlement relayer

    A shallow embedding of [prover/prover.go] (package [prover]) and of the
    layer-2 relayer (package [relayer]) that shares its source file, with
    the properties their specification states about them.

    Go code is embedded in a state monad with a panic outcome.  Go's
    [error] values are ordinary data: a function returning [(T, error)]
    is embedded as one returning [error + T], a function returning only
    [error] as one returning [option error].  Every call that leaves the
    package (the durable task store, the coordinator, the chain endpoint,
    the proof engine, the transaction sender, the database) is appended to
    a call log, and its answer is taken from an environment record as a
    function of the calls made so far, so a theorem quantified over the
    environment covers every behaviour of the collaborators.  Logging has
    no effect on control flow and is not embedded. *)

From stdpp Require Import gmap strings list fin_maps sorting pretty.
From Stdlib Require Import ZArith Lia.

Local Open Scope Z_scope.

(** ** The monad *)

Inductive outcome (A : Type) : Type :=
  | Done (a : A)
  | Panicked (msg : string).
Arguments Done {A} a.
Arguments Panicked {A} msg.

Definition M (S A : Type) : Type := S → outcome A * S.

#[global] Instance M_ret {S : Type} : MRet (M S) :=
  λ A a s, (Done a, s).

#[global] Instance M_bind {S : Type} : MBind (M S) :=
  λ A B f m s,
    match m s with
    | (Done a, s') => f a s'
    | (Panicked msg, s') => (Panicked msg, s')
    end.

Definition panic {S A : Type} (msg : string) : M S A :=
  λ s, (Panicked msg, s).

(** [defer_ body deferred]: Go's [defer], registered in front of [body].
    The deferred call runs when [body] is left, by return or by panic, and
    the outcome of [body] is what the caller sees.  The deferred closure
    reads the local variables of the function as [body] left them; they
    reach it through the outcome of [body]. *)
Definition defer_ {S A : Type} (body : M S A) (deferred : outcome A → M S unit)
  : M S A :=
  λ s,
    let (o, s1) := body s in
    let (_, s2) := deferred o s1 in
    (o, s2).

(** Two's complement views of an integer, as Go's conversions between
    [big.Int], [int64] and [uint64] compute them. *)
Definition to_uint64 (x : Z) : Z := x mod 2 ^ 64.

Definition to_int64 (x : Z) : Z := (x + 2 ^ 63) mod 2 ^ 64 - 2 ^ 63.

(** [big.Int.Int64]: the low 64 bits of the magnitude, negated for a
    negative number, as a signed 64-bit integer. *)
Definition BigInt_Int64 (x : Z) : Z :=
  to_int64 (Z.sgn x * (Z.abs x mod 2 ^ 64)).

(** ** Package [prover] *)

Module Prover.

(** Go's [error] values of this package: [store.ErrEmpty] is compared by
    identity, every other error is known by its message.  The message of
    [store.ErrEmpty] is declared outside this file and never inspected. *)
Inductive error : Type :=
  | ErrEmpty
  | ErrOther (msg : string).

#[global] Instance error_eq_dec : EqDecision error.
Proof. solve_decision. Defined.

Definition Error (e : error) : string :=
  match e with
  | ErrEmpty => "empty"
  | ErrOther msg => msg
  end.

(** [message.ProofType].  The declaration is outside this file; the
    named constants are the ones the code switches on, and
    [ProofTypeOther] stands for every other value of the integer type. *)
Inductive ProofType : Type :=
  | ProofTypeUndefined
  | ProofTypeChunk
  | ProofTypeBatch
  | ProofTypeOther (code : Z).

#[global] Instance ProofType_eq_dec : EqDecision ProofType.
Proof. solve_decision. Defined.

Definition ProofType_code (t : ProofType) : Z :=
  match t with
  | ProofTypeUndefined => 0
  | ProofTypeChunk => 1
  | ProofTypeBatch => 2
  | ProofTypeOther code => code
  end.

(** [message.RespStatus]. *)
Inductive RespStatus : Type :=
  | StatusOk
  | StatusProofError.

#[global] Instance RespStatus_eq_dec : EqDecision RespStatus.
Proof. solve_decision. Defined.

(** Proof artifacts and chunk metadata are opaque to this package. *)
Inductive ChunkProof : Type := mkChunkProof (raw : string).
Inductive BatchProof : Type := mkBatchProof (raw : string).
Inductive ChunkInfo : Type := mkChunkInfo (raw : string).

#[global] Instance ChunkProof_eq_dec : EqDecision ChunkProof.
Proof. solve_decision. Defined.
#[global] Instance BatchProof_eq_dec : EqDecision BatchProof.
Proof. solve_decision. Defined.
#[global] Instance ChunkInfo_eq_dec : EqDecision ChunkInfo.
Proof. solve_decision. Defined.

(** [common.Hash]. *)
Definition Hash : Type := string.

(** [types.BlockTrace]: the header number is a [big.Int]; the rest of
    the trace is never inspected here. *)
Record BlockHeader : Type := mkBlockHeader { Number : Z }.
Record BlockTrace : Type := mkBlockTrace { Header : BlockHeader; body : string }.

#[global] Instance BlockHeader_eq_dec : EqDecision BlockHeader.
Proof. solve_decision. Defined.
#[global] Instance BlockTrace_eq_dec : EqDecision BlockTrace.
Proof. solve_decision. Defined.

Record ChunkTaskDetail : Type := mkChunkTaskDetail { BlockHashes : list Hash }.
Record BatchTaskDetail : Type := mkBatchTaskDetail {
  ChunkInfos : list ChunkInfo;
  ChunkProofs : list ChunkProof
}.

#[global] Instance ChunkTaskDetail_eq_dec : EqDecision ChunkTaskDetail.
Proof. solve_decision. Defined.
#[global] Instance BatchTaskDetail_eq_dec : EqDecision BatchTaskDetail.
Proof. solve_decision. Defined.

(** [message.TaskMsg]: the two detail fields are pointers, [None] is
    [nil]. *)
Record TaskMsg : Type := mkTaskMsg {
  ID : string;
  Type_ : ProofType;
  TaskMsg_ChunkTaskDetail : option ChunkTaskDetail;
  TaskMsg_BatchTaskDetail : option BatchTaskDetail
}.

#[global] Instance TaskMsg_eq_dec : EqDecision TaskMsg.
Proof. solve_decision. Defined.

(** [store.ProvingTask]. *)
Record ProvingTask : Type := mkProvingTask { Task : TaskMsg; Times : Z }.

#[global] Instance ProvingTask_eq_dec : EqDecision ProvingTask.
Proof. solve_decision. Defined.

(** [message.ProofDetail]: the two proof fields are pointers. *)
Record ProofDetail : Type := mkProofDetail {
  ProofDetail_ID : string;
  ProofDetail_Type : ProofType;
  ProofDetail_Status : RespStatus;
  ProofDetail_ChunkProof : option ChunkProof;
  ProofDetail_BatchProof : option BatchProof;
  ProofDetail_Error : string
}.

#[global] Instance ProofDetail_eq_dec : EqDecision ProofDetail.
Proof. solve_decision. Defined.

(** [client.ProverTasksRequest], the response data of
    [ProverTasks], [client.SubmitProofRequest] and its response. *)
Record ProverTasksRequest : Type := mkProverTasksRequest {
  ProverVersion : string;
  ProverHeight : Z;
  ProverTasksRequest_ProofType : Z
}.

Record ProverTasksData : Type := mkProverTasksData {
  TaskID : string;
  ProverTasksData_ProofType : ProofType;
  ProofData : string
}.

Record SubmitProofRequest : Type := mkSubmitProofRequest {
  SubmitProofRequest_TaskID : string;
  SubmitProofRequest_Status : RespStatus;
  SubmitProofRequest_Error : string;
  SubmitProofRequest_ProofType : Z;
  Signature : string;
  Proof_ : string
}.

Record SubmitProofResponse : Type := mkSubmitProofResponse {
  ErrCode : Z;
  ErrMsg : string
}.

(** The calls that leave the package, in the order they are made. *)
Inductive Call : Type :=
  | CallPeek
  | CallUpdateTimes (id : string) (times : Z)
  | CallDelete (id : string)
  | CallSleep (seconds : Z)
  | CallGetLatestConfirmedBlockNumber
  | CallProverTasks (req : ProverTasksRequest)
  | CallGetBlockTraceByHash (h : Hash)
  | CallProveChunk (id : string) (traces : list BlockTrace)
  | CallProveBatch (id : string) (infos : list ChunkInfo) (proofs : list ChunkProof)
  | CallSign (detail : ProofDetail)
  | CallSubmitProof (req : SubmitProofRequest).

#[global] Instance ProverTasksRequest_eq_dec : EqDecision ProverTasksRequest.
Proof. solve_decision. Defined.
#[global] Instance SubmitProofRequest_eq_dec : EqDecision SubmitProofRequest.
Proof. solve_decision. Defined.
#[global] Instance Call_eq_dec : EqDecision Call.
Proof. solve_decision. Defined.

(** The configuration and the collaborators of one [Prover].  A fault
    field answers [Some err] when the call fails. *)
Record Env : Type := mkEnv {
  (** [cfg.Core.ProofType] *)
  cfg_ProofType : ProofType;
  (** [version.Version] *)
  Version : string;
  (** faults of the durable task store *)
  PeekFault : list Call → option error;
  UpdateTimesFault : list Call → option error;
  DeleteFault : list Call → option error;
  (** [putils.GetLatestConfirmedBlockNumber], a [uint64] *)
  GetLatestConfirmedBlockNumber : list Call → error + Z;
  (** [coordinatorClient.ProverTasks]; [None] is a response without data *)
  ProverTasks : list Call → ProverTasksRequest → error + option ProverTasksData;
  (** [json.Unmarshal] at the two payload types *)
  UnmarshalBlockHashes : string → error + list Hash;
  UnmarshalChunkProofs : string → error + list ChunkProof;
  (** [traceClient.GetBlockTraceByHash] *)
  GetBlockTraceByHash : list Call → Hash → error + BlockTrace;
  (** [sort.Slice] at the slice type of the traces *)
  sortSlice : (BlockTrace → BlockTrace → bool) → list BlockTrace → list BlockTrace;
  (** the proof engine *)
  ProveChunk : list Call → string → list BlockTrace → error + ChunkProof;
  ProveBatch : list Call → string → list ChunkInfo → list ChunkProof → error + BatchProof;
  (** [ProofMsg.Sign], [json.Marshal] of the two proofs and
      [coordinatorClient.SubmitProof] *)
  Sign : list Call → ProofDetail → error + string;
  MarshalProofs : option ChunkProof → option BatchProof → error + string;
  SubmitProof : list Call → SubmitProofRequest → error + SubmitProofResponse
}.

(** Modelled from the spec: the durable task queue ([store.Stack], whose
    code is outside this file) is "a crash-safe, single-writer persistent
    store holding at most the task currently being worked, with a retry
    counter".  [stack] is that single slot; [calls] is the call log. *)
Record State : Type := mkState {
  stack : option ProvingTask;
  calls : list Call
}.

Definition log (c : Call) : M State unit :=
  λ s, (Done (), {| stack := stack s; calls := calls s ++ [c] |}).

Definition history : M State (list Call) :=
  λ s, (Done (calls s), s).

Definition get_stack : M State (option ProvingTask) :=
  λ s, (Done (stack s), s).

Definition set_stack (q : option ProvingTask) : M State unit :=
  λ s, (Done (), {| stack := q; calls := calls s |}).

(** [retryWait = time.Second * 10] *)
Definition retryWait : Z := 10.

Definition Sleep (seconds : Z) : M State unit := log (CallSleep seconds).

Section WithEnv.

Variable env : Env.

(** Modelled from the spec: [Peek() → (task, ErrEmpty|err)]; the queue
    "signals empty distinctly from other failures". *)
Definition Peek : M State (error + ProvingTask) :=
  h ← history;
  log CallPeek;;
  match PeekFault env h with
  | Some err => mret (inl err)
  | None =>
      q ← get_stack;
      match q with
      | None => mret (inl ErrEmpty)
      | Some task => mret (inr task)
      end
  end.

(** Modelled from the spec: [UpdateRetryCount(taskID, n) → err]
    persists the counter of the task; the record's counter is
    "incremented in place".  The updated record is returned in place
    of the mutated pointer. *)
Definition UpdateTimes (task : ProvingTask) (updateTimes : Z)
  : M State (option error * ProvingTask) :=
  h ← history;
  log (CallUpdateTimes (ID (Task task)) updateTimes);;
  let task' := {| Task := Task task; Times := updateTimes |} in
  match UpdateTimesFault env h with
  | Some err => mret (Some err, task')
  | None => set_stack (Some task');; mret (None, task')
  end.

(** Modelled from the spec: [Delete(taskID) → err] removes the task
    with that identifier from the queue. *)
Definition Delete (id : string) : M State (option error) :=
  h ← history;
  log (CallDelete id);;
  match DeleteFault env h with
  | Some err => mret (Some err)
  | None =>
      q ← get_stack;
      match q with
      | Some task =>
          if decide (ID (Task task) = id)
          then set_stack None;; mret None
          else mret None
      | None => mret None
      end
  end.

(** [Prover.Type], the configured proof type. *)
Definition Prover_Type : ProofType := cfg_ProofType env.

(** The assignment [provingTask.Task.ChunkTaskDetail.BlockHashes =
    blockHashes] writes through the pointer [ChunkTaskDetail]. *)
Definition set_BlockHashes (task : ProvingTask) (blockHashes : list Hash)
  : M State ProvingTask :=
  match TaskMsg_ChunkTaskDetail (Task task) with
  | None => panic "invalid memory address or nil pointer dereference"
  | Some _ =>
      mret {| Task := {| ID := ID (Task task);
                         Type_ := Type_ (Task task);
                         TaskMsg_ChunkTaskDetail :=
                           Some {| BlockHashes := blockHashes |};
                         TaskMsg_BatchTaskDetail :=
                           TaskMsg_BatchTaskDetail (Task task) |};
              Times := Times task |}
  end.

(** [provingTask.Task.BatchTaskDetail.ChunkProofs = subProofs] *)
Definition set_ChunkProofs (task : ProvingTask) (subProofs : list ChunkProof)
  : M State ProvingTask :=
  match TaskMsg_BatchTaskDetail (Task task) with
  | None => panic "invalid memory address or nil pointer dereference"
  | Some d =>
      mret {| Task := {| ID := ID (Task task);
                         Type_ := Type_ (Task task);
                         TaskMsg_ChunkTaskDetail :=
                           TaskMsg_ChunkTaskDetail (Task task);
                         TaskMsg_BatchTaskDetail :=
                           Some {| ChunkInfos := ChunkInfos d;
                                   ChunkProofs := subProofs |} |};
              Times := Times task |}
  end.

Definition fetchTaskFromServer : M State (error + ProvingTask) :=
  h ← history;
  log CallGetLatestConfirmedBlockNumber;;
  match GetLatestConfirmedBlockNumber env h with
  | inl err =>
      mret (inl (ErrOther
        ("failed to fetch latest confirmed block number: " +:+ Error err)))
  | inr latestBlockNumber =>
      let req := {| ProverVersion := Version env;
                    ProverHeight := to_int64 latestBlockNumber;
                    ProverTasksRequest_ProofType := ProofType_code Prover_Type |} in
      h ← history;
      log (CallProverTasks req);;
      match ProverTasks env h req with
      | inl err => mret (inl err)
      | inr None => mret (inl (ErrOther "no tasks available"))
      | inr (Some data) =>
          let provingTask :=
            {| Task := {| ID := TaskID data;
                          Type_ := ProverTasksData_ProofType data;
                          TaskMsg_ChunkTaskDetail := None;
                          TaskMsg_BatchTaskDetail := None |};
               Times := 0 |} in
          match ProverTasksData_ProofType data with
          | ProofTypeChunk =>
              match UnmarshalBlockHashes env (ProofData data) with
              | inl err => mret (inl err)
              | inr blockHashes =>
                  provingTask ← set_BlockHashes provingTask blockHashes;
                  mret (inr provingTask)
              end
          | ProofTypeBatch =>
              match UnmarshalChunkProofs env (ProofData data) with
              | inl err => mret (inl err)
              | inr subProofs =>
                  provingTask ← set_ChunkProofs provingTask subProofs;
                  mret (inr provingTask)
              end
          | other =>
              mret (inl (ErrOther
                ("unknown proof type: " +:+ pretty (ProofType_code other))))
          end
      end
  end.

(** The loop of [getSortedTracesByHashes] that fetches one trace per
    block hash and appends it to [traces]. *)
Fixpoint fetchTraces (blockHashes : list Hash) (traces : list BlockTrace)
  : M State (error + list BlockTrace) :=
  match blockHashes with
  | [] => mret (inr traces)
  | blockHash :: rest =>
      h ← history;
      log (CallGetBlockTraceByHash blockHash);;
      match GetBlockTraceByHash env h blockHash with
      | inl err => mret (inl err)
      | inr trace => fetchTraces rest (traces ++ [trace])
      end
  end.

(** The comparison handed to [sort.Slice]. *)
Definition lessByNumber (a b : BlockTrace) : bool :=
  bool_decide (BigInt_Int64 (Number (Header a)) < BigInt_Int64 (Number (Header b))).

Definition getSortedTracesByHashes (blockHashes : list Hash)
  : M State (error + list BlockTrace) :=
  r ← fetchTraces blockHashes [];
  match r with
  | inl err => mret (inl err)
  | inr traces => mret (inr (sortSlice env lessByNumber traces))
  end.

Definition proveChunk (task : ProvingTask) : M State (error + ChunkProof) :=
  match TaskMsg_ChunkTaskDetail (Task task) with
  | None => mret (inl (ErrOther "ChunkTaskDetail is empty"))
  | Some detail =>
      r ← getSortedTracesByHashes (BlockHashes detail);
      match r with
      | inl _ => mret (inl (ErrOther "get traces from eth node failed"))
      | inr traces =>
          h ← history;
          log (CallProveChunk (ID (Task task)) traces);;
          mret (ProveChunk env h (ID (Task task)) traces)
      end
  end.

Definition proveBatch (task : ProvingTask) : M State (error + BatchProof) :=
  match TaskMsg_BatchTaskDetail (Task task) with
  | None => mret (inl (ErrOther "BatchTaskDetail is empty"))
  | Some detail =>
      h ← history;
      log (CallProveBatch (ID (Task task)) (ChunkInfos detail) (ChunkProofs detail));;
      mret (ProveBatch env h (ID (Task task)) (ChunkInfos detail) (ChunkProofs detail))
  end.

Definition prove (task : ProvingTask) : M State ProofDetail :=
  let detail := {| ProofDetail_ID := ID (Task task);
                   ProofDetail_Type := Type_ (Task task);
                   ProofDetail_Status := StatusOk;
                   ProofDetail_ChunkProof := None;
                   ProofDetail_BatchProof := None;
                   ProofDetail_Error := "" |} in
  match Prover_Type with
  | ProofTypeChunk =>
      r ← proveChunk task;
      match r with
      | inl err =>
          mret {| ProofDetail_ID := ProofDetail_ID detail;
                  ProofDetail_Type := ProofDetail_Type detail;
                  ProofDetail_Status := StatusProofError;
                  ProofDetail_ChunkProof := ProofDetail_ChunkProof detail;
                  ProofDetail_BatchProof := ProofDetail_BatchProof detail;
                  ProofDetail_Error := Error err |}
      | inr proof =>
          mret {| ProofDetail_ID := ProofDetail_ID detail;
                  ProofDetail_Type := ProofDetail_Type detail;
                  ProofDetail_Status := ProofDetail_Status detail;
                  ProofDetail_ChunkProof := Some proof;
                  ProofDetail_BatchProof := ProofDetail_BatchProof detail;
                  ProofDetail_Error := ProofDetail_Error detail |}
      end
  | ProofTypeBatch =>
      r ← proveBatch task;
      match r with
      | inl err =>
          mret {| ProofDetail_ID := ProofDetail_ID detail;
                  ProofDetail_Type := ProofDetail_Type detail;
                  ProofDetail_Status := StatusProofError;
                  ProofDetail_ChunkProof := ProofDetail_ChunkProof detail;
                  ProofDetail_BatchProof := ProofDetail_BatchProof detail;
                  ProofDetail_Error := Error err |}
      | inr proof =>
          mret {| ProofDetail_ID := ProofDetail_ID detail;
                  ProofDetail_Type := ProofDetail_Type detail;
                  ProofDetail_Status := ProofDetail_Status detail;
                  ProofDetail_ChunkProof := ProofDetail_ChunkProof detail;
                  ProofDetail_BatchProof := Some proof;
                  ProofDetail_Error := ProofDetail_Error detail |}
      end
  | _ => mret detail
  end.

Definition signAndSubmitProof (msg : ProofDetail) : M State (option error) :=
  h ← history;
  log (CallSign msg);;
  match Sign env h msg with
  | inl err => mret (Some (ErrOther ("error signing proof: " +:+ Error err)))
  | inr signature =>
      match MarshalProofs env (ProofDetail_ChunkProof msg) (ProofDetail_BatchProof msg) with
      | inl err =>
          mret (Some (ErrOther ("error marshaling proofs into JSON: " +:+ Error err)))
      | inr proofJSON =>
          let req := {| SubmitProofRequest_TaskID := ProofDetail_ID msg;
                        SubmitProofRequest_Status := ProofDetail_Status msg;
                        SubmitProofRequest_Error := ProofDetail_Error msg;
                        SubmitProofRequest_ProofType :=
                          ProofType_code (ProofDetail_Type msg);
                        Signature := signature;
                        Proof_ := proofJSON |} in
          h ← history;
          log (CallSubmitProof req);;
          match SubmitProof env h req with
          | inl err => mret (Some (ErrOther ("error submitting proof: " +:+ Error err)))
          | inr resp =>
              if decide (ErrCode resp ≠ 200)
              then mret (Some (ErrOther
                     ("submit proof error, error code: " +:+ pretty (ErrCode resp)
                      +:+ ", error message: " +:+ ErrMsg resp)))
              else mret None
          end
      end
  end.

(** The deferred closure of [proveAndSubmit]; its error is only logged. *)
Definition deleteTask (id : string) : M State unit :=
  _ ← Delete id; mret ().

Definition proveAndSubmit : M State (option error) :=
  r ← Peek;
  acquired ←
    match r with
    | inr task => mret (inr task)
    | inl err =>
        if decide (err ≠ ErrEmpty) then mret (inl err)
        else
          r' ← fetchTaskFromServer;
          match r' with
          | inl err' => Sleep retryWait;; mret (inl err')
          | inr task => mret (inr task)
          end
    end;
  match acquired with
  | inl err => mret (Some err)
  | inr task =>
      attempt ←
        (if decide (Times task ≤ 2) then
           '(err, task) ← UpdateTimes task (Times task + 1);
           match err with
           | Some e => mret (inl e)
           | None => proofMsg ← prove task; mret (inr (task, proofMsg))
           end
         else
           mret (inr (task,
                      {| ProofDetail_ID := ID (Task task);
                         ProofDetail_Type := Type_ (Task task);
                         ProofDetail_Status := StatusProofError;
                         ProofDetail_ChunkProof := None;
                         ProofDetail_BatchProof := None;
                         ProofDetail_Error := "zk proving panic" |})));
      match attempt with
      | inl e => mret (Some e)
      | inr (task, proofMsg) =>
          defer_ (signAndSubmitProof proofMsg) (λ _, deleteTask (ID (Task task)))
      end
  end.

End WithEnv.

End Prover.

(** ** Package [relayer] *)

Module Relayer.

(** Go's [error] values of this package: the two back-pressure errors
    of the transaction sender, and every other error by its message.  The
    messages of the two sender errors are declared outside this file; the
    only message the code inspects is that of a database error. *)
Inductive error : Type :=
  | ErrNoAvailableAccount
  | ErrFullPending
  | ErrOther (msg : string).

#[global] Instance error_eq_dec : EqDecision error.
Proof. solve_decision. Defined.

Definition Error (e : error) : string :=
  match e with
  | ErrNoAvailableAccount => "sender has no available account to send transaction"
  | ErrFullPending => "sender's pending pool is full"
  | ErrOther msg => msg
  end.

(** [types.ProvingStatus], [types.RollupStatus] and
    [types.GasOracleStatus].  The declarations are outside this file;
    [ProvingStatusOther] stands for every value of the integer type that
    is none of the named constants. *)
Inductive ProvingStatus : Type :=
  | ProvingStatusUndefined
  | ProvingTaskUnassigned
  | ProvingTaskSkipped
  | ProvingTaskAssigned
  | ProvingTaskProved
  | ProvingTaskVerified
  | ProvingTaskFailed
  | ProvingStatusOther (code : Z).

Inductive RollupStatus : Type :=
  | RollupUndefined
  | RollupPending
  | RollupCommitting
  | RollupCommitted
  | RollupFinalizing
  | RollupFinalized
  | RollupFinalizationSkipped
  | RollupCommitFailed
  | RollupFinalizeFailed.

Inductive GasOracleStatus : Type :=
  | GasOracleUndefined
  | GasOraclePending
  | GasOracleImporting
  | GasOracleImported
  | GasOracleFailed.

#[global] Instance ProvingStatus_eq_dec : EqDecision ProvingStatus.
Proof. solve_decision. Defined.
#[global] Instance RollupStatus_eq_dec : EqDecision RollupStatus.
Proof. solve_decision. Defined.
#[global] Instance GasOracleStatus_eq_dec : EqDecision GasOracleStatus.
Proof. solve_decision. Defined.

(** Byte slices; [common.Hash] and [common.Address]. *)
Definition bytes : Type := list Byte.byte.
Definition Hash : Type := list Byte.byte.
Definition Address : Type := string.

#[global] Instance byte_eq_dec : EqDecision Byte.byte := Byte.byte_eq_dec.

Definition hex_digit (n : N) : Ascii.ascii :=
  nth (N.to_nat n) (String.list_ascii_of_string "0123456789abcdef") Ascii.zero.

Definition Bytes2Hex (b : bytes) : string :=
  fold_right
    (λ x acc, String (hex_digit (Byte.to_N x / 16))
                (String (hex_digit (Byte.to_N x mod 16)) acc))
    EmptyString b.

(** [Hash.Hex]; [Hash.String] is the same function. *)
Definition Hash_Hex (h : Hash) : string := "0x" +:+ Bytes2Hex h.
Definition Hash_String (h : Hash) : string := Hash_Hex h.

(** [time.Time] as nanoseconds since the epoch and [Time.Sub], which
    saturates at the bounds of [time.Duration]. *)
Definition Time : Type := Z.
Definition Duration : Type := Z.

Definition Time_Sub (t u : Time) : Duration :=
  Z.max (- 2 ^ 63) (Z.min (2 ^ 63 - 1) (t - u)).

(** [types.BlockBatch] as read from the database: the fields this
    package reads.  [CreatedAt] is a pointer. *)
Record BlockBatch : Type := mkBlockBatch {
  BlockBatch_Hash : string;
  ProvingStatus_ : ProvingStatus;
  RollupStatus_ : RollupStatus;
  OracleStatus : GasOracleStatus;
  CreatedAt : option Time
}.

(** [bridge_abi.IScrollChainBatch] and [types.BatchData]; [BatchData_Hash]
    is the value of the method [Hash]. *)
Record IScrollChainBatch : Type := mkIScrollChainBatch {
  BatchIndex : Z;
  batch_payload : string
}.

Record BatchData : Type := mkBatchData {
  Batch : IScrollChainBatch;
  BatchData_Hash : Hash
}.

#[global] Instance IScrollChainBatch_eq_dec : EqDecision IScrollChainBatch.
Proof. solve_decision. Defined.

Inductive Sender : Type := messageSender | rollupSender | gasOracleSender.

Inductive Counter : Type :=
  | bridgeL2BatchesFinalizedTotalCounter
  | bridgeL2BatchesCommittedTotalCounter
  | bridgeL2BatchesSkippedTotalCounter.

#[global] Instance Sender_eq_dec : EqDecision Sender.
Proof. solve_decision. Defined.
#[global] Instance Counter_eq_dec : EqDecision Counter.
Proof. solve_decision. Defined.

(** The calls that leave the package, in the order they are made. *)
Inductive Call : Type :=
  | CallGetLatestBatch
  | CallSuggestGasPrice
  | CallSendTransaction (sender : Sender) (id : string) (target : Address) (data : bytes)
  | CallUpdateL2GasOracleStatusAndOracleTxHash
      (hash : string) (status : GasOracleStatus) (txHash : string)
  | CallUpdateCommitTxHashAndRollupStatus
      (hash : string) (txHash : string) (status : RollupStatus)
  | CallUpdateFinalizeTxHashAndRollupStatus
      (hash : string) (txHash : string) (status : RollupStatus)
  | CallUpdateRollupStatus (hash : string) (status : RollupStatus)
  | CallUpdateSkippedBatches
  | CallGetCommittedBatches (limit : Z)
  | CallGetBlockBatches (hash : string)
  | CallGetLatestFinalizingOrFinalizedBatch
  | CallGetVerifiedProofAndInstanceCommitmentsByHash (hash : string)
  | CallInc (counter : Counter) (n : Z).

#[global] Instance Call_eq_dec : EqDecision Call.
Proof. solve_decision. Defined.

(** Modelled from the spec: a row of the batch metadata store (the
    database code is outside this file), "durable record of each batch's
    proving status and rollup (commit/finalize) status" with the
    "commit/finalize transaction hashes" and the gas-oracle status; the
    columns kept here are the ones this package writes. *)
Record BatchRow : Type := mkBatchRow {
  rollup_status : RollupStatus;
  commit_tx_hash : option string;
  finalize_tx_hash : option string;
  oracle_status : GasOracleStatus;
  oracle_tx_hash : option string
}.

#[global] Instance BatchRow_eq_dec : EqDecision BatchRow.
Proof. solve_decision. Defined.

(** The fields of a [Layer2Relayer] that change, the database table and
    the call log.  The two registries are [sync.Map]s. *)
Record State : Type := mkState {
  db : gmap string BatchRow;
  lastGasPrice : Z;
  processingBatchesCommitment : gmap string (list string);
  processingFinalization : gmap string string;
  calls : list Call
}.

(** The configuration, the fields of a [Layer2Relayer] that are fixed
    at construction, the library functions and the collaborators. *)
Record Env : Type := mkEnv {
  minGasPrice : Z;
  gasPriceDiff : Z;
  (** the package constant [gasPriceDiffPrecision], declared outside
      this file *)
  gasPriceDiffPrecision : Z;
  (** [cfg.FinalizeBatchIntervalSec], [cfg.RollupContractAddress],
      [cfg.GasPriceOracleContractAddress] *)
  FinalizeBatchIntervalSec : Z;
  RollupContractAddress : Address;
  GasPriceOracleContractAddress : Address;
  (** [uint64(d.Seconds())] for a duration [d]: the conversion goes
      through [float64] and is left uninterpreted *)
  SecondsToUint64 : Duration → Z;
  (** [crypto.Keccak256Hash], [common.HexToHash] *)
  Keccak256Hash : bytes → Hash;
  HexToHash : string → Hash;
  (** [abi.Pack] at the three methods *)
  PackSetL2BaseFee : Z → error + bytes;
  PackCommitBatches : list IScrollChainBatch → error + bytes;
  PackFinalizeBatchWithProof : Hash → list Z → list Z → error + bytes;
  (** the chain endpoint and the transaction senders *)
  SuggestGasPrice : list Call → error + Z;
  SendTransaction : list Call → Sender → string → Address → bytes → error + Hash;
  (** database reads *)
  GetLatestBatch : list Call → error + BlockBatch;
  GetCommittedBatches : list Call → Z → error + list string;
  GetBlockBatches : list Call → string → error + list BlockBatch;
  GetLatestFinalizingOrFinalizedBatch : list Call → error + BlockBatch;
  GetVerifiedProofAndInstanceCommitmentsByHash :
    list Call → string → error + (option bytes * option bytes);
  (** database writes: the fault of a single-row update, and the bulk
      update [UpdateSkippedBatches] with its effect on the table *)
  WriteFault : list Call → Call → option error;
  UpdateSkippedBatches :
    list Call → gmap string BatchRow → (error + Z) * gmap string BatchRow
}.

Definition log (c : Call) : M State unit :=
  λ s, (Done (), {| db := db s; lastGasPrice := lastGasPrice s;
                    processingBatchesCommitment := processingBatchesCommitment s;
                    processingFinalization := processingFinalization s;
                    calls := calls s ++ [c] |}).

Definition history : M State (list Call) :=
  λ s, (Done (calls s), s).

Definition get_lastGasPrice : M State Z :=
  λ s, (Done (lastGasPrice s), s).

Definition set_lastGasPrice (p : Z) : M State unit :=
  λ s, (Done (), {| db := db s; lastGasPrice := p;
                    processingBatchesCommitment := processingBatchesCommitment s;
                    processingFinalization := processingFinalization s;
                    calls := calls s |}).

Definition modify_db (f : gmap string BatchRow → gmap string BatchRow)
  : M State unit :=
  λ s, (Done (), {| db := f (db s); lastGasPrice := lastGasPrice s;
                    processingBatchesCommitment := processingBatchesCommitment s;
                    processingFinalization := processingFinalization s;
                    calls := calls s |}).

(** [r.processingBatchesCommitment.Store] and
    [r.processingFinalization.Store] *)
Definition processingBatchesCommitment_Store (k : string) (v : list string)
  : M State unit :=
  λ s, (Done (), {| db := db s; lastGasPrice := lastGasPrice s;
                    processingBatchesCommitment :=
                      <[k := v]> (processingBatchesCommitment s);
                    processingFinalization := processingFinalization s;
                    calls := calls s |}).

Definition processingFinalization_Store (k v : string) : M State unit :=
  λ s, (Done (), {| db := db s; lastGasPrice := lastGasPrice s;
                    processingBatchesCommitment := processingBatchesCommitment s;
                    processingFinalization := <[k := v]> (processingFinalization s);
                    calls := calls s |}).

Definition Inc (counter : Counter) (n : Z) : M State unit :=
  log (CallInc counter n).

(** Modelled from the spec: [utils.BufferToUint256Le] (outside this
    file) decodes "proof/instance buffers into the numeric word sequence
    the contract call expects": one little-endian 256-bit number per 32
    bytes. *)
Definition le_word (w : bytes) : Z :=
  fold_right (λ x acc, Z.of_N (Byte.to_N x) + 256 * acc) 0 w.

Fixpoint le_words (n : nat) (buffer : bytes) : list Z :=
  match n with
  | O => []
  | S n' => le_word (take 32 buffer) :: le_words n' (drop 32 buffer)
  end.

Definition BufferToUint256Le (buffer : bytes) : list Z :=
  le_words (length buffer / 32)%nat buffer.

Section WithEnv.

Variable env : Env.

(** Modelled from the spec: "every status transition is a single
    conditional update", "idempotent-by-batch-hash": a single-row
    update changes the row of that hash when it exists and the write
    does not fail. *)
Definition dbUpdate (c : Call) (hash : string) (f : BatchRow → BatchRow)
  : M State (option error) :=
  h ← history;
  log c;;
  match WriteFault env h c with
  | Some err => mret (Some err)
  | None => modify_db (alter f hash);; mret None
  end.

Definition db_UpdateRollupStatus (hash : string) (status : RollupStatus)
  : M State (option error) :=
  dbUpdate (CallUpdateRollupStatus hash status) hash
    (λ row, {| rollup_status := status;
               commit_tx_hash := commit_tx_hash row;
               finalize_tx_hash := finalize_tx_hash row;
               oracle_status := oracle_status row;
               oracle_tx_hash := oracle_tx_hash row |}).

Definition db_UpdateCommitTxHashAndRollupStatus
  (hash txHash : string) (status : RollupStatus) : M State (option error) :=
  dbUpdate (CallUpdateCommitTxHashAndRollupStatus hash txHash status) hash
    (λ row, {| rollup_status := status;
               commit_tx_hash := Some txHash;
               finalize_tx_hash := finalize_tx_hash row;
               oracle_status := oracle_status row;
               oracle_tx_hash := oracle_tx_hash row |}).

Definition db_UpdateFinalizeTxHashAndRollupStatus
  (hash txHash : string) (status : RollupStatus) : M State (option error) :=
  dbUpdate (CallUpdateFinalizeTxHashAndRollupStatus hash txHash status) hash
    (λ row, {| rollup_status := status;
               commit_tx_hash := commit_tx_hash row;
               finalize_tx_hash := Some txHash;
               oracle_status := oracle_status row;
               oracle_tx_hash := oracle_tx_hash row |}).

Definition db_UpdateL2GasOracleStatusAndOracleTxHash
  (hash : string) (status : GasOracleStatus) (txHash : string)
  : M State (option error) :=
  dbUpdate (CallUpdateL2GasOracleStatusAndOracleTxHash hash status txHash) hash
    (λ row, {| rollup_status := rollup_status row;
               commit_tx_hash := commit_tx_hash row;
               finalize_tx_hash := finalize_tx_hash row;
               oracle_status := status;
               oracle_tx_hash := Some txHash |}).

Definition run_UpdateSkippedBatches (h : list Call) : M State (error + Z) :=
  λ s, let (r, db') := UpdateSkippedBatches env h (db s) in
       (Done r, {| db := db'; lastGasPrice := lastGasPrice s;
                   processingBatchesCommitment := processingBatchesCommitment s;
                   processingFinalization := processingFinalization s;
                   calls := calls s |}).

Definition db_UpdateSkippedBatches : M State (error + Z) :=
  h ← history;
  log CallUpdateSkippedBatches;;
  run_UpdateSkippedBatches h.

Definition db_GetLatestBatch : M State (error + BlockBatch) :=
  h ← history; log CallGetLatestBatch;; mret (GetLatestBatch env h).

Definition db_GetCommittedBatches (limit : Z) : M State (error + list string) :=
  h ← history; log (CallGetCommittedBatches limit);;
  mret (GetCommittedBatches env h limit).

Definition db_GetBlockBatches (hash : string) : M State (error + list BlockBatch) :=
  h ← history; log (CallGetBlockBatches hash);;
  mret (GetBlockBatches env h hash).

Definition db_GetLatestFinalizingOrFinalizedBatch : M State (error + BlockBatch) :=
  h ← history; log CallGetLatestFinalizingOrFinalizedBatch;;
  mret (GetLatestFinalizingOrFinalizedBatch env h).

Definition db_GetVerifiedProofAndInstanceCommitmentsByHash (hash : string)
  : M State (error + (option bytes * option bytes)) :=
  h ← history; log (CallGetVerifiedProofAndInstanceCommitmentsByHash hash);;
  mret (GetVerifiedProofAndInstanceCommitmentsByHash env h hash).

Definition l2Client_SuggestGasPrice : M State (error + Z) :=
  h ← history; log CallSuggestGasPrice;; mret (SuggestGasPrice env h).

(** [Sender.SendTransaction] of one of the three senders;
    the value sent is always zero and the gas hint always 0. *)
Definition Sender_SendTransaction
  (sender : Sender) (id : string) (target : Address) (data : bytes)
  : M State (error + Hash) :=
  h ← history;
  log (CallSendTransaction sender id target data);;
  mret (SendTransaction env h sender id target data).

(** [expectedDelta] and the condition of the update in
    [ProcessGasPriceOracle], over [uint64]: "last is undefine or
    (suggestGasPriceUint64 >= minGasPrice && exceed diff)". *)
Definition expectedDelta (lastGasPrice : Z) : Z :=
  to_uint64 (lastGasPrice * gasPriceDiff env) / gasPriceDiffPrecision env.

Definition shouldUpdate (lastGasPrice suggestGasPriceUint64 : Z) : bool :=
  bool_decide (lastGasPrice = 0)
  || (bool_decide (minGasPrice env ≤ suggestGasPriceUint64)
      && (bool_decide
            (to_uint64 (lastGasPrice + expectedDelta lastGasPrice)
             ≤ suggestGasPriceUint64)
          || bool_decide
               (suggestGasPriceUint64
                ≤ to_uint64 (lastGasPrice - expectedDelta lastGasPrice)))).

(** ProcessGasPriceOracle imports gas price to layer1. *)
Definition ProcessGasPriceOracle : M State unit :=
  r ← db_GetLatestBatch;
  match r with
  | inl _ => mret ()
  | inr batch =>
      if decide (OracleStatus batch = GasOraclePending) then
        r ← l2Client_SuggestGasPrice;
        match r with
        | inl _ => mret ()
        | inr suggestGasPrice =>
            let suggestGasPriceUint64 := to_uint64 (BigInt_Int64 suggestGasPrice) in
            lastGasPrice ← get_lastGasPrice;
            if shouldUpdate lastGasPrice suggestGasPriceUint64 then
              match PackSetL2BaseFee env suggestGasPrice with
              | inl _ => mret ()
              | inr data =>
                  r ← Sender_SendTransaction gasOracleSender (BlockBatch_Hash batch)
                        (GasPriceOracleContractAddress env) data;
                  match r with
                  | inl _ => mret ()
                  | inr hash =>
                      err ← db_UpdateL2GasOracleStatusAndOracleTxHash
                              (BlockBatch_Hash batch) GasOracleImporting (Hash_String hash);
                      match err with
                      | Some _ => mret ()
                      | None => set_lastGasPrice suggestGasPriceUint64
                      end
                  end
              end
            else mret ()
        end
      else mret ()
  end.

(** The loop of [SendCommitTx] that records the commit transaction
    for every batch; it returns [batchHashes]. *)
Fixpoint recordCommitting (batchData : list BatchData) (txHash : Hash)
  : M State (list string) :=
  match batchData with
  | [] => mret []
  | batch :: rest =>
      let batchHash := Hash_Hex (BatchData_Hash batch) in
      _ ← db_UpdateCommitTxHashAndRollupStatus batchHash (Hash_String txHash)
            RollupCommitting;
      batchHashes ← recordCommitting rest txHash;
      mret (batchHash :: batchHashes)
  end.

(** SendCommitTx sends commitBatches tx to L1. *)
Definition SendCommitTx (batchData : list BatchData) : M State (option error) :=
  if decide (length batchData = 0%nat) then mret None
  else
    let commitBatches := map Batch batchData in
    match PackCommitBatches env commitBatches with
    | inl err => mret (Some err)
    | inr calldata =>
        let bytes := concat (map BatchData_Hash batchData) in
        let txID := Hash_String (Keccak256Hash env bytes) in
        r ← Sender_SendTransaction rollupSender txID (RollupContractAddress env) calldata;
        match r with
        | inl err => mret (Some err)
        | inr txHash =>
            Inc bridgeL2BatchesCommittedTotalCounter (Z.of_nat (length commitBatches));;
            batchHashes ← recordCommitting batchData txHash;
            processingBatchesCommitment_Store txID batchHashes;;
            mret None
        end
    end.

(** The part of the [Verified] case of [ProcessCommittedBatches] that
    follows the [defer] statement; it returns the value of [success]
    on leaving. *)
Definition submitFinalize (hash : string) : M State bool :=
  r ← db_GetVerifiedProofAndInstanceCommitmentsByHash hash;
  match r with
  | inl _ => mret false
  | inr (Some proofBuffer, Some icBuffer) =>
      if decide ((length proofBuffer `mod` 32)%nat ≠ 0%nat) then mret false
      else if decide ((length icBuffer `mod` 32)%nat ≠ 0%nat) then mret false
      else
        let proof := BufferToUint256Le proofBuffer in
        let instance := BufferToUint256Le icBuffer in
        match PackFinalizeBatchWithProof env (HexToHash env hash) proof instance with
        | inl _ => mret false
        | inr data =>
            let txID := hash +:+ "-finalize" in
            r ← Sender_SendTransaction rollupSender txID (RollupContractAddress env) data;
            match r with
            | inl _ => mret false
            | inr txHash =>
                Inc bridgeL2BatchesFinalizedTotalCounter 1;;
                _ ← db_UpdateFinalizeTxHashAndRollupStatus hash (Hash_String txHash)
                      RollupFinalizing;
                processingFinalization_Store txID hash;;
                mret true
            end
        end
  | inr _ => mret false
  end.

(** The deferred closure of [ProcessCommittedBatches]. *)
Definition finalizeGuard (hash : string) (o : outcome bool) : M State unit :=
  match o with
  | Done true => mret ()
  | _ => _ ← db_UpdateRollupStatus hash RollupFinalizationSkipped; mret ()
  end.

(** The [Verified] case of [ProcessCommittedBatches]. *)
Definition finalizeVerified (hash : string) (batch : BlockBatch) : M State unit :=
  r ← db_GetLatestFinalizingOrFinalizedBatch;
  tooSoon ←
    match r with
    | inl _ => mret false
    | inr previousBatch =>
        match CreatedAt batch, CreatedAt previousBatch with
        | Some t, Some u =>
            mret (bool_decide
                    (SecondsToUint64 env (Time_Sub t u) < FinalizeBatchIntervalSec env))
        | _, _ => panic "invalid memory address or nil pointer dereference"
        end
    end;
  if tooSoon : bool then
    _ ← db_UpdateRollupStatus hash RollupFinalizationSkipped; mret ()
  else
    match r with
    | inl err =>
        if decide (Error err ≠ "sql: no rows in result set") then mret ()
        else _ ← defer_ (submitFinalize hash) (finalizeGuard hash); mret ()
    | inr _ => _ ← defer_ (submitFinalize hash) (finalizeGuard hash); mret ()
    end.

(** ProcessCommittedBatches submit proof to layer 1 rollup contract. *)
Definition ProcessCommittedBatches : M State unit :=
  r ← db_UpdateSkippedBatches;
  match r with
  | inl _ => mret ()
  | inr count =>
      if decide (0 < count) then Inc bridgeL2BatchesSkippedTotalCounter count
      else mret ()
  end;;
  r ← db_GetCommittedBatches 1;
  match r with
  | inl _ => mret ()
  | inr [] => mret ()
  | inr (hash :: _) =>
      r ← db_GetBlockBatches hash;
      match r with
      | inl _ => mret ()
      | inr [] => mret ()
      | inr (batch :: _) =>
          match ProvingStatus_ batch with
          | ProvingTaskUnassigned | ProvingTaskAssigned => mret ()
          | ProvingTaskProved => mret ()
          | ProvingTaskFailed | ProvingTaskSkipped =>
              _ ← db_UpdateRollupStatus hash RollupFinalizationSkipped; mret ()
          | ProvingTaskVerified => finalizeVerified hash batch
          | _ => mret ()
          end
      end
  end.

End WithEnv.

End Relayer.

(** * Specification vocabulary *)

Module ProverSpec.
Import Prover.

(** Calls to the proof engine. *)
Definition isEngineCall (c : Call) : bool :=
  match c with
  | CallProveChunk _ _ | CallProveBatch _ _ _ => true
  | _ => false
  end.

(** Calls to the durable task store. *)
Definition isStoreCall (c : Call) : bool :=
  match c with
  | CallPeek | CallUpdateTimes _ _ | CallDelete _ => true
  | _ => false
  end.

Definition isDeleteCall (c : Call) : bool :=
  match c with
  | CallDelete _ => true
  | _ => false
  end.

(** The calls [signAndSubmitProof] makes. *)
Definition isSubmitCall (c : Call) : bool :=
  match c with
  | CallSign _ | CallSubmitProof _ => true
  | _ => false
  end.

Definition isSubmitProofCall (c : Call) : bool :=
  match c with
  | CallSubmitProof _ => true
  | _ => false
  end.

(** The calls made while a task is acquired. *)
Definition isAcquireCall (c : Call) : bool :=
  match c with
  | CallPeek | CallGetLatestConfirmedBlockNumber | CallProverTasks _ | CallSleep _ => true
  | _ => false
  end.

(** The calls [prove] makes. *)
Definition isProveStep (c : Call) : bool :=
  match c with
  | CallGetBlockTraceByHash _ | CallProveChunk _ _ | CallProveBatch _ _ _ => true
  | _ => false
  end.

(** [frame P m]: from every state [m] returns, leaves the task store as
    it was, and appends to the log only calls that satisfy [P]. *)
Definition frame {A : Type} (P : Call → bool) (m : M State A) : Prop :=
  ∀ s, ∃ a s',
    m s = (Done a, s') ∧ stack s' = stack s
    ∧ ∃ new, calls s' = calls s ++ new ∧ forallb P new = true.

(** The result that replaces proving for a task over its retry budget. *)
Definition poisonedDetail (task : ProvingTask) : ProofDetail :=
  {| ProofDetail_ID := ID (Task task);
     ProofDetail_Type := Type_ (Task task);
     ProofDetail_Status := StatusProofError;
     ProofDetail_ChunkProof := None;
     ProofDetail_BatchProof := None;
     ProofDetail_Error := "zk proving panic" |}.

(** The block height the sort compares. *)
Definition height (t : BlockTrace) : Z := BigInt_Int64 (Number (Header t)).

(** The contract of [sort.Slice]: the slice is rearranged so that no
    element is less than one in front of it, whenever [less] is a strict
    weak order.  The order among equal elements is not fixed. *)
Definition sortSlice_contract
  (sort : (BlockTrace → BlockTrace → bool) → list BlockTrace → list BlockTrace)
  : Prop :=
  ∀ (less : BlockTrace → BlockTrace → bool) (l : list BlockTrace),
    (∀ x y z, less x y = false → less y z = false → less x z = false) →
    (∀ x y, less x y = true → less y x = false) →
    sort less l ≡ₚ l
    ∧ StronglySorted (λ x y, less y x = false) (sort less l).

(** Insertion sort, which meets the contract. *)
Fixpoint insert_sorted (less : BlockTrace → BlockTrace → bool)
  (x : BlockTrace) (l : list BlockTrace) : list BlockTrace :=
  match l with
  | [] => [x]
  | y :: l' => if less x y then x :: y :: l' else y :: insert_sorted less x l'
  end.

Definition insertion_sort (less : BlockTrace → BlockTrace → bool)
  (l : list BlockTrace) : list BlockTrace :=
  foldr (insert_sorted less) [] l.

(** How many calls of a kind a log holds. *)
Definition count_calls (P : Call → bool) (l : list Call) : nat :=
  length (List.filter P l).

(** Exactly one of the two proofs is there, and it is the one of the
    detail's proof type. *)
Definition populatedAsTyped (d : ProofDetail) : bool :=
  match ProofDetail_Type d, ProofDetail_ChunkProof d, ProofDetail_BatchProof d with
  | ProofTypeChunk, Some _, None => true
  | ProofTypeBatch, None, Some _ => true
  | _, _, _ => false
  end.

Definition unpopulated (d : ProofDetail) : bool :=
  match ProofDetail_ChunkProof d, ProofDetail_BatchProof d with
  | None, None => true
  | _, _ => false
  end.

(** The details handed to [signAndSubmitProof], read off the log. *)
Definition signedDetails (l : list Call) : list ProofDetail :=
  omap (λ c, match c with CallSign d => Some d | _ => None end) l.

End ProverSpec.

(** * Concrete environments *)

Module ProverExamples.
Import Prover ProverSpec.

(** A chain endpoint whose blocks are numbered by the length of their
    hash, a proof engine and a coordinator that accept everything. *)
Definition exampleEnv (proofType : ProofType) (updateTimesFault : option error) : Env :=
  {| cfg_ProofType := proofType;
     Version := "v4.0.0";
     PeekFault := λ _, None;
     UpdateTimesFault := λ _, updateTimesFault;
     DeleteFault := λ _, None;
     GetLatestConfirmedBlockNumber := λ _, inr 100;
     ProverTasks := λ _ _, inr None;
     UnmarshalBlockHashes := λ _, inr [];
     UnmarshalChunkProofs := λ _, inr [];
     GetBlockTraceByHash :=
       λ _ h, inr {| Header := {| Number := Z.of_nat (String.length h) |}; body := h |};
     sortSlice := insertion_sort;
     ProveChunk := λ _ _ _, inr (mkChunkProof "chunk-proof");
     ProveBatch := λ _ _ _ _, inr (mkBatchProof "batch-proof");
     Sign := λ _ _, inr "signature";
     MarshalProofs := λ _ _, inr "{}";
     SubmitProof := λ _ _, inr {| ErrCode := 200; ErrMsg := "" |} |}.

Definition exampleDetail : ChunkTaskDetail :=
  {| BlockHashes := ["0xccc"; "0xa"; "0xbb"] |}.

Definition exampleTask (times : Z) : ProvingTask :=
  {| Task := {| ID := "task-1";
                Type_ := ProofTypeChunk;
                TaskMsg_ChunkTaskDetail := Some exampleDetail;
                TaskMsg_BatchTaskDetail := None |};
     Times := times |}.

Definition queued (task : ProvingTask) : State :=
  {| stack := Some task; calls := [] |}.

(** The same environment with a task store that cannot be written. *)
Definition storeDown : error := ErrOther "database not open".

Definition failingStoreEnv : Env := exampleEnv ProofTypeChunk (Some storeDown).

(** A task whose chunk detail is missing: proving fails at once. *)
Definition emptyTask (times : Z) : ProvingTask :=
  {| Task := {| ID := "task-2";
                Type_ := ProofTypeChunk;
                TaskMsg_ChunkTaskDetail := None;
                TaskMsg_BatchTaskDetail := None |};
     Times := times |}.

End ProverExamples.

Module RelayerSpec.
Import Relayer.

(** Calls to a transaction sender. *)
Definition isSendCall (c : Call) : bool :=
  match c with
  | CallSendTransaction _ _ _ _ => true
  | _ => false
  end.

(** Calls that write a rollup status. *)
Definition isRollupWrite (c : Call) : bool :=
  match c with
  | CallUpdateRollupStatus _ _
  | CallUpdateCommitTxHashAndRollupStatus _ _ _
  | CallUpdateFinalizeTxHashAndRollupStatus _ _ _ => true
  | _ => false
  end.

(** Calls that neither send a transaction nor write a rollup status. *)
Definition isQuiet (c : Call) : bool := negb (isSendCall c) && negb (isRollupWrite c).

Definition count_calls (P : Call → bool) (l : list Call) : nat :=
  length (List.filter P l).

(** The states that differ from [s] in the database and the call log
    only. *)
Definition sameMemory (s s' : State) : Prop :=
  lastGasPrice s' = lastGasPrice s
  ∧ processingBatchesCommitment s' = processingBatchesCommitment s
  ∧ processingFinalization s' = processingFinalization s.

(** A stored proof or public-input commitment that step 5 of the
    finalize path rejects: missing, or of a length that is not a
    multiple of 32. *)
Definition buffersRejected (proofBuffer icBuffer : option bytes) : bool :=
  match proofBuffer, icBuffer with
  | Some p, Some i =>
      negb (bool_decide ((length p `mod` 32)%nat = 0%nat))
      || negb (bool_decide ((length i `mod` 32)%nat = 0%nat))
  | _, _ => true
  end.

(** The answers of [GetLatestFinalizingOrFinalizedBatch] under which the
    [Verified] case goes on to finalize: no previous batch, or one that
    is at least the configured interval older. *)
Definition proceedsToFinalize (env : Env) (batch : BlockBatch)
  (r : error + BlockBatch) : Prop :=
  match r with
  | inl err => Error err = "sql: no rows in result set"
  | inr previousBatch =>
      ∃ t u, CreatedAt batch = Some t ∧ CreatedAt previousBatch = Some u
             ∧ FinalizeBatchIntervalSec env ≤ SecondsToUint64 env (Time_Sub t u)
  end.

(** What a successful [UpdateRollupStatus] does to a row. *)
Definition withRollupStatus (status : RollupStatus) (row : BatchRow) : BatchRow :=
  {| rollup_status := status;
     commit_tx_hash := commit_tx_hash row;
     finalize_tx_hash := finalize_tx_hash row;
     oracle_status := oracle_status row;
     oracle_tx_hash := oracle_tx_hash row |}.

(** The correlation identifier, the send call and the status writes
    of [SendCommitTx] for a list of batches. *)
Definition commitTxID (env : Env) (batchData : list BatchData) : string :=
  Hash_String (Keccak256Hash env (concat (map BatchData_Hash batchData))).

Definition commitSend (env : Env) (batchData : list BatchData) (calldata : bytes) : Call :=
  CallSendTransaction rollupSender (commitTxID env batchData)
    (RollupContractAddress env) calldata.

Definition batchHashHex (batch : BatchData) : string := Hash_Hex (BatchData_Hash batch).

Definition commitWrite (txHash : Hash) (batch : BatchData) : Call :=
  CallUpdateCommitTxHashAndRollupStatus (batchHashHex batch) (Hash_String txHash)
    RollupCommitting.

(** The rule of the gas oracle, in the words of the specification: the
    update fires iff [lastPrice == 0] or ([newPrice ≥ minPrice] and
    [|newPrice - lastPrice| ≥ lastPrice*diffRatio/precision]), the
    threshold computed over unsigned 64-bit integers. *)
Definition specUpdateRule (env : Env) (lastPrice newPrice : Z) : Prop :=
  lastPrice = 0
  ∨ (minGasPrice env ≤ newPrice
     ∧ to_uint64 (lastPrice * gasPriceDiff env) / gasPriceDiffPrecision env
       ≤ Z.abs (newPrice - lastPrice)).

End RelayerSpec.

Module RelayerExamples.
Import Relayer RelayerSpec.

Definition exampleHash : string := "0xabc".

Definition exampleBatch (status : ProvingStatus) (createdAt : Time) : BlockBatch :=
  {| BlockBatch_Hash := exampleHash;
     ProvingStatus_ := status;
     RollupStatus_ := RollupCommitted;
     OracleStatus := GasOraclePending;
     CreatedAt := Some createdAt |}.

Definition noRows : error := ErrOther "sql: no rows in result set".

(** A relayer with a finalize interval of 600 seconds whose database
    holds one committed batch, created 1000 seconds after the epoch, of
    proving status [status]; [previous] is the answer about the latest
    finalizing or finalized batch, [buffers] the stored proof and
    commitment, [sent] the answer of every sender, and [diff] the
    configured gas price difference, in millionths. *)
Definition exampleEnv
  (status : ProvingStatus) (previous : error + BlockBatch)
  (buffers : option bytes * option bytes) (sent : error + Hash) (diff : Z) : Env :=
  {| minGasPrice := 0;
     gasPriceDiff := diff;
     gasPriceDiffPrecision := 1000000;
     FinalizeBatchIntervalSec := 600;
     RollupContractAddress := "0xrollup";
     GasPriceOracleContractAddress := "0xoracle";
     SecondsToUint64 := λ d, Z.max 0 d `div` 1000000000;
     Keccak256Hash := λ b, take 32 b;
     HexToHash := λ _, [];
     PackSetL2BaseFee := λ _, inr [];
     PackCommitBatches := λ _, inr [];
     PackFinalizeBatchWithProof := λ _ _ _, inr [];
     SuggestGasPrice := λ _, inr 1000000000;
     SendTransaction := λ _ _ _ _ _, sent;
     GetLatestBatch := λ _, inr (exampleBatch status 1000000000000);
     GetCommittedBatches := λ _ _, inr [exampleHash];
     GetBlockBatches := λ _ _, inr [exampleBatch status 1000000000000];
     GetLatestFinalizingOrFinalizedBatch := λ _, previous;
     GetVerifiedProofAndInstanceCommitmentsByHash := λ _ _, inr buffers;
     WriteFault := λ _ _, None;
     UpdateSkippedBatches := λ _ table, (inr 0, table) |}.

Definition committedRow : BatchRow :=
  {| rollup_status := RollupCommitted;
     commit_tx_hash := Some "0xc0";
     finalize_tx_hash := None;
     oracle_status := GasOraclePending;
     oracle_tx_hash := None |}.

Definition exampleState (lastPrice : Z) : State :=
  {| db := {[ exampleHash := committedRow ]};
     lastGasPrice := lastPrice;
     processingBatchesCommitment := ∅;
     processingFinalization := ∅;
     calls := [] |}.

Definition txHash : Hash := [Byte.x01; Byte.x02].

Definition exampleBatchData : list BatchData :=
  [ {| Batch := {| BatchIndex := 7; batch_payload := "b7" |};
       BatchData_Hash := [Byte.x0a] |};
    {| Batch := {| BatchIndex := 8; batch_payload := "b8" |};
       BatchData_Hash := [Byte.x0b] |} ].

End RelayerExamples.

(** * The life cycle of a prover *)

Module ProverLifecycle.
Import Prover.

(** What [NewProver] finds: the outcome of each constructor it calls, in
    the order of the calls.  [NewStack] opens the task store and answers
    with the task it holds on disk. *)
Record Startup : Type := mkStartup {
  LoadOrCreateKey : error + string;
  NewStack : error + option ProvingTask;
  DialContext : option error;
  NewProverCore : option error;
  NewCoordinatorClient : option error
}.

(** The fields of a [Prover] that change: the task store with the call
    log, [isClosed], whether [stopChan] has been closed, and the number of
    calls of [stack.Close]. *)
Record State : Type := mkState {
  prover : Prover.State;
  priv : string;
  isClosed : Z;
  stopChan_closed : bool;
  stack_Close_calls : nat
}.

(** NewProver new a Prover object. *)
Definition NewProver (found : Startup) : error + State :=
  match LoadOrCreateKey found with
  | inl err => inl err
  | inr key =>
      match NewStack found with
      | inl err => inl err
      | inr stackDb =>
          match DialContext found with
          | Some err => inl err
          | None =>
              match NewProverCore found with
              | Some err => inl err
              | None =>
                  match NewCoordinatorClient found with
                  | Some err => inl err
                  | None =>
                      inr {| prover := {| stack := stackDb; calls := [] |};
                             priv := key;
                             isClosed := 0;
                             stopChan_closed := false;
                             stack_Close_calls := 0 |}
                  end
              end
          end
      end
  end.

(** A call on the task store and its collaborators, made by a prover. *)
Definition lift {A : Type} (m : M Prover.State A) : M State A :=
  λ s,
    let (o, p) := m (prover s) in
    (o, {| prover := p; priv := priv s; isClosed := isClosed s;
           stopChan_closed := stopChan_closed s;
           stack_Close_calls := stack_Close_calls s |}).

Definition load_isClosed : M State Z :=
  λ s, (Done (isClosed s), s).

Definition store_isClosed (v : Z) : M State unit :=
  λ s, (Done (), {| prover := prover s; priv := priv s; isClosed := v;
                    stopChan_closed := stopChan_closed s;
                    stack_Close_calls := stack_Close_calls s |}).

(** [close(r.stopChan)]: closing a closed channel panics. *)
Definition close_stopChan : M State unit :=
  λ s,
    if stopChan_closed s
    then (Panicked "close of closed channel", s)
    else (Done (), {| prover := prover s; priv := priv s; isClosed := isClosed s;
                      stopChan_closed := true;
                      stack_Close_calls := stack_Close_calls s |}).

(** [r.stack.Close()]; its error is only logged. *)
Definition stack_Close : M State unit :=
  λ s, (Done (), {| prover := prover s; priv := priv s; isClosed := isClosed s;
                    stopChan_closed := stopChan_closed s;
                    stack_Close_calls := S (stack_Close_calls s) |}).

(** Stop closes the websocket connection. *)
Definition Stop : M State unit :=
  closed ← load_isClosed;
  if decide (closed = 1) then mret ()
  else
    store_isClosed 1;;
    close_stopChan;;
    stack_Close.

Section WithEnv.

Variable env : Env.

(** ProveLoop keep popping the block-traces from Stack and sends it to
    rust-prover for loop.  [fuel] bounds the number of iterations that are
    looked at; the loop itself only ends on a closed [stopChan]. *)
Fixpoint ProveLoop (fuel : nat) : M State unit :=
  match fuel with
  | O => mret ()
  | S fuel' =>
      λ s,
        if stopChan_closed s then (Done (), s)
        else (lift (proveAndSubmit env) ≫= λ _, ProveLoop fuel') s
  end.

End WithEnv.

(** The attempts the retry policy still allows for the task in the
    queue. *)
Definition budget (s : Prover.State) : nat :=
  match stack s with
  | Some task => Z.to_nat (3 - Times task)
  | None => 0
  end.

Definition isTraceCall (c : Call) : bool :=
  match c with
  | CallGetBlockTraceByHash _ => true
  | _ => false
  end.

(** A coordinator with no work to hand out. *)
Definition noWork (env : Env) : Prop :=
  ∀ h req data, ProverTasks env h req ≠ inr (Some data).

Definition isPeekCall (c : Call) : bool :=
  match c with
  | CallPeek => true
  | _ => false
  end.

(** A prover as [NewProver] builds it around a task store. *)
Definition started (stackDb : option ProvingTask) : State :=
  {| prover := {| stack := stackDb; calls := [] |};
     priv := "key";
     isClosed := 0;
     stopChan_closed := false;
     stack_Close_calls := 0 |}.

(** An environment in which the task store refuses every [Delete]. *)
Definition stuckEnv : Env :=
  {| cfg_ProofType := ProofTypeChunk;
     Version := "v4.0.0";
     PeekFault := λ _, None;
     UpdateTimesFault := λ _, None;
     DeleteFault := λ _, Some (ErrOther "database not open");
     GetLatestConfirmedBlockNumber := λ _, inr 100;
     ProverTasks := λ _ _, inr None;
     UnmarshalBlockHashes := λ _, inr [];
     UnmarshalChunkProofs := λ _, inr [];
     GetBlockTraceByHash :=
       λ _ h, inr {| Header := {| Number := Z.of_nat (String.length h) |}; body := h |};
     sortSlice := ProverSpec.insertion_sort;
     ProveChunk := λ _ _ _, inl (ErrOther "prover panicked");
     ProveBatch := λ _ _ _ _, inl (ErrOther "prover panicked");
     Sign := λ _ _, inr "signature";
     MarshalProofs := λ _ _, inr "{}";
     SubmitProof := λ _ _, inr {| ErrCode := 200; ErrMsg := "" |} |}.

(** An environment whose coordinator hands out a chunk task of two block
    hashes, and one whose chain endpoint knows no block of hash ["0xa"]. *)
Definition handedOut : ProverTasksData :=
  {| TaskID := "task-9"; ProverTasksData_ProofType := ProofTypeChunk;
     ProofData := "[0xbb,0xa]" |}.

Definition workEnv : Env :=
  {| cfg_ProofType := ProofTypeChunk;
     Version := "v4.0.0";
     PeekFault := λ _, None;
     UpdateTimesFault := λ _, None;
     DeleteFault := λ _, None;
     GetLatestConfirmedBlockNumber := λ _, inr 100;
     ProverTasks := λ _ _, inr (Some handedOut);
     UnmarshalBlockHashes := λ _, inr ["0xbb"; "0xa"];
     UnmarshalChunkProofs := λ _, inr [];
     GetBlockTraceByHash :=
       λ _ h, if decide (h = "0xa") then inl (ErrOther "block not found")
              else inr {| Header := {| Number := Z.of_nat (String.length h) |};
                          body := h |};
     sortSlice := ProverSpec.insertion_sort;
     ProveChunk := λ _ _ _, inr (mkChunkProof "chunk-proof");
     ProveBatch := λ _ _ _ _, inl (ErrOther "no batch circuit");
     Sign := λ _ _, inr "signature";
     MarshalProofs := λ _ _, inr "{}";
     SubmitProof := λ _ _, inr {| ErrCode := 500; ErrMsg := "busy" |} |}.

(** The answers of the coordinator that [fetchTaskFromServer] goes on to
    build a task from: a Chunk task whose block hashes unmarshal, a Batch
    task whose chunk proofs unmarshal.  Every other answer, of an unknown
    proof type or with a payload that does not parse, is returned as an
    error. *)
Definition handsOutTask (env : Env) (data : ProverTasksData) : bool :=
  match ProverTasksData_ProofType data with
  | ProofTypeChunk =>
      match UnmarshalBlockHashes env (ProofData data) with
      | inr _ => true
      | inl _ => false
      end
  | ProofTypeBatch =>
      match UnmarshalChunkProofs env (ProofData data) with
      | inr _ => true
      | inl _ => false
      end
  | _ => false
  end.

(** A coordinator from which no task is obtained: it fails, has no data,
    or answers with something [fetchTaskFromServer] rejects. *)
Definition noTask (env : Env) : Prop :=
  ∀ h req data, ProverTasks env h req = inr (Some data) → handsOutTask env data = false.

(** A coordinator whose chunk task carries a payload that does not
    parse. *)
Definition garbledEnv : Env :=
  {| cfg_ProofType := ProofTypeChunk;
     Version := "v4.0.0";
     PeekFault := λ _, None;
     UpdateTimesFault := λ _, None;
     DeleteFault := λ _, None;
     GetLatestConfirmedBlockNumber := λ _, inr 100;
     ProverTasks := λ _ _, inr (Some handedOut);
     UnmarshalBlockHashes := λ _, inl (ErrOther "invalid character");
     UnmarshalChunkProofs := λ _, inr [];
     GetBlockTraceByHash := λ _ _, inl (ErrOther "block not found");
     sortSlice := ProverSpec.insertion_sort;
     ProveChunk := λ _ _ _, inr (mkChunkProof "chunk-proof");
     ProveBatch := λ _ _ _ _, inl (ErrOther "no batch circuit");
     Sign := λ _ _, inr "signature";
     MarshalProofs := λ _ _, inr "{}";
     SubmitProof := λ _ _, inr {| ErrCode := 200; ErrMsg := "" |} |}.

Definition missingBlockTask : ProvingTask :=
  {| Task := {| ID := "task-9"; Type_ := ProofTypeChunk;
                TaskMsg_ChunkTaskDetail :=
                  Some {| BlockHashes := ["0xbb"; "0xa"; "0xccc"] |};
                TaskMsg_BatchTaskDetail := None |};
     Times := 1 |}.

Definition batchTask : ProvingTask :=
  {| Task := {| ID := "task-3";
                Type_ := ProofTypeBatch;
                TaskMsg_ChunkTaskDetail := None;
                TaskMsg_BatchTaskDetail :=
                  Some {| ChunkInfos := [mkChunkInfo "i1"; mkChunkInfo "i2"];
                          ChunkProofs := [mkChunkProof "p1"; mkChunkProof "p2"] |} |};
     Times := 1 |}.

End ProverLifecycle.

(** * Construction of the relayer and reconciliation of confirmations *)

Module Reconcile.
Import Relayer.

(** [types.MsgStatus]: the two constants this file writes. *)
Inductive MsgStatus : Type :=
  | MsgConfirmed
  | MsgRelayFailed.

(** [sender.Confirmation]. *)
Record Confirmation : Type := mkConfirmation {
  Confirmation_ID : string;
  IsSuccessful : bool;
  TxHash : Hash
}.

Inductive ConfirmedCounter : Type :=
  | bridgeL2MsgsRelayedConfirmedTotalCounter
  | bridgeL2BatchesFinalizedConfirmedTotalCounter
  | bridgeL2BatchesCommittedConfirmedTotalCounter.

(** The calls of the reconciliation engine besides those of [Relayer.Call]:
    the write to the message table, whose error is only logged, and the
    confirmed-count metrics. *)
Inductive MessageCall : Type :=
  | CallUpdateLayer2StatusAndLayer1Hash
      (msgHash : string) (status : MsgStatus) (layer1Hash : string)
  | CallIncConfirmed (counter : ConfirmedCounter) (n : Z).

(** A [Layer2Relayer] with its third registry, [processingMessage], and
    the log of the calls above. *)
Record State : Type := mkState {
  relayer : Relayer.State;
  processingMessage : gmap string string;
  messageCalls : list MessageCall
}.

Definition lift {A : Type} (m : M Relayer.State A) : M State A :=
  λ s,
    let (o, r) := m (relayer s) in
    (o, {| relayer := r; processingMessage := processingMessage s;
           messageCalls := messageCalls s |}).

Definition logMessage (c : MessageCall) : M State unit :=
  λ s, (Done (), {| relayer := relayer s; processingMessage := processingMessage s;
                    messageCalls := messageCalls s ++ [c] |}).

(** [Load] and [Delete] of the three [sync.Map]s. *)
Definition processingMessage_Load (k : string) : M State (option string) :=
  λ s, (Done (processingMessage s !! k), s).

Definition processingMessage_Delete (k : string) : M State unit :=
  λ s, (Done (), {| relayer := relayer s;
                    processingMessage := delete k (processingMessage s);
                    messageCalls := messageCalls s |}).

Definition processingBatchesCommitment_Load (k : string)
  : M Relayer.State (option (list string)) :=
  λ s, (Done (processingBatchesCommitment s !! k), s).

Definition processingBatchesCommitment_Delete (k : string) : M Relayer.State unit :=
  λ s, (Done (), {| db := db s; lastGasPrice := lastGasPrice s;
                    processingBatchesCommitment := delete k (processingBatchesCommitment s);
                    processingFinalization := processingFinalization s;
                    calls := calls s |}).

Definition processingFinalization_Load (k : string) : M Relayer.State (option string) :=
  λ s, (Done (processingFinalization s !! k), s).

Definition processingFinalization_Delete (k : string) : M Relayer.State unit :=
  λ s, (Done (), {| db := db s; lastGasPrice := lastGasPrice s;
                    processingBatchesCommitment := processingBatchesCommitment s;
                    processingFinalization := delete k (processingFinalization s);
                    calls := calls s |}).

Section WithEnv.

Variable env : Env.

(** The loop of [handleConfirmation] over the batch hashes of a commit. *)
Fixpoint confirmBatches (batchHashes : list string) (txHash : string)
  (status : RollupStatus) : M Relayer.State unit :=
  match batchHashes with
  | [] => mret ()
  | batchHash :: rest =>
      _ ← db_UpdateCommitTxHashAndRollupStatus env batchHash txHash status;
      confirmBatches rest txHash status
  end.

Definition handleConfirmation (confirmation : Confirmation) : M State unit :=
  msgHash ← processingMessage_Load (Confirmation_ID confirmation);
  match msgHash with
  | Some msgHash =>
      let status := if IsSuccessful confirmation then MsgConfirmed else MsgRelayFailed in
      logMessage (CallUpdateLayer2StatusAndLayer1Hash msgHash status
                    (Hash_String (TxHash confirmation)));;
      logMessage (CallIncConfirmed bridgeL2MsgsRelayedConfirmedTotalCounter 1);;
      processingMessage_Delete (Confirmation_ID confirmation)
  | None => mret ()
  end;;
  batchBatches ← lift (processingBatchesCommitment_Load (Confirmation_ID confirmation));
  match batchBatches with
  | Some batchHashes =>
      let status := if IsSuccessful confirmation
                    then RollupCommitted else RollupCommitFailed in
      lift (confirmBatches batchHashes (Hash_String (TxHash confirmation)) status);;
      logMessage (CallIncConfirmed bridgeL2BatchesCommittedConfirmedTotalCounter
                    (Z.of_nat (length batchHashes)));;
      lift (processingBatchesCommitment_Delete (Confirmation_ID confirmation))
  | None => mret ()
  end;;
  batchHash ← lift (processingFinalization_Load (Confirmation_ID confirmation));
  match batchHash with
  | Some batchHash =>
      let status := if IsSuccessful confirmation
                    then RollupFinalized else RollupFinalizeFailed in
      _ ← lift (db_UpdateFinalizeTxHashAndRollupStatus env batchHash
                  (Hash_String (TxHash confirmation)) status);
      logMessage (CallIncConfirmed bridgeL2BatchesFinalizedConfirmedTotalCounter 1);;
      lift (processingFinalization_Delete (Confirmation_ID confirmation))
  | None => mret ()
  end.

(** What the [select] of [handleConfirmLoop] receives, in the order it
    receives it: the end of the context, or a confirmation on the channel
    of one of the three senders. *)
Inductive Received : Type :=
  | ctxDone
  | fromMessageSender (confirmation : Confirmation)
  | fromRollupSender (confirmation : Confirmation)
  | fromGasOracleSender (cfm : Confirmation).

Fixpoint handleConfirmLoop (received : list Received) : M State unit :=
  match received with
  | [] => mret ()
  | ctxDone :: _ => mret ()
  | fromMessageSender confirmation :: rest =>
      handleConfirmation confirmation;; handleConfirmLoop rest
  | fromRollupSender confirmation :: rest =>
      handleConfirmation confirmation;; handleConfirmLoop rest
  | fromGasOracleSender cfm :: rest =>
      (if negb (IsSuccessful cfm)
       then _ ← lift (db_UpdateL2GasOracleStatusAndOracleTxHash env
                        (Confirmation_ID cfm) GasOracleFailed (Hash_String (TxHash cfm)));
            mret ()
       else _ ← lift (db_UpdateL2GasOracleStatusAndOracleTxHash env
                        (Confirmation_ID cfm) GasOracleImported (Hash_String (TxHash cfm)));
            mret ());;
      handleConfirmLoop rest
  end.

End WithEnv.

(** [config.RelayerConfig]: the fields [NewLayer2Relayer] and the
    submitters read.  [GasOracleConfig] is a pointer. *)
Record GasOracleConfig : Type := mkGasOracleConfig {
  MinGasPrice : Z;
  GasPriceDiff : Z
}.

Record RelayerConfig : Type := mkRelayerConfig {
  cfg_GasOracleConfig : option GasOracleConfig;
  MessageRelayMinGasLimit : Z;
  cfg_FinalizeBatchIntervalSec : Z;
  cfg_RollupContractAddress : Address;
  cfg_GasPriceOracleContractAddress : Address
}.

(** The package constants [defaultGasPriceDiff] and
    [defaultL2MessageRelayMinGasLimit], declared outside this file, and
    the outcome of [sender.NewSender] for each sender. *)
Record Construction : Type := mkConstruction {
  defaultGasPriceDiff : Z;
  defaultL2MessageRelayMinGasLimit : Z;
  NewSender : Sender → option error
}.

Record Layer2Relayer : Type := mkLayer2Relayer {
  fixed : Env;
  minGasLimitForMessageRelay : Z;
  fields : State
}.

(** NewLayer2Relayer will return a new instance of Layer2RelayerClient.
    [world] holds the collaborators and library functions, [table] the
    database the relayer is connected to. *)
Definition NewLayer2Relayer (world : Env) (table : gmap string BatchRow)
  (cfg : RelayerConfig) (found : Construction) : error + Layer2Relayer :=
  match NewSender found messageSender with
  | Some err => inl err
  | None =>
      match NewSender found rollupSender with
      | Some err => inl err
      | None =>
          match NewSender found gasOracleSender with
          | Some err => inl err
          | None =>
              let '(minGasPrice, gasPriceDiff) :=
                match cfg_GasOracleConfig cfg with
                | Some oracle => (MinGasPrice oracle, GasPriceDiff oracle)
                | None => (0, defaultGasPriceDiff found)
                end in
              let minGasLimitForMessageRelay :=
                if decide (MessageRelayMinGasLimit cfg ≠ 0)
                then MessageRelayMinGasLimit cfg
                else defaultL2MessageRelayMinGasLimit found in
              inr {| fixed :=
                       {| Relayer.minGasPrice := minGasPrice;
                          Relayer.gasPriceDiff := gasPriceDiff;
                          gasPriceDiffPrecision := gasPriceDiffPrecision world;
                          FinalizeBatchIntervalSec := cfg_FinalizeBatchIntervalSec cfg;
                          RollupContractAddress := cfg_RollupContractAddress cfg;
                          GasPriceOracleContractAddress :=
                            cfg_GasPriceOracleContractAddress cfg;
                          SecondsToUint64 := SecondsToUint64 world;
                          Keccak256Hash := Keccak256Hash world;
                          HexToHash := HexToHash world;
                          PackSetL2BaseFee := PackSetL2BaseFee world;
                          PackCommitBatches := PackCommitBatches world;
                          PackFinalizeBatchWithProof := PackFinalizeBatchWithProof world;
                          SuggestGasPrice := SuggestGasPrice world;
                          SendTransaction := SendTransaction world;
                          GetLatestBatch := GetLatestBatch world;
                          GetCommittedBatches := GetCommittedBatches world;
                          GetBlockBatches := GetBlockBatches world;
                          GetLatestFinalizingOrFinalizedBatch :=
                            GetLatestFinalizingOrFinalizedBatch world;
                          GetVerifiedProofAndInstanceCommitmentsByHash :=
                            GetVerifiedProofAndInstanceCommitmentsByHash world;
                          WriteFault := WriteFault world;
                          UpdateSkippedBatches := UpdateSkippedBatches world |};
                     minGasLimitForMessageRelay := minGasLimitForMessageRelay;
                     fields :=
                       {| relayer :=
                            {| db := table;
                               lastGasPrice := 0;
                               processingBatchesCommitment := ∅;
                               processingFinalization := ∅;
                               calls := [] |};
                          processingMessage := ∅;
                          messageCalls := [] |} |}
          end
      end
  end.

(** What a successful write of a confirmed commit, of a finalization and
    of a gas-oracle status does to a row. *)
Definition withCommit (txHash : string) (status : RollupStatus) (row : BatchRow)
  : BatchRow :=
  {| rollup_status := status;
     commit_tx_hash := Some txHash;
     finalize_tx_hash := finalize_tx_hash row;
     oracle_status := oracle_status row;
     oracle_tx_hash := oracle_tx_hash row |}.

Definition withFinalize (txHash : string) (status : RollupStatus) (row : BatchRow)
  : BatchRow :=
  {| rollup_status := status;
     commit_tx_hash := commit_tx_hash row;
     finalize_tx_hash := Some txHash;
     oracle_status := oracle_status row;
     oracle_tx_hash := oracle_tx_hash row |}.

Definition withOracle (status : GasOracleStatus) (txHash : string) (row : BatchRow)
  : BatchRow :=
  {| rollup_status := rollup_status row;
     commit_tx_hash := commit_tx_hash row;
     finalize_tx_hash := finalize_tx_hash row;
     oracle_status := status;
     oracle_tx_hash := Some txHash |}.

(** The construction of the example relayers: no oracle configuration,
    all senders available. *)
Definition exampleConfig : RelayerConfig :=
  {| cfg_GasOracleConfig := None;
     MessageRelayMinGasLimit := 0;
     cfg_FinalizeBatchIntervalSec := 600;
     cfg_RollupContractAddress := "0xrollup";
     cfg_GasPriceOracleContractAddress := "0xoracle" |}.

Definition exampleConstruction : Construction :=
  {| defaultGasPriceDiff := 50000;
     defaultL2MessageRelayMinGasLimit := 200000;
     NewSender := λ _, None |}.

(** A relayer whose database knows the first of the two example batches
    only. *)
Definition halfKnown : Relayer.State :=
  {| db := {[ "0x0a" := RelayerExamples.committedRow ]};
     lastGasPrice := 0;
     processingBatchesCommitment := ∅;
     processingFinalization := ∅;
     calls := [] |}.

(** A database that accepts every single-row write. *)
Definition writesAccepted (env : Env) : Prop :=
  ∀ h c, WriteFault env h c = None.

(** A relayer with nothing committed, whose sweep marks two batches as
    skipped. *)
Definition idleEnv : Env :=
  {| minGasPrice := 0;
     gasPriceDiff := 50000;
     gasPriceDiffPrecision := 1000000;
     FinalizeBatchIntervalSec := 600;
     RollupContractAddress := "0xrollup";
     GasPriceOracleContractAddress := "0xoracle";
     SecondsToUint64 := λ d, Z.max 0 d `div` 1000000000;
     Keccak256Hash := λ b, take 32 b;
     HexToHash := λ _, [];
     PackSetL2BaseFee := λ _, inr [];
     PackCommitBatches := λ _, inr [];
     PackFinalizeBatchWithProof := λ _ _ _, inr [];
     SuggestGasPrice := λ _, inr 1000000000;
     SendTransaction := λ _ _ _ _ _, inr RelayerExamples.txHash;
     GetLatestBatch := λ _, inl RelayerExamples.noRows;
     GetCommittedBatches := λ _ _, inr [];
     GetBlockBatches := λ _ _, inr [];
     GetLatestFinalizingOrFinalizedBatch := λ _, inl RelayerExamples.noRows;
     GetVerifiedProofAndInstanceCommitmentsByHash := λ _ _, inr (None, None);
     WriteFault := λ _ _, None;
     UpdateSkippedBatches := λ _ table, (inr 2, table) |}.

(** A relayer waiting for the confirmation of one message relay, one
    commit of the two example batches and one finalization. *)
Definition pending : State :=
  {| relayer :=
       {| db := {[ "0x0a" := RelayerExamples.committedRow;
                   "0xabc" := RelayerExamples.committedRow ]};
          lastGasPrice := 0;
          processingBatchesCommitment := {[ "0xc1" := ["0x0a"; "0x0b"] ]};
          processingFinalization := {[ "0xabc-finalize" := "0xabc" ]};
          calls := [] |};
     processingMessage := {[ "0xm1" := "0xmsg" ]};
     messageCalls := [] |}.

(** The calls of the skipped-batches metric after a sweep that answered
    [r]. *)
Definition sweepCount (r : error + Z) : list Call :=
  match r with
  | inl _ => []
  | inr count =>
      if decide (0 < count) then [CallInc bridgeL2BatchesSkippedTotalCounter count]
      else []
  end.

(** The statuses [handleConfirmation] writes for a confirmation. *)
Definition msgStatus (confirmation : Confirmation) : MsgStatus :=
  if IsSuccessful confirmation then MsgConfirmed else MsgRelayFailed.

Definition commitStatus (confirmation : Confirmation) : RollupStatus :=
  if IsSuccessful confirmation then RollupCommitted else RollupCommitFailed.

Definition finalizeStatus (confirmation : Confirmation) : RollupStatus :=
  if IsSuccessful confirmation then RollupFinalized else RollupFinalizeFailed.

Definition oracleStatus (cfm : Confirmation) : GasOracleStatus :=
  if IsSuccessful cfm then GasOracleImported else GasOracleFailed.

(** The database writes of a confirmation, given what the commit and the
    finalize registry hold under its identifier. *)
Definition commitWrites (confirmation : Confirmation) (found : option (list string))
  : list Call :=
  match found with
  | Some batchHashes =>
      map (λ batchHash,
             CallUpdateCommitTxHashAndRollupStatus batchHash
               (Hash_String (TxHash confirmation)) (commitStatus confirmation))
        batchHashes
  | None => []
  end.

Definition finalizeWrites (confirmation : Confirmation) (found : option string)
  : list Call :=
  match found with
  | Some batchHash =>
      [CallUpdateFinalizeTxHashAndRollupStatus batchHash
         (Hash_String (TxHash confirmation)) (finalizeStatus confirmation)]
  | None => []
  end.

(** The message write and the confirmed counts of a confirmation, given
    what the three registries hold under its identifier. *)
Definition confirmedCalls (confirmation : Confirmation)
  (message : option string) (commit : option (list string)) (finalize : option string)
  : list MessageCall :=
  match message with
  | Some msgHash =>
      [CallUpdateLayer2StatusAndLayer1Hash msgHash (msgStatus confirmation)
         (Hash_String (TxHash confirmation));
       CallIncConfirmed bridgeL2MsgsRelayedConfirmedTotalCounter 1]
  | None => []
  end
  ++ match commit with
     | Some batchHashes =>
         [CallIncConfirmed bridgeL2BatchesCommittedConfirmedTotalCounter
            (Z.of_nat (length batchHashes))]
     | None => []
     end
  ++ match finalize with
     | Some _ => [CallIncConfirmed bridgeL2BatchesFinalizedConfirmedTotalCounter 1]
     | None => []
     end.

(** A relayer with no message in flight. *)
Definition noMessages (r : Relayer.State) : State :=
  {| relayer := r; processingMessage := ∅; messageCalls := [] |}.

(** The confirmations of the examples: the commit of the two example
    batches, the finalization of the example batch and the gas-oracle
    update for it. *)
Definition commitConfirmed (ok : bool) : Confirmation :=
  {| Confirmation_ID := "0x0a0b"; IsSuccessful := ok; TxHash := [Byte.x0c] |}.

Definition finalizeConfirmed (ok : bool) : Confirmation :=
  {| Confirmation_ID := "0xabc-finalize"; IsSuccessful := ok; TxHash := [Byte.x0f] |}.

Definition oracleConfirmed (ok : bool) : Confirmation :=
  {| Confirmation_ID := "0xabc"; IsSuccessful := ok; TxHash := [Byte.x0e] |}.

(** A relayer state beside the message registry and the message log of
    [s]. *)
Definition withRelayer (s : State) (r : Relayer.State) : State :=
  {| relayer := r; processingMessage := processingMessage s;
     messageCalls := messageCalls s |}.

End Reconcile.

(** * Properties of the prover *)

Module ProverProofs.
Import Prover ProverSpec.

Lemma frame_ret {A : Type} (P : Call → bool) (a : A) : frame P (mret a).
Proof.
  intros s. exists a, s. repeat split; try done.
  exists []. by rewrite app_nil_r.
Qed.

Lemma frame_bind {A B : Type} (P : Call → bool) (m : M State A) (k : A → M State B) :
  frame P m → (∀ a, frame P (k a)) → frame P (m ≫= k).
Proof.
  intros Hm Hk s.
  destruct (Hm s) as (a & s1 & E1 & St1 & new1 & C1 & F1).
  destruct (Hk a s1) as (b & s2 & E2 & St2 & new2 & C2 & F2).
  exists b, s2. unfold mbind, M_bind. rewrite E1. split; [done|].
  split; [congruence|].
  exists (new1 ++ new2). rewrite C2, C1, app_assoc. split; [done|].
  rewrite forallb_app. by rewrite F1, F2.
Qed.

Lemma frame_log (P : Call → bool) (c : Call) : P c = true → frame P (log c).
Proof.
  intros Hc s. eexists _, _. split; [reflexivity|]. split; [done|].
  exists [c]. simpl. by rewrite Hc.
Qed.

Lemma frame_history (P : Call → bool) : frame P history.
Proof.
  intros s. exists (calls s), s. repeat split; try done.
  exists []. by rewrite app_nil_r.
Qed.

Lemma frame_weaken {A : Type} (P Q : Call → bool) (m : M State A) :
  (∀ c, P c = true → Q c = true) → frame P m → frame Q m.
Proof.
  intros HPQ Hm s.
  destruct (Hm s) as (a & s' & E & St & new & C & F).
  exists a, s'. repeat split; try done. exists new. split; [done|].
  rewrite forallb_forall in *. auto.
Qed.

Ltac frame_auto :=
  repeat first
    [ apply frame_ret
    | apply frame_history
    | apply frame_log; reflexivity
    | apply frame_bind; [ | intros ]
    | progress case_match ].

Section WithEnv.

Variable env : Env.

Lemma frame_fetchTraces blockHashes traces :
  frame isProveStep (fetchTraces env blockHashes traces).
Proof.
  revert traces. induction blockHashes as [|blockHash rest IH]; intros traces; simpl.
  - apply frame_ret.
  - frame_auto. apply IH.
Qed.

Lemma frame_getSortedTracesByHashes blockHashes :
  frame isProveStep (getSortedTracesByHashes env blockHashes).
Proof.
  unfold getSortedTracesByHashes.
  apply frame_bind; [apply frame_fetchTraces|]. intros. frame_auto.
Qed.

Lemma frame_proveChunk task : frame isProveStep (proveChunk env task).
Proof.
  unfold proveChunk. case_match; [|apply frame_ret].
  apply frame_bind; [apply frame_getSortedTracesByHashes|]. intros. frame_auto.
Qed.

Lemma frame_proveBatch task : frame isProveStep (proveBatch env task).
Proof. unfold proveBatch. frame_auto. Qed.

Lemma frame_prove task : frame isProveStep (prove env task).
Proof.
  unfold prove. case_match; try apply frame_ret.
  - apply frame_bind; [apply frame_proveChunk|]. intros. frame_auto.
  - apply frame_bind; [apply frame_proveBatch|]. intros. frame_auto.
Qed.

Lemma frame_signAndSubmitProof msg : frame isSubmitCall (signAndSubmitProof env msg).
Proof. unfold signAndSubmitProof. frame_auto. Qed.

(** [proveAndSubmit] on a task found in the queue, one step unfolded:
    the states in which the retry counter is written and in which
    proving and submission start. *)
Lemma proveAndSubmit_peeked s task :
  stack s = Some task →
  PeekFault env (calls s) = None →
  let id := ID (Task task) in
  let task' := {| Task := Task task; Times := Times task + 1 |} in
  let s0 := {| stack := Some task; calls := calls s ++ [CallPeek] |} in
  let sf := {| stack := Some task;
               calls := calls s ++ [CallPeek; CallUpdateTimes id (Times task + 1)] |} in
  let s1 := {| stack := Some task';
               calls := calls s ++ [CallPeek; CallUpdateTimes id (Times task + 1)] |} in
  proveAndSubmit env s =
    if decide (Times task ≤ 2) then
      match UpdateTimesFault env (calls s ++ [CallPeek]) with
      | Some e => (Done (Some e), sf)
      | None =>
          match prove env task' s1 with
          | (Done proofMsg, s2) =>
              defer_ (signAndSubmitProof env proofMsg) (λ _, deleteTask env id) s2
          | (Panicked msg, s2) => (Panicked msg, s2)
          end
      end
    else
      defer_ (signAndSubmitProof env (poisonedDetail task)) (λ _, deleteTask env id) s0.
Proof.
  intros Hq Hpeek. destruct s as [q cs]. simpl in *. subst q.
  unfold proveAndSubmit, Peek, UpdateTimes, mbind, M_bind, mret, M_ret, history,
    log, get_stack, set_stack. simpl.
  rewrite Hpeek. simpl.
  destruct (decide (Times task ≤ 2)) as [Hle|Hgt]; simpl; [|done].
  destruct (UpdateTimesFault env (cs ++ [CallPeek])) as [e|]; simpl.
  - by rewrite <- app_assoc.
  - rewrite <- app_assoc. simpl.
    destruct (prove env _ _) as [[proofMsg|msg] s2]; done.
Qed.

Lemma signAndSubmitProof_calls msg s :
  ∃ r s' sub,
    signAndSubmitProof env msg s = (Done r, s')
    ∧ stack s' = stack s
    ∧ calls s' = calls s ++ CallSign msg :: sub
    ∧ forallb (λ c, match c with CallSubmitProof _ => true | _ => false end) sub = true.
Proof.
  destruct s as [q cs].
  unfold signAndSubmitProof, mbind, M_bind, mret, M_ret, history, log. simpl.
  destruct (Sign env cs msg) as [e|signature]; simpl.
  { eexists _, _, []. repeat split; reflexivity. }
  destruct (MarshalProofs env _ _) as [e|proofJSON]; simpl.
  { eexists _, _, []. repeat split; reflexivity. }
  destruct (SubmitProof env _ _) as [e|resp]; simpl.
  { eexists _, _, [_]. rewrite <- app_assoc. repeat split; reflexivity. }
  destruct (decide (ErrCode resp ≠ 200)); simpl;
    eexists _, _, [_]; rewrite <- app_assoc; repeat split; reflexivity.
Qed.

(** Submission under the deferred deletion: the deletion is the last
    call, and the only call to the store. *)
Lemma defer_submit_delete msg s2 t :
  stack s2 = Some t →
  ∃ r s' sub,
    defer_ (signAndSubmitProof env msg) (λ _, deleteTask env (ID (Task t))) s2
      = (Done r, s')
    ∧ calls s' = calls s2 ++ CallSign msg :: sub ++ [CallDelete (ID (Task t))]
    ∧ forallb (λ c, match c with CallSubmitProof _ => true | _ => false end) sub = true
    ∧ stack s' =
        match DeleteFault env (calls s2 ++ CallSign msg :: sub) with
        | Some _ => Some t
        | None => None
        end.
Proof.
  intros Hq.
  destruct (signAndSubmitProof_calls msg s2) as (r & s3 & sub & E & St & C & F).
  unfold defer_. rewrite E.
  destruct s3 as [q3 cs3]. simpl in *. subst q3 cs3. rewrite Hq.
  unfold deleteTask, Delete, mbind, M_bind, mret, M_ret, history, log, get_stack,
    set_stack. simpl.
  destruct (DeleteFault env (calls s2 ++ CallSign msg :: sub)) as [e|] eqn:HD; simpl.
  - eexists r, _, sub. split; [reflexivity|]. simpl.
    rewrite <- app_assoc, HD. simpl. done.
  - rewrite decide_True by done. simpl.
    eexists r, _, sub. split; [reflexivity|]. simpl.
    rewrite <- app_assoc, HD. simpl. done.
Qed.

End WithEnv.

(** ** Counting calls *)

Lemma count_calls_app P l1 l2 :
  count_calls P (l1 ++ l2) = (count_calls P l1 + count_calls P l2)%nat.
Proof. unfold count_calls. by rewrite List.filter_app, length_app. Qed.

Lemma count_calls_none P Q l :
  (∀ c, Q c = true → P c = false) → forallb Q l = true → count_calls P l = 0%nat.
Proof.
  intros HQP. unfold count_calls. induction l as [|c l IH]; simpl; [done|].
  intros [Hc Hl]%andb_prop. rewrite (HQP c Hc). auto.
Qed.

Lemma signedDetails_app l1 l2 :
  signedDetails (l1 ++ l2) = signedDetails l1 ++ signedDetails l2.
Proof. apply omap_app. Qed.

Lemma signedDetails_none Q l :
  (∀ c, Q c = true → ∀ d, c ≠ CallSign d) → forallb Q l = true → signedDetails l = [].
Proof.
  intros HQ. induction l as [|c l IH]; simpl; [done|].
  intros [Hc Hl]%andb_prop. unfold signedDetails in *. simpl.
  rewrite (IH Hl). destruct c; try done. by destruct (HQ _ Hc detail).
Qed.

(** The shape of every run of [proveAndSubmit] that reaches an attempt
    on a task found in the queue. *)
Lemma proveAndSubmit_attempt env s task :
  stack s = Some task →
  PeekFault env (calls s) = None →
  (Times task ≤ 2 → UpdateTimesFault env (calls s ++ [CallPeek]) = None) →
  let id := ID (Task task) in
  let task' := {| Task := Task task; Times := Times task + 1 |} in
  let s1 := {| stack := Some task';
               calls := calls s ++ [CallPeek; CallUpdateTimes id (Times task + 1)] |} in
  ∃ d pre sub r s',
    proveAndSubmit env s = (Done r, s')
    ∧ calls s' = calls s ++ pre ++ CallSign d :: sub ++ [CallDelete id]
    ∧ forallb isSubmitProofCall sub = true
    ∧ (DeleteFault env (calls s ++ pre ++ CallSign d :: sub) = None → stack s' = None)
    ∧ (if decide (Times task ≤ 2)
       then ∃ s2 proving,
              prove env task' s1 = (Done d, s2)
              ∧ stack s2 = Some task'
              ∧ calls s2 = calls s ++ pre
              ∧ forallb isProveStep proving = true
              ∧ pre = [CallPeek; CallUpdateTimes id (Times task + 1)] ++ proving
       else d = poisonedDetail task ∧ pre = [CallPeek]).
Proof.
  intros Hq Hpeek Hupd id task' s1.
  rewrite (proveAndSubmit_peeked env s task Hq Hpeek).
  destruct (decide (Times task ≤ 2)) as [Hle|Hgt].
  - rewrite (Hupd Hle).
    destruct (frame_prove env task' s1) as (d & s2 & E & St & proving & C & F).
    fold id task' s1. rewrite E.
    destruct (defer_submit_delete env d s2 task' St) as (r & s' & sub & E' & C' & F' & St').
    exists d, ([CallPeek; CallUpdateTimes id (Times task + 1)] ++ proving), sub, r, s'.
    split; [exact E'|]. rewrite C', C. simpl.
    split; [by rewrite <- !app_assoc|]. split; [done|]. split.
    + intros HD. rewrite St'. rewrite C. simpl.
      rewrite <- !app_assoc in *. simpl in *. by rewrite HD.
    + exists s2, proving. rewrite C. simpl. by rewrite <- !app_assoc.
  - edestruct (defer_submit_delete env (poisonedDetail task)
                 {| stack := Some task; calls := calls s ++ [CallPeek] |} task)
      as (r & s' & sub & E' & C' & F' & St'); [done|].
    exists (poisonedDetail task), [CallPeek], sub, r, s'.
    split; [exact E'|]. rewrite C'. simpl.
    split; [by rewrite <- !app_assoc|]. split; [done|]. split; [|done].
    intros HD. rewrite St'. simpl. rewrite <- !app_assoc in *. simpl in *. by rewrite HD.
Qed.

(** Every attempt is on a task found in the queue: when [Peek] yields no
    task, [proveAndSubmit] ends, with an error or a panic, without a
    write to the queue, a call to the proof engine or a submission. *)
Lemma proveAndSubmit_no_task env s :
  stack s = None ∨ is_Some (PeekFault env (calls s)) →
  ∃ o s' new,
    proveAndSubmit env s = (o, s')
    ∧ o ≠ Done None
    ∧ stack s' = stack s
    ∧ calls s' = calls s ++ new
    ∧ forallb isAcquireCall new = true.
Proof.
  intros Hno. destruct s as [q cs]. simpl in *.
  unfold proveAndSubmit, Peek, fetchTaskFromServer, set_BlockHashes, set_ChunkProofs,
    Sleep, panic, mbind, M_bind, mret, M_ret, history, log, get_stack. simpl.
  destruct (PeekFault env cs) as [e|] eqn:Hpeek; simpl.
  - destruct (decide (e ≠ ErrEmpty)); simpl;
      repeat (case_match; simplify_eq; simpl);
      eexists _, _, _; (split; [reflexivity|]); simpl;
      rewrite <- ?app_assoc; simpl; done.
  - destruct Hno as [->|[? ?]]; [|done]. simpl.
    repeat (case_match; simplify_eq; simpl);
      eexists _, _, _; (split; [reflexivity|]); simpl;
      rewrite <- ?app_assoc; simpl; done.
Qed.

(** A run of the embedding: a chunk task with three block hashes, out of
    order by height, is found in the queue with retry counter 0. *)
Example proveAndSubmit_run :
  proveAndSubmit (ProverExamples.exampleEnv ProofTypeChunk None)
    (ProverExamples.queued (ProverExamples.exampleTask 0))
  = (Done None,
     {| stack := None;
        calls :=
          [CallPeek; CallUpdateTimes "task-1" 1;
           CallGetBlockTraceByHash "0xccc"; CallGetBlockTraceByHash "0xa";
           CallGetBlockTraceByHash "0xbb";
           CallProveChunk "task-1"
             [{| Header := {| Number := 3 |}; body := "0xa" |};
              {| Header := {| Number := 4 |}; body := "0xbb" |};
              {| Header := {| Number := 5 |}; body := "0xccc" |}];
           CallSign
             {| ProofDetail_ID := "task-1";
                ProofDetail_Type := ProofTypeChunk;
                ProofDetail_Status := StatusOk;
                ProofDetail_ChunkProof := Some (mkChunkProof "chunk-proof");
                ProofDetail_BatchProof := None;
                ProofDetail_Error := "" |};
           CallSubmitProof
             {| SubmitProofRequest_TaskID := "task-1";
                SubmitProofRequest_Status := StatusOk;
                SubmitProofRequest_Error := "";
                SubmitProofRequest_ProofType := 1;
                Signature := "signature";
                Proof_ := "{}" |};
           CallDelete "task-1"] |}).
Proof. vm_compute. reflexivity. Qed.

(** ** Retry bookkeeping and deletion *)

(** C3, as the code has it. For every task found in the queue by
    [proveAndSubmit]: when the retry counter is written successfully, or
    is not written because the task is over its retry budget, exactly
    one [Delete] of the task is issued, as the last call before the
    function returns, whatever proving and submission answer, and the
    task is gone from the queue when that [Delete] succeeds; when the
    write of the retry counter fails, the function returns that error
    without any [Delete] and the task stays in the queue. *)
Theorem C3_deleted_once_after_attempt env s task :
  stack s = Some task →
  PeekFault env (calls s) = None →
  ∃ r s' new,
    proveAndSubmit env s = (Done r, s')
    ∧ calls s' = calls s ++ new
    ∧ match (if decide (Times task ≤ 2)
             then UpdateTimesFault env (calls s ++ [CallPeek]) else None) with
      | Some e =>
          r = Some e ∧ count_calls isDeleteCall new = 0%nat ∧ stack s' = Some task
      | None =>
          ∃ mid,
            new = mid ++ [CallDelete (ID (Task task))]
            ∧ count_calls isDeleteCall mid = 0%nat
            ∧ count_calls isDeleteCall new = 1%nat
            ∧ (DeleteFault env (calls s ++ mid) = None → stack s' = None)
      end.
Proof.
  intros Hq Hpeek.
  destruct (decide (Times task ≤ 2)) as [Hle|Hgt];
    [destruct (UpdateTimesFault env (calls s ++ [CallPeek])) as [e|] eqn:Hupd|].
  - rewrite (proveAndSubmit_peeked env s task Hq Hpeek).
    rewrite decide_True by done. rewrite Hupd.
    eexists _, _, _. split; [reflexivity|]. simpl. split; [reflexivity|]. done.
  - destruct (proveAndSubmit_attempt env s task Hq Hpeek)
      as (d & pre & sub & r & s' & E & C & F & St & Hpre); [done|].
    rewrite decide_True in Hpre by done.
    destruct Hpre as (s2 & proving & Ep & Stp & Cp & Fp & ->).
    exists r, s', (([CallPeek; CallUpdateTimes (ID (Task task)) (Times task + 1)]
                     ++ proving) ++ CallSign d :: sub ++ [CallDelete (ID (Task task))]).
    split; [done|]. split; [done|].
    exists (([CallPeek; CallUpdateTimes (ID (Task task)) (Times task + 1)] ++ proving)
            ++ CallSign d :: sub).
    assert (count_calls isDeleteCall
              (([CallPeek; CallUpdateTimes (ID (Task task)) (Times task + 1)] ++ proving)
               ++ CallSign d :: sub) = 0%nat) as Hmid.
    { rewrite !count_calls_app.
      rewrite (count_calls_none isDeleteCall isProveStep proving); [|by intros []|done].
      change (CallSign d :: sub) with ([CallSign d] ++ sub). rewrite count_calls_app.
      rewrite (count_calls_none isDeleteCall isSubmitProofCall sub); [|by intros []|done].
      reflexivity. }
    split; [by rewrite <- !app_assoc|]. split; [done|]. split; [|done].
    change (CallSign d :: sub ++ [CallDelete (ID (Task task))])
      with ((CallSign d :: sub) ++ [CallDelete (ID (Task task))]).
    rewrite app_assoc, count_calls_app, Hmid. reflexivity.
  - destruct (proveAndSubmit_attempt env s task Hq Hpeek)
      as (d & pre & sub & r & s' & E & C & F & St & Hpre); [done|].
    rewrite decide_False in Hpre by done. destruct Hpre as [-> ->].
    exists r, s', ([CallPeek] ++ CallSign (poisonedDetail task) :: sub
                   ++ [CallDelete (ID (Task task))]).
    split; [done|]. split; [done|].
    exists ([CallPeek] ++ CallSign (poisonedDetail task) :: sub).
    assert (count_calls isDeleteCall ([CallPeek] ++ CallSign (poisonedDetail task) :: sub)
            = 0%nat) as Hmid.
    { change (CallSign (poisonedDetail task) :: sub)
        with ([CallSign (poisonedDetail task)] ++ sub).
      rewrite !count_calls_app.
      rewrite (count_calls_none isDeleteCall isSubmitProofCall sub); [|by intros []|done].
      reflexivity. }
    split; [by rewrite <- !app_assoc|]. split; [done|]. split; [|done].
    change (CallSign (poisonedDetail task) :: sub ++ [CallDelete (ID (Task task))])
      with ((CallSign (poisonedDetail task) :: sub) ++ [CallDelete (ID (Task task))]).
    rewrite app_assoc, count_calls_app, Hmid. reflexivity.
Qed.

Lemma C3_witness :
  ∃ r s' new,
    proveAndSubmit (ProverExamples.exampleEnv ProofTypeChunk None)
      (ProverExamples.queued (ProverExamples.exampleTask 1)) = (Done r, s')
    ∧ calls s' = [] ++ new
    ∧ ∃ mid,
        new = mid ++ [CallDelete "task-1"]
        ∧ count_calls isDeleteCall mid = 0%nat
        ∧ count_calls isDeleteCall new = 1%nat
        ∧ (DeleteFault (ProverExamples.exampleEnv ProofTypeChunk None) ([] ++ mid) = None →
           stack s' = None).
Proof.
  apply (C3_deleted_once_after_attempt (ProverExamples.exampleEnv ProofTypeChunk None)
           (ProverExamples.queued (ProverExamples.exampleTask 1))
           (ProverExamples.exampleTask 1)); reflexivity.
Defined.

(** C3, as stated, fails: a task is in the queue, the write of its
    retry counter fails, and [proveAndSubmit] returns without a single
    [Delete]; the task is still in the queue. *)
Lemma C3_counterexample :
  stack (ProverExamples.queued (ProverExamples.exampleTask 0))
    = Some (ProverExamples.exampleTask 0)
  ∧ proveAndSubmit ProverExamples.failingStoreEnv
      (ProverExamples.queued (ProverExamples.exampleTask 0))
    = (Done (Some ProverExamples.storeDown),
       {| stack := Some (ProverExamples.exampleTask 0);
          calls := [CallPeek; CallUpdateTimes "task-1" 1] |})
  ∧ count_calls isDeleteCall [CallPeek; CallUpdateTimes "task-1" 1] ≠ 1%nat.
Proof. split; [reflexivity|]. split; [vm_compute; reflexivity|]. vm_compute. lia. Qed.



(** C5. For every task with a retry counter above 2 found in the queue,
    [proveAndSubmit] makes no call to the proof engine (nor fetches any
    trace), and the one detail it hands to submission has status
    [StatusProofError], the fixed error message, the identifier of the
    task and its type, and no proof. *)
Theorem C5_poisoned_task_not_proved env s task :
  stack s = Some task →
  PeekFault env (calls s) = None →
  2 < Times task →
  ∃ r s' d sub,
    proveAndSubmit env s = (Done r, s')
    ∧ calls s' = calls s ++ [CallPeek; CallSign d] ++ sub ++ [CallDelete (ID (Task task))]
    ∧ forallb isSubmitProofCall sub = true
    ∧ count_calls isProveStep
        ([CallPeek; CallSign d] ++ sub ++ [CallDelete (ID (Task task))]) = 0%nat
    ∧ ProofDetail_Status d = StatusProofError
    ∧ ProofDetail_Error d = "zk proving panic"
    ∧ ProofDetail_ID d = ID (Task task)
    ∧ ProofDetail_Type d = Type_ (Task task)
    ∧ ProofDetail_ChunkProof d = None
    ∧ ProofDetail_BatchProof d = None.
Proof.
  intros Hq Hpeek Hgt.
  destruct (proveAndSubmit_attempt env s task Hq Hpeek)
    as (d & pre & sub & r & s' & E & C & F & St & Hpre); [lia|].
  rewrite decide_False in Hpre by lia. destruct Hpre as [-> ->].
  exists r, s', (poisonedDetail task), sub.
  split; [done|]. split; [done|]. split; [done|]. split; [|done].
  rewrite !count_calls_app.
  rewrite (count_calls_none isProveStep isSubmitProofCall sub); [|by intros []|done].
  reflexivity.
Qed.

Lemma C5_witness :
  ∃ r s' d sub,
    proveAndSubmit (ProverExamples.exampleEnv ProofTypeChunk None)
      (ProverExamples.queued (ProverExamples.exampleTask 3)) = (Done r, s')
    ∧ calls s' = [] ++ [CallPeek; CallSign d] ++ sub ++ [CallDelete "task-1"]
    ∧ forallb isSubmitProofCall sub = true
    ∧ count_calls isProveStep ([CallPeek; CallSign d] ++ sub ++ [CallDelete "task-1"])
      = 0%nat
    ∧ ProofDetail_Status d = StatusProofError
    ∧ ProofDetail_Error d = "zk proving panic"
    ∧ ProofDetail_ID d = "task-1"
    ∧ ProofDetail_Type d = ProofTypeChunk
    ∧ ProofDetail_ChunkProof d = None
    ∧ ProofDetail_BatchProof d = None.
Proof.
  apply (C5_poisoned_task_not_proved (ProverExamples.exampleEnv ProofTypeChunk None)
           (ProverExamples.queued (ProverExamples.exampleTask 3))
           (ProverExamples.exampleTask 3)); [reflexivity|reflexivity|simpl; lia].
Defined.

(** ** The proof carried by a detail *)

Lemma prove_detail env task s :
  ∃ d s',
    prove env task s = (Done d, s')
    ∧ ProofDetail_ID d = ID (Task task)
    ∧ ProofDetail_Type d = Type_ (Task task)
    ∧ match ProofDetail_Status d with
      | StatusProofError => unpopulated d = true
      | StatusOk =>
          match cfg_ProofType env with
          | ProofTypeChunk =>
              is_Some (ProofDetail_ChunkProof d) ∧ ProofDetail_BatchProof d = None
          | ProofTypeBatch =>
              ProofDetail_ChunkProof d = None ∧ is_Some (ProofDetail_BatchProof d)
          | _ => unpopulated d = true
          end
      end.
Proof.
  unfold prove, Prover_Type.
  destruct (cfg_ProofType env);
    try (eexists _, _; split; [reflexivity|]; simpl; done).
  - destruct (frame_proveChunk env task s) as ([e|proof] & s' & E & _).
    + eexists _, _. unfold mbind, M_bind. rewrite E. split; [reflexivity|]. done.
    + eexists _, _. unfold mbind, M_bind. rewrite E. split; [reflexivity|].
      simpl. eauto.
  - destruct (frame_proveBatch env task s) as ([e|proof] & s' & E & _).
    + eexists _, _. unfold mbind, M_bind. rewrite E. split; [reflexivity|]. done.
    + eexists _, _. unfold mbind, M_bind. rewrite E. split; [reflexivity|].
      simpl. eauto.
Qed.

(** C9, as the code has it. Every detail [proveAndSubmit] produces for
    a task found in the queue, whose type is the Chunk or Batch type the
    prover is configured for, carries the identifier and the type of the
    task and at most one proof: with status [StatusOk] exactly one, the
    one of its proof type; with status [StatusProofError] (a failed
    proving attempt, or a task over its retry budget) none.  One detail
    is produced per attempt, and none when the write of the retry
    counter fails. *)
Theorem C9_detail_population env s task :
  stack s = Some task →
  PeekFault env (calls s) = None →
  cfg_ProofType env = Type_ (Task task) →
  Type_ (Task task) = ProofTypeChunk ∨ Type_ (Task task) = ProofTypeBatch →
  ∃ r s' new,
    proveAndSubmit env s = (Done r, s')
    ∧ calls s' = calls s ++ new
    ∧ match (if decide (Times task ≤ 2)
             then UpdateTimesFault env (calls s ++ [CallPeek]) else None) with
      | Some _ => signedDetails new = []
      | None =>
          ∃ d,
            signedDetails new = [d]
            ∧ ProofDetail_ID d = ID (Task task)
            ∧ ProofDetail_Type d = Type_ (Task task)
            ∧ match ProofDetail_Status d with
              | StatusOk => populatedAsTyped d = true
              | StatusProofError => unpopulated d = true
              end
      end.
Proof.
  intros Hq Hpeek Hcfg Hty.
  assert (∀ d pre sub,
            signedDetails pre = [] → forallb isSubmitProofCall sub = true →
            signedDetails (pre ++ CallSign d :: sub ++ [CallDelete (ID (Task task))]) = [d])
    as Hsigned.
  { intros d pre sub Hpre Hsub.
    change (CallSign d :: sub ++ [CallDelete (ID (Task task))])
      with ([CallSign d] ++ sub ++ [CallDelete (ID (Task task))]).
    rewrite !signedDetails_app, Hpre.
    rewrite (signedDetails_none isSubmitProofCall sub); [done| |done].
    by intros []. }
  destruct (decide (Times task ≤ 2)) as [Hle|Hgt];
    [destruct (UpdateTimesFault env (calls s ++ [CallPeek])) as [e|] eqn:Hupd|].
  - rewrite (proveAndSubmit_peeked env s task Hq Hpeek).
    rewrite decide_True by done. rewrite Hupd.
    eexists _, _, _. split; [reflexivity|]. simpl. split; [reflexivity|]. done.
  - destruct (proveAndSubmit_attempt env s task Hq Hpeek)
      as (d & pre & sub & r & s' & E & C & F & St & Hpre); [done|].
    rewrite decide_True in Hpre by done.
    destruct Hpre as (s2 & proving & Ep & Stp & Cp & Fp & ->).
    eexists r, s', _. split; [done|]. split; [exact C|].
    exists d. split.
    { apply Hsigned; [|done]. rewrite signedDetails_app.
      rewrite (signedDetails_none isProveStep proving); [done| |done]. by intros []. }
    destruct (prove_detail env {| Task := Task task; Times := Times task + 1 |}
                {| stack := Some {| Task := Task task; Times := Times task + 1 |};
                   calls := calls s ++ [CallPeek;
                              CallUpdateTimes (ID (Task task)) (Times task + 1)] |})
      as (d' & s2' & E2 & Hid & Htype & Hpop).
    rewrite Ep in E2. injection E2 as <- <-. simpl in *.
    split; [done|]. split; [done|].
    destruct (ProofDetail_Status d); [|done].
    unfold populatedAsTyped. rewrite Htype.
    rewrite Hcfg in Hpop.
    destruct Hty as [Hty|Hty]; rewrite Hty in *.
    + destruct Hpop as [[p ->] ->]. done.
    + destruct Hpop as [-> [p ->]]. done.
  - destruct (proveAndSubmit_attempt env s task Hq Hpeek)
      as (d & pre & sub & r & s' & E & C & F & St & Hpre); [done|].
    rewrite decide_False in Hpre by done. destruct Hpre as [-> ->].
    eexists r, s', _. split; [done|]. split; [exact C|].
    exists (poisonedDetail task). split; [by apply Hsigned|]. done.
Qed.

Lemma C9_witness :
  ∃ r s' new,
    proveAndSubmit (ProverExamples.exampleEnv ProofTypeChunk None)
      (ProverExamples.queued (ProverExamples.exampleTask 0)) = (Done r, s')
    ∧ calls s' = [] ++ new
    ∧ ∃ d,
        signedDetails new = [d]
        ∧ ProofDetail_ID d = "task-1"
        ∧ ProofDetail_Type d = ProofTypeChunk
        ∧ match ProofDetail_Status d with
          | StatusOk => populatedAsTyped d = true
          | StatusProofError => unpopulated d = true
          end.
Proof.
  apply (C9_detail_population (ProverExamples.exampleEnv ProofTypeChunk None)
           (ProverExamples.queued (ProverExamples.exampleTask 0))
           (ProverExamples.exampleTask 0)); [reflexivity|reflexivity|reflexivity|].
  left. reflexivity.
Defined.

(** C9, as stated, fails: a task over its retry budget yields a detail
    of type Chunk with neither proof, and so does a task whose proving
    fails. *)
Lemma C9_counterexample :
  proveAndSubmit (ProverExamples.exampleEnv ProofTypeChunk None)
    (ProverExamples.queued (ProverExamples.exampleTask 3))
  = (Done None,
     {| stack := None;
        calls := [CallPeek;
                  CallSign (poisonedDetail (ProverExamples.exampleTask 3));
                  CallSubmitProof
                    {| SubmitProofRequest_TaskID := "task-1";
                       SubmitProofRequest_Status := StatusProofError;
                       SubmitProofRequest_Error := "zk proving panic";
                       SubmitProofRequest_ProofType := 1;
                       Signature := "signature";
                       Proof_ := "{}" |};
                  CallDelete "task-1"] |})
  ∧ ProofDetail_Type (poisonedDetail (ProverExamples.exampleTask 3)) = ProofTypeChunk
  ∧ ProofDetail_ChunkProof (poisonedDetail (ProverExamples.exampleTask 3)) = None
  ∧ ProofDetail_BatchProof (poisonedDetail (ProverExamples.exampleTask 3)) = None
  ∧ populatedAsTyped (poisonedDetail (ProverExamples.exampleTask 3)) = false
  ∧ (∃ d s',
       prove (ProverExamples.exampleEnv ProofTypeChunk None)
         (ProverExamples.emptyTask 1)
         (ProverExamples.queued (ProverExamples.emptyTask 1)) = (Done d, s')
       ∧ ProofDetail_Status d = StatusProofError
       ∧ populatedAsTyped d = false).
Proof.
  split; [vm_compute; reflexivity|]. repeat (split; [reflexivity|]).
  eexists _, _. split; [vm_compute; reflexivity|]. split; reflexivity.
Qed.

(** ** Sorting *)

Lemma BigInt_Int64_fits (x : Z) : - 2 ^ 63 ≤ x < 2 ^ 63 → BigInt_Int64 x = x.
Proof.
  intros Hx. unfold BigInt_Int64, to_int64.
  assert (Z.sgn x * (Z.abs x `mod` 2 ^ 64) = x) as ->.
  { rewrite Z.mod_small by lia. lia. }
  rewrite Z.mod_small; lia.
Qed.

Section InsertionSort.

Variable less : BlockTrace → BlockTrace → bool.
Hypothesis less_negtrans :
  ∀ x y z, less x y = false → less y z = false → less x z = false.
Hypothesis less_asym : ∀ x y, less x y = true → less y x = false.

Lemma insert_sorted_perm x l : insert_sorted less x l ≡ₚ x :: l.
Proof.
  induction l as [|y l IH]; simpl; [done|].
  destruct (less x y); [done|].
  rewrite IH. apply Permutation_swap.
Qed.

Lemma insert_sorted_sorted x l :
  StronglySorted (λ a b, less b a = false) l →
  StronglySorted (λ a b, less b a = false) (insert_sorted less x l).
Proof.
  induction l as [|y l IH]; simpl; intros Hs.
  - repeat constructor.
  - apply StronglySorted_inv in Hs as [Hl Hy].
    destruct (less x y) eqn:Hxy.
    + constructor; [by constructor|].
      constructor; [by apply less_asym|].
      eapply Forall_impl; [exact Hy|]. simpl. intros z Hz.
      eapply less_negtrans; [exact Hz|]. by apply less_asym.
    + constructor; [by apply IH|].
      rewrite insert_sorted_perm. by constructor.
Qed.

Lemma insertion_sort_perm l : insertion_sort less l ≡ₚ l.
Proof.
  induction l as [|x l IH]; simpl; [done|].
  rewrite insert_sorted_perm. by rewrite IH.
Qed.

Lemma insertion_sort_sorted l :
  StronglySorted (λ a b, less b a = false) (insertion_sort less l).
Proof.
  induction l as [|x l IH]; simpl; [constructor|].
  by apply insert_sorted_sorted.
Qed.

End InsertionSort.

Lemma insertion_sort_contract : sortSlice_contract insertion_sort.
Proof.
  intros less l Hnt Has. split.
  - apply insertion_sort_perm.
  - by apply insertion_sort_sorted.
Qed.

Lemma lessByNumber_negtrans x y z :
  lessByNumber x y = false → lessByNumber y z = false → lessByNumber x z = false.
Proof.
  unfold lessByNumber. rewrite !bool_decide_eq_false. lia.
Qed.

Lemma lessByNumber_asym x y : lessByNumber x y = true → lessByNumber y x = false.
Proof.
  unfold lessByNumber. rewrite bool_decide_eq_true, bool_decide_eq_false. lia.
Qed.

Lemma StronglySorted_weaken {A : Type} (R R' : A → A → Prop) (l : list A) :
  (∀ a b, a ∈ l → b ∈ l → R a b → R' a b) →
  StronglySorted R l → StronglySorted R' l.
Proof.
  intros HR Hs. induction Hs as [|a l Hl IH Ha]; [constructor|].
  constructor.
  - apply IH. intros x y Hx Hy. apply HR; by right.
  - rewrite Forall_forall in *. intros b Hb. apply HR; [by left|by right|auto].
Qed.

Lemma fetchTraces_ok env blockHashes :
  ∀ traces s,
    (∀ h x, x ∈ blockHashes → ∃ t, GetBlockTraceByHash env h x = inr t) →
    ∃ fetched s',
      fetchTraces env blockHashes traces s = (Done (inr (traces ++ fetched)), s')
      ∧ stack s' = stack s
      ∧ calls s' = calls s ++ map CallGetBlockTraceByHash blockHashes
      ∧ Forall2 (λ x t, ∃ h, GetBlockTraceByHash env h x = inr t) blockHashes fetched.
Proof.
  induction blockHashes as [|x rest IH]; intros traces s Hok; simpl.
  - exists [], s. rewrite !app_nil_r. repeat split; constructor.
  - unfold mbind, M_bind, history, log. simpl.
    destruct (Hok (calls s) x) as [t Ht]; [by left|]. rewrite Ht.
    edestruct (IH (traces ++ [t])) as (fetched & s' & E & St & C & F).
    { intros h y Hy. apply Hok. by right. }
    exists (t :: fetched), s'. rewrite E, <- app_assoc. simpl.
    split; [done|]. split; [done|]. split.
    + rewrite C. simpl. by rewrite <- app_assoc.
    + constructor; [eauto|done].
Qed.

(** C8. For any list of block hashes whose traces the chain endpoint
    delivers, [proveChunk] fetches one trace per input hash, in input
    order, and the list it hands to the chunk proof engine is a
    rearrangement of the fetched traces in ascending order of the block
    height [Header.Number.Int64()], which is the header number whenever
    that fits 64 bits. *)
Theorem C8_traces_sorted_for_engine env task detail s :
  sortSlice_contract (sortSlice env) →
  TaskMsg_ChunkTaskDetail (Task task) = Some detail →
  (∀ h x, x ∈ BlockHashes detail → ∃ t, GetBlockTraceByHash env h x = inr t) →
  ∃ fetched traces s',
    proveChunk env task s
      = (Done (ProveChunk env
                 (calls s ++ map CallGetBlockTraceByHash (BlockHashes detail))
                 (ID (Task task)) traces), s')
    ∧ calls s' = calls s ++ map CallGetBlockTraceByHash (BlockHashes detail)
                   ++ [CallProveChunk (ID (Task task)) traces]
    ∧ Forall2 (λ x t, ∃ h, GetBlockTraceByHash env h x = inr t)
        (BlockHashes detail) fetched
    ∧ traces ≡ₚ fetched
    ∧ length traces = length (BlockHashes detail)
    ∧ StronglySorted (λ a b, height a ≤ height b) traces
    ∧ (Forall (λ t, - 2 ^ 63 ≤ Number (Header t) < 2 ^ 63) fetched →
       StronglySorted (λ a b, Number (Header a) ≤ Number (Header b)) traces).
Proof.
  intros Hsort Hdetail Hok.
  destruct (fetchTraces_ok env (BlockHashes detail) [] s Hok)
    as (fetched & s1 & E & St & C & F).
  destruct (Hsort lessByNumber fetched lessByNumber_negtrans lessByNumber_asym)
    as [Hperm Hsorted].
  exists fetched, (sortSlice env lessByNumber fetched).
  unfold proveChunk. rewrite Hdetail.
  unfold getSortedTracesByHashes, mbind, M_bind, mret, M_ret, history, log.
  rewrite E. simpl. rewrite C. eexists. split; [reflexivity|]. simpl.
  assert (StronglySorted (λ a b, height a ≤ height b)
            (sortSlice env lessByNumber fetched)) as Hheight.
  { eapply StronglySorted_weaken; [|exact Hsorted].
    intros a b _ _. unfold lessByNumber, height. rewrite bool_decide_eq_false. lia. }
  split; [by rewrite <- app_assoc|]. split; [done|]. split; [done|].
  split; [by rewrite Hperm, <- (Forall2_length _ _ _ F)|].
  split; [done|].
  intros Hfit.
  assert (Forall (λ t, - 2 ^ 63 ≤ Number (Header t) < 2 ^ 63)
            (sortSlice env lessByNumber fetched)) as Hfit'.
  { by rewrite Hperm. }
  eapply StronglySorted_weaken; [|exact Hheight].
  rewrite Forall_forall in Hfit'.
  intros a b Ha Hb. unfold height.
  rewrite !BigInt_Int64_fits by auto. done.
Qed.

Lemma C8_witness :
  ∃ fetched traces s',
    proveChunk (ProverExamples.exampleEnv ProofTypeChunk None)
      (ProverExamples.exampleTask 0) (ProverExamples.queued (ProverExamples.exampleTask 0))
      = (Done (inr (mkChunkProof "chunk-proof")), s')
    ∧ calls s' = [CallGetBlockTraceByHash "0xccc"; CallGetBlockTraceByHash "0xa";
                  CallGetBlockTraceByHash "0xbb"; CallProveChunk "task-1" traces]
    ∧ Forall2 (λ x t, ∃ h, GetBlockTraceByHash
                             (ProverExamples.exampleEnv ProofTypeChunk None) h x = inr t)
        ["0xccc"; "0xa"; "0xbb"] fetched
    ∧ traces ≡ₚ fetched
    ∧ length traces = 3%nat
    ∧ StronglySorted (λ a b, height a ≤ height b) traces
    ∧ (Forall (λ t, - 2 ^ 63 ≤ Number (Header t) < 2 ^ 63) fetched →
       StronglySorted (λ a b, Number (Header a) ≤ Number (Header b)) traces).
Proof.
  apply (C8_traces_sorted_for_engine
           (ProverExamples.exampleEnv ProofTypeChunk None)
           (ProverExamples.exampleTask 0) ProverExamples.exampleDetail
           (ProverExamples.queued (ProverExamples.exampleTask 0))).
  - exact insertion_sort_contract.
  - reflexivity.
  - intros h x _. eexists. reflexivity.
Defined.

End ProverProofs.

(** * Properties of the relayer *)

Module RelayerProofs.
Import Relayer RelayerSpec.

Ltac run :=
  unfold ProcessCommittedBatches, finalizeVerified, submitFinalize, finalizeGuard,
    ProcessGasPriceOracle, SendCommitTx,
    db_UpdateRollupStatus, db_UpdateCommitTxHashAndRollupStatus,
    db_UpdateFinalizeTxHashAndRollupStatus, db_UpdateL2GasOracleStatusAndOracleTxHash,
    db_UpdateSkippedBatches, run_UpdateSkippedBatches, db_GetLatestBatch,
    db_GetCommittedBatches, db_GetBlockBatches, db_GetLatestFinalizingOrFinalizedBatch,
    db_GetVerifiedProofAndInstanceCommitmentsByHash, l2Client_SuggestGasPrice,
    Sender_SendTransaction, dbUpdate, Inc, log, history, modify_db,
    processingBatchesCommitment_Store, processingFinalization_Store,
    get_lastGasPrice, set_lastGasPrice, defer_, panic, mbind, M_bind, mret, M_ret;
  simpl.

(** The log of a finished run, as an extension of the log it started
    from. *)
Ltac extends :=
  repeat rewrite <- app_assoc; simpl;
  eexists; split; [reflexivity|].

(** C6. Whatever the database and the senders answer, an invocation of
    [ProcessCommittedBatches] that reads a batch whose proving status is
    not [ProvingTaskVerified] returns without a single [SendTransaction]
    call, and leaves the registries of pending transactions as they
    were. *)
Theorem C6_no_finalize_unless_verified env s :
  (∀ h hash batch rest,
      GetBlockBatches env h hash = inr (batch :: rest) →
      ProvingStatus_ batch ≠ ProvingTaskVerified) →
  ∃ s' new,
    ProcessCommittedBatches env s = (Done (), s')
    ∧ calls s' = calls s ++ new
    ∧ count_calls isSendCall new = 0%nat
    ∧ sameMemory s s'.
Proof.
  intros Hstatus. unfold not in Hstatus.
  destruct s as [table last commits finals cs]. run.
  destruct (UpdateSkippedBatches env cs table) as [swept table'] eqn:Hsweep. simpl.
  repeat (case_match; simplify_eq; simpl;
          try (exfalso; eapply Hstatus; eauto; fail));
    eexists _, _; (split; [reflexivity|]); simpl;
    repeat rewrite <- app_assoc; simpl;
    (split; [reflexivity|]); split; done.
Qed.

Lemma C6_witness :
  ∃ s' new,
    ProcessCommittedBatches
      (RelayerExamples.exampleEnv ProvingTaskProved (inl RelayerExamples.noRows)
         (None, None) (inr RelayerExamples.txHash) 50000)
      (RelayerExamples.exampleState 0) = (Done (), s')
    ∧ calls s' = [] ++ new
    ∧ count_calls isSendCall new = 0%nat
    ∧ sameMemory (RelayerExamples.exampleState 0) s'.
Proof.
  apply (C6_no_finalize_unless_verified
           (RelayerExamples.exampleEnv ProvingTaskProved (inl RelayerExamples.noRows)
              (None, None) (inr RelayerExamples.txHash) 50000)
           (RelayerExamples.exampleState 0)).
  intros h hash batch rest Hbatch. simpl in Hbatch.
  injection Hbatch as <- _. simpl. discriminate.
Defined.

(** ** The [Verified] case *)

(** With a committed batch of proving status [ProvingTaskVerified] at
    hand, [ProcessCommittedBatches] is its [Verified] case, entered
    after the sweep and the two reads. *)
Lemma ProcessCommittedBatches_verified env s hash tl batch rest :
  (∀ h, GetCommittedBatches env h 1 = inr (hash :: tl)) →
  (∀ h, GetBlockBatches env h hash = inr (batch :: rest)) →
  ProvingStatus_ batch = ProvingTaskVerified →
  ∃ pre,
    forallb isQuiet pre = true
    ∧ ProcessCommittedBatches env s
      = finalizeVerified env hash batch
          {| db := (UpdateSkippedBatches env (calls s) (db s)).2;
             lastGasPrice := lastGasPrice s;
             processingBatchesCommitment := processingBatchesCommitment s;
             processingFinalization := processingFinalization s;
             calls := calls s ++ pre |}.
Proof.
  intros HC HB Hst. destruct s as [table last commits finals cs].
  unfold ProcessCommittedBatches, db_UpdateSkippedBatches, run_UpdateSkippedBatches,
    db_GetCommittedBatches, db_GetBlockBatches, Inc, log, history,
    mbind, M_bind, mret, M_ret. simpl.
  destruct (UpdateSkippedBatches env cs table) as [[e|count] table'] eqn:Hsweep; simpl.
  - rewrite HC. simpl. rewrite HB. simpl. rewrite Hst.
    exists [CallUpdateSkippedBatches; CallGetCommittedBatches 1; CallGetBlockBatches hash].
    split; [done|]. by rewrite <- !app_assoc.
  - destruct (decide (0 < count)); simpl.
    + rewrite HC. simpl. rewrite HB. simpl. rewrite Hst.
      exists [CallUpdateSkippedBatches; CallInc bridgeL2BatchesSkippedTotalCounter count;
              CallGetCommittedBatches 1; CallGetBlockBatches hash].
      split; [done|]. by rewrite <- !app_assoc.
    + rewrite HC. simpl. rewrite HB. simpl. rewrite Hst.
      exists [CallUpdateSkippedBatches; CallGetCommittedBatches 1; CallGetBlockBatches hash].
      split; [done|]. by rewrite <- !app_assoc.
Qed.


(** Rejected buffers: the deferred guard marks the batch and nothing is
    sent. *)
Lemma finalizeVerified_rejected env hash batch p i s :
  proceedsToFinalize env batch (GetLatestFinalizingOrFinalizedBatch env (calls s)) →
  GetVerifiedProofAndInstanceCommitmentsByHash env
    (calls s ++ [CallGetLatestFinalizingOrFinalizedBatch]) hash = inr (p, i) →
  buffersRejected p i = true →
  ∃ s',
    finalizeVerified env hash batch s = (Done (), s')
    ∧ calls s' = calls s ++ [CallGetLatestFinalizingOrFinalizedBatch;
                             CallGetVerifiedProofAndInstanceCommitmentsByHash hash;
                             CallUpdateRollupStatus hash RollupFinalizationSkipped]
    ∧ sameMemory s s'
    ∧ db s' =
        match WriteFault env
                (calls s ++ [CallGetLatestFinalizingOrFinalizedBatch;
                             CallGetVerifiedProofAndInstanceCommitmentsByHash hash])
                (CallUpdateRollupStatus hash RollupFinalizationSkipped) with
        | Some _ => db s
        | None => alter (withRollupStatus RollupFinalizationSkipped) hash (db s)
        end.
Proof.
  intros Hgo HV Hrej. destruct s as [table last commits finals cs]. simpl in *.
  assert (∃ s',
    defer_ (submitFinalize env hash) (finalizeGuard env hash)
      {| db := table; lastGasPrice := last; processingBatchesCommitment := commits;
         processingFinalization := finals;
         calls := cs ++ [CallGetLatestFinalizingOrFinalizedBatch] |} = (Done false, s')
    ∧ calls s' = cs ++ [CallGetLatestFinalizingOrFinalizedBatch;
                        CallGetVerifiedProofAndInstanceCommitmentsByHash hash;
                        CallUpdateRollupStatus hash RollupFinalizationSkipped]
    ∧ sameMemory {| db := table; lastGasPrice := last;
                    processingBatchesCommitment := commits;
                    processingFinalization := finals; calls := cs |} s'
    ∧ db s' =
        match WriteFault env
                (cs ++ [CallGetLatestFinalizingOrFinalizedBatch;
                        CallGetVerifiedProofAndInstanceCommitmentsByHash hash])
                (CallUpdateRollupStatus hash RollupFinalizationSkipped) with
        | Some _ => table
        | None => alter (withRollupStatus RollupFinalizationSkipped) hash table
        end) as (s' & E & C & Hmem & Hdb).
  { run. rewrite HV. unfold buffersRejected in Hrej.
    destruct p as [p|], i as [i|]; simpl;
      repeat (case_decide; simpl);
      try (rewrite !bool_decide_eq_true_2 in Hrej by done; discriminate);
      rewrite <- !app_assoc; simpl;
      destruct (WriteFault env _ _) eqn:HW; simpl;
      eexists; (split; [reflexivity|]); simpl; rewrite <- ?app_assoc; done. }
  unfold finalizeVerified, db_GetLatestFinalizingOrFinalizedBatch, log, history,
    mbind, M_bind, mret, M_ret, panic. simpl.
  destruct (GetLatestFinalizingOrFinalizedBatch env cs) as [err|previousBatch]; simpl in *.
  - rewrite decide_False by (intros H; by apply H). rewrite E. eauto.
  - destruct Hgo as (t & u & -> & -> & Hlate). simpl.
    rewrite bool_decide_eq_false_2 by lia. simpl. rewrite E. eauto.
Qed.

Lemma count_sum P l1 l2 :
  count_calls P (l1 ++ l2) = (count_calls P l1 + count_calls P l2)%nat.
Proof. unfold count_calls. by rewrite List.filter_app, length_app. Qed.

Lemma count_calls_quiet P l :
  (∀ c, isQuiet c = true → P c = false) → forallb isQuiet l = true →
  count_calls P l = 0%nat.
Proof.
  intros HQP. unfold count_calls. induction l as [|c l IH]; simpl; [done|].
  intros [Hc Hl]%andb_prop. rewrite (HQP c Hc). auto.
Qed.

Lemma isQuiet_not_send c : isQuiet c = true → isSendCall c = false.
Proof. by destruct c. Qed.

Lemma isQuiet_not_write c : isQuiet c = true → isRollupWrite c = false.
Proof. by destruct c. Qed.



(** C1, as the code has it. In the [Verified] case of
    [ProcessCommittedBatches], past the rate limit, when the stored
    proof or public-input commitment is missing or has a length that is
    not a multiple of 32, the invocation sends no transaction and
    touches no registry, and the deferred guard then issues
    [UpdateRollupStatus] of the batch to [RollupFinalizationSkipped] as
    the last call: the row of the batch carries that status whenever
    the database accepts the write. *)
Theorem C1_rejected_buffers_marked_skipped
  env s hash tl batch rest proofBuffer icBuffer :
  (∀ h, GetCommittedBatches env h 1 = inr (hash :: tl)) →
  (∀ h, GetBlockBatches env h hash = inr (batch :: rest)) →
  ProvingStatus_ batch = ProvingTaskVerified →
  (∀ h, proceedsToFinalize env batch (GetLatestFinalizingOrFinalizedBatch env h)) →
  (∀ h, GetVerifiedProofAndInstanceCommitmentsByHash env h hash
        = inr (proofBuffer, icBuffer)) →
  buffersRejected proofBuffer icBuffer = true →
  ∃ s' pre,
    ProcessCommittedBatches env s = (Done (), s')
    ∧ calls s' = calls s ++ pre ++ [CallUpdateRollupStatus hash RollupFinalizationSkipped]
    ∧ count_calls isSendCall
        (pre ++ [CallUpdateRollupStatus hash RollupFinalizationSkipped]) = 0%nat
    ∧ count_calls isRollupWrite pre = 0%nat
    ∧ sameMemory s s'
    ∧ (WriteFault env (calls s ++ pre)
         (CallUpdateRollupStatus hash RollupFinalizationSkipped) = None →
       db s' = alter (withRollupStatus RollupFinalizationSkipped) hash
                 (UpdateSkippedBatches env (calls s) (db s)).2
       ∧ ∀ row, (UpdateSkippedBatches env (calls s) (db s)).2 !! hash = Some row →
                rollup_status <$> db s' !! hash = Some RollupFinalizationSkipped).
Proof.
  intros HC HB Hst HL HV Hrej.
  destruct (ProcessCommittedBatches_verified env s hash tl batch rest HC HB Hst)
    as (pre & Hpre & ->).
  edestruct (finalizeVerified_rejected env hash batch proofBuffer icBuffer)
    as (s' & E & C & Hmem & Hdb); [apply HL|apply HV|exact Hrej|].
  exists s', (pre ++ [CallGetLatestFinalizingOrFinalizedBatch;
                      CallGetVerifiedProofAndInstanceCommitmentsByHash hash]).
  split; [exact E|]. simpl in *.
  split; [by rewrite C, <- !app_assoc|].
  split.
  { rewrite !count_sum.
    rewrite (count_calls_quiet isSendCall pre isQuiet_not_send Hpre). reflexivity. }
  split.
  { rewrite count_sum.
    rewrite (count_calls_quiet isRollupWrite pre isQuiet_not_write Hpre). reflexivity. }
  split; [exact Hmem|].
  intros HW. rewrite app_assoc in HW. rewrite HW in Hdb. split; [exact Hdb|].
  intros row Hrow. rewrite Hdb, lookup_alter_eq, Hrow. reflexivity.
Qed.

Lemma C1_witness :
  ∃ s' pre,
    ProcessCommittedBatches
      (RelayerExamples.exampleEnv ProvingTaskVerified (inl RelayerExamples.noRows)
         (Some [Byte.x00], Some []) (inr RelayerExamples.txHash) 50000)
      (RelayerExamples.exampleState 0) = (Done (), s')
    ∧ calls s' = [] ++ pre ++ [CallUpdateRollupStatus "0xabc" RollupFinalizationSkipped]
    ∧ count_calls isSendCall
        (pre ++ [CallUpdateRollupStatus "0xabc" RollupFinalizationSkipped]) = 0%nat
    ∧ count_calls isRollupWrite pre = 0%nat
    ∧ sameMemory (RelayerExamples.exampleState 0) s'
    ∧ ((None : option error) = None →
       db s' = alter (withRollupStatus RollupFinalizationSkipped) "0xabc"
                 {[ "0xabc" := RelayerExamples.committedRow ]}
       ∧ ∀ row, ({[ "0xabc" := RelayerExamples.committedRow ]} : gmap string BatchRow)
                  !! "0xabc" = Some row →
                rollup_status <$> db s' !! "0xabc" = Some RollupFinalizationSkipped).
Proof.
  apply (C1_rejected_buffers_marked_skipped
           (RelayerExamples.exampleEnv ProvingTaskVerified (inl RelayerExamples.noRows)
              (Some [Byte.x00], Some []) (inr RelayerExamples.txHash) 50000)
           (RelayerExamples.exampleState 0) "0xabc" []
           (RelayerExamples.exampleBatch ProvingTaskVerified 1000000000000) []
           (Some [Byte.x00]) (Some []));
    reflexivity.
Defined.

(** C1, as stated, fails: the stored proof and commitment of a verified,
    committed batch are missing, and the invocation ends with the rollup
    status of the batch changed from [RollupCommitted] to
    [RollupFinalizationSkipped]; the same happens for a proof of 1
    byte. *)
Lemma C1_counterexample :
  buffersRejected None None = true
  ∧ rollup_status <$> db (RelayerExamples.exampleState 0) !! "0xabc"
    = Some RollupCommitted
  ∧ ProcessCommittedBatches
      (RelayerExamples.exampleEnv ProvingTaskVerified (inl RelayerExamples.noRows)
         (None, None) (inr RelayerExamples.txHash) 50000)
      (RelayerExamples.exampleState 0)
    = (Done (),
       {| db := {[ "0xabc" := withRollupStatus RollupFinalizationSkipped
                                RelayerExamples.committedRow ]};
          lastGasPrice := 0;
          processingBatchesCommitment := ∅;
          processingFinalization := ∅;
          calls := [CallUpdateSkippedBatches; CallGetCommittedBatches 1;
                    CallGetBlockBatches "0xabc";
                    CallGetLatestFinalizingOrFinalizedBatch;
                    CallGetVerifiedProofAndInstanceCommitmentsByHash "0xabc";
                    CallUpdateRollupStatus "0xabc" RollupFinalizationSkipped] |})
  ∧ rollup_status
      <$> ({[ "0xabc" := withRollupStatus RollupFinalizationSkipped
                           RelayerExamples.committedRow ]} : gmap string BatchRow)
          !! "0xabc"
    ≠ Some RollupCommitted
  ∧ buffersRejected (Some [Byte.x00]) (Some []) = true
  ∧ (db (ProcessCommittedBatches
           (RelayerExamples.exampleEnv ProvingTaskVerified (inl RelayerExamples.noRows)
              (Some [Byte.x00], Some []) (inr RelayerExamples.txHash) 50000)
           (RelayerExamples.exampleState 0)).2)
    = {[ "0xabc" := withRollupStatus RollupFinalizationSkipped
                      RelayerExamples.committedRow ]}.
Proof.
  split; [reflexivity|]. split; [vm_compute; reflexivity|].
  split; [vm_compute; reflexivity|]. split; [vm_compute; discriminate|].
  split; [reflexivity|]. vm_compute. reflexivity.
Qed.

(** A run of the embedding: a verified batch, no previous finalization,
    a proof of one word and a commitment of two. *)
Example ProcessCommittedBatches_run :
  ∃ s',
    ProcessCommittedBatches
      (RelayerExamples.exampleEnv ProvingTaskVerified (inl RelayerExamples.noRows)
         (Some (repeat Byte.x01 32), Some (repeat Byte.x00 64))
         (inr RelayerExamples.txHash) 50000)
      (RelayerExamples.exampleState 0) = (Done (), s')
    ∧ calls s' = [CallUpdateSkippedBatches; CallGetCommittedBatches 1;
                  CallGetBlockBatches "0xabc"; CallGetLatestFinalizingOrFinalizedBatch;
                  CallGetVerifiedProofAndInstanceCommitmentsByHash "0xabc";
                  CallSendTransaction rollupSender "0xabc-finalize" "0xrollup" [];
                  CallInc bridgeL2BatchesFinalizedTotalCounter 1;
                  CallUpdateFinalizeTxHashAndRollupStatus "0xabc" "0x0102"
                    RollupFinalizing]
    ∧ rollup_status <$> db s' !! "0xabc" = Some RollupFinalizing
    ∧ processingFinalization s' = {[ "0xabc-finalize" := "0xabc" ]}.
Proof.
  eexists. split; [vm_compute; reflexivity|].
  split; [vm_compute; reflexivity|]. split; vm_compute; reflexivity.
Qed.

(** ** Commit *)

Lemma recordCommitting_calls env batchData txHash :
  ∀ s, ∃ s',
    recordCommitting env batchData txHash s = (Done (map batchHashHex batchData), s')
    ∧ calls s' = calls s ++ map (commitWrite txHash) batchData
    ∧ sameMemory s s'.
Proof.
  induction batchData as [|batch rest IH]; intros s; simpl.
  - exists s. rewrite app_nil_r. done.
  - destruct s as [table last commits finals cs]. run.
    destruct (WriteFault env cs _) as [e|]; simpl.
    + edestruct IH as (s' & E & C & Hmem). rewrite E. simpl.
      exists s'. split; [done|]. simpl in *. rewrite C, <- app_assoc. done.
    + edestruct IH as (s' & E & C & Hmem). rewrite E. simpl.
      exists s'. split; [done|]. simpl in *. rewrite C, <- app_assoc. done.
Qed.

(** Nothing at all happens when there is nothing to send. *)
Lemma SendCommitTx_not_sent env s batchData :
  (batchData = [] → SendCommitTx env batchData s = (Done None, s))
  ∧ (∀ err, batchData ≠ [] → PackCommitBatches env (map Batch batchData) = inl err →
            SendCommitTx env batchData s = (Done (Some err), s)).
Proof.
  split.
  - intros ->. reflexivity.
  - intros err Hne Hpack. unfold SendCommitTx.
    rewrite decide_False by (by destruct batchData). by rewrite Hpack.
Qed.

(** C10. [SendCommitTx] on a non-empty list of batches whose call data
    packs: when [SendTransaction] answers with an error, whichever it
    is, that error is returned, the send is the only call made, and the
    database and the registries are as they were; when it answers with
    a transaction hash, the [RollupCommitting] write of every batch of
    the list, in order, and then the single insertion of the batch
    hashes into the commit registry under the correlation identifier
    follow the send. *)
Theorem C10_commit_recorded_only_after_send env s batchData calldata :
  batchData ≠ [] →
  PackCommitBatches env (map Batch batchData) = inr calldata →
  match SendTransaction env (calls s) rollupSender (commitTxID env batchData)
          (RollupContractAddress env) calldata with
  | inl err =>
      SendCommitTx env batchData s
      = (Done (Some err),
         {| db := db s;
            lastGasPrice := lastGasPrice s;
            processingBatchesCommitment := processingBatchesCommitment s;
            processingFinalization := processingFinalization s;
            calls := calls s ++ [commitSend env batchData calldata] |})
  | inr txHash =>
      ∃ s',
        SendCommitTx env batchData s = (Done None, s')
        ∧ calls s' = calls s
                       ++ [commitSend env batchData calldata;
                           CallInc bridgeL2BatchesCommittedTotalCounter
                             (Z.of_nat (length batchData))]
                       ++ map (commitWrite txHash) batchData
        ∧ processingBatchesCommitment s'
          = <[commitTxID env batchData := map batchHashHex batchData]>
              (processingBatchesCommitment s)
        ∧ processingFinalization s' = processingFinalization s
        ∧ lastGasPrice s' = lastGasPrice s
  end.
Proof.
  intros Hne Hpack. destruct s as [table last commits finals cs].
  unfold SendCommitTx. rewrite decide_False by (by destruct batchData).
  rewrite Hpack. unfold Sender_SendTransaction, Inc, log, history, mbind, M_bind,
    mret, M_ret. simpl.
  fold (commitTxID env batchData).
  destruct (SendTransaction env cs rollupSender _ _ calldata) as [err|txHash]; simpl.
  - reflexivity.
  - edestruct (recordCommitting_calls env batchData txHash) as (s1 & E & C & Hmem).
    rewrite E. destruct s1 as [table1 last1 commits1 finals1 cs1].
    destruct Hmem as (Hlast & Hcommits & Hfinals). simpl in *. subst.
    unfold processingBatchesCommitment_Store. simpl.
    eexists. split; [reflexivity|]. simpl.
    rewrite length_map, <- !app_assoc. done.
Qed.

Lemma C10_witness :
  SendCommitTx
    (RelayerExamples.exampleEnv ProvingTaskVerified (inl RelayerExamples.noRows)
       (None, None) (inl ErrFullPending) 50000)
    RelayerExamples.exampleBatchData (RelayerExamples.exampleState 0)
  = (Done (Some ErrFullPending),
     {| db := {[ "0xabc" := RelayerExamples.committedRow ]};
        lastGasPrice := 0;
        processingBatchesCommitment := ∅;
        processingFinalization := ∅;
        calls := [CallSendTransaction rollupSender "0x0a0b" "0xrollup" []] |}).
Proof.
  apply (C10_commit_recorded_only_after_send
           (RelayerExamples.exampleEnv ProvingTaskVerified (inl RelayerExamples.noRows)
              (None, None) (inl ErrFullPending) 50000)
           (RelayerExamples.exampleState 0) RelayerExamples.exampleBatchData []);
    [discriminate|reflexivity].
Defined.

Example SendCommitTx_sent :
  ∃ s',
    SendCommitTx
      (RelayerExamples.exampleEnv ProvingTaskVerified (inl RelayerExamples.noRows)
         (None, None) (inr RelayerExamples.txHash) 50000)
      RelayerExamples.exampleBatchData (RelayerExamples.exampleState 0)
    = (Done None, s')
    ∧ calls s' = [CallSendTransaction rollupSender "0x0a0b" "0xrollup" [];
                  CallInc bridgeL2BatchesCommittedTotalCounter 2;
                  CallUpdateCommitTxHashAndRollupStatus "0x0a" "0x0102" RollupCommitting;
                  CallUpdateCommitTxHashAndRollupStatus "0x0b" "0x0102" RollupCommitting]
    ∧ processingBatchesCommitment s' = {[ "0x0a0b" := ["0x0a"; "0x0b"] ]}.
Proof. eexists. split; [vm_compute; reflexivity|]. split; vm_compute; reflexivity. Qed.

(** ** Gas price oracle *)

(** On a pending latest batch with a suggested price that packs,
    [ProcessGasPriceOracle] sends exactly when [shouldUpdate] holds of
    the last price and the suggested one, and at most once. *)
Lemma ProcessGasPriceOracle_sends_iff env s batch suggestGasPrice data :
  GetLatestBatch env (calls s) = inr batch →
  OracleStatus batch = GasOraclePending →
  SuggestGasPrice env (calls s ++ [CallGetLatestBatch]) = inr suggestGasPrice →
  PackSetL2BaseFee env suggestGasPrice = inr data →
  ∃ s' new,
    ProcessGasPriceOracle env s = (Done (), s')
    ∧ calls s' = calls s ++ new
    ∧ count_calls isSendCall new
      = (if shouldUpdate env (lastGasPrice s) (to_uint64 (BigInt_Int64 suggestGasPrice))
         then 1 else 0)%nat.
Proof.
  intros HB Hpending HS HP. destruct s as [table last commits finals cs]. simpl in *.
  run. rewrite HB. simpl. rewrite decide_True by done. simpl. rewrite HS. simpl.
  destruct (shouldUpdate env last _); simpl.
  - rewrite HP. simpl.
    destruct (SendTransaction env _ _ _ _ _) as [e|hash]; simpl.
    + eexists _, _. split; [reflexivity|]. simpl. rewrite <- !app_assoc. simpl. done.
    + destruct (WriteFault env _ _); simpl;
        eexists _, _; (split; [reflexivity|]); simpl; rewrite <- !app_assoc; simpl; done.
  - eexists _, _. split; [reflexivity|]. simpl. rewrite <- !app_assoc. simpl. done.
Qed.

(** Where the threshold is at most the last price and their sum fits
    64 bits, the condition of the code is the rule of the
    specification. *)
Lemma shouldUpdate_in_range env lastPrice newPrice :
  0 < gasPriceDiffPrecision env →
  0 ≤ lastPrice →
  0 ≤ newPrice < 2 ^ 64 →
  expectedDelta env lastPrice ≤ lastPrice →
  lastPrice + expectedDelta env lastPrice < 2 ^ 64 →
  shouldUpdate env lastPrice newPrice = true ↔ specUpdateRule env lastPrice newPrice.
Proof.
  intros Hprec Hlast Hnew Hlow Hhigh.
  assert (0 ≤ expectedDelta env lastPrice) as Hdelta.
  { unfold expectedDelta, to_uint64. apply Z.div_pos; [|done].
    apply Z.mod_pos_bound. lia. }
  unfold shouldUpdate, specUpdateRule.
  change (to_uint64 (lastPrice * gasPriceDiff env) / gasPriceDiffPrecision env)
    with (expectedDelta env lastPrice).
  set (d := expectedDelta env lastPrice) in *.
  unfold to_uint64. rewrite !Z.mod_small by lia.
  rewrite orb_true_iff, andb_true_iff, orb_true_iff, !bool_decide_eq_true.
  lia.
Qed.

(** C2, the code at a failing input. The difference ratio is configured
    as 2000000 millionths, the last price applied is 1000000000 and the
    suggested price is the same 1000000000: the rule of the
    specification does not hold ([|newPrice - lastPrice| = 0] is below
    the threshold 2000000000), and [ProcessGasPriceOracle] sends the
    update all the same, because [lastGasPrice - expectedDelta] wraps
    around in [uint64]. *)
Theorem C2_update_fires_on_unchanged_price :
  expectedDelta
    (RelayerExamples.exampleEnv ProvingTaskVerified (inl RelayerExamples.noRows)
       (None, None) (inr RelayerExamples.txHash) 2000000) 1000000000 = 2000000000
  ∧ to_uint64 (1000000000 - 2000000000) = 18446744072709551616
  ∧ ¬ specUpdateRule
        (RelayerExamples.exampleEnv ProvingTaskVerified (inl RelayerExamples.noRows)
           (None, None) (inr RelayerExamples.txHash) 2000000) 1000000000 1000000000
  ∧ shouldUpdate
      (RelayerExamples.exampleEnv ProvingTaskVerified (inl RelayerExamples.noRows)
         (None, None) (inr RelayerExamples.txHash) 2000000) 1000000000 1000000000 = true
  ∧ ∃ s',
      ProcessGasPriceOracle
        (RelayerExamples.exampleEnv ProvingTaskVerified (inl RelayerExamples.noRows)
           (None, None) (inr RelayerExamples.txHash) 2000000)
        (RelayerExamples.exampleState 1000000000) = (Done (), s')
      ∧ calls s' = [CallGetLatestBatch; CallSuggestGasPrice;
                    CallSendTransaction gasOracleSender "0xabc" "0xoracle" [];
                    CallUpdateL2GasOracleStatusAndOracleTxHash "0xabc"
                      GasOracleImporting "0x0102"]
      ∧ count_calls isSendCall (calls s') = 1%nat.
Proof.
  split; [vm_compute; reflexivity|]. split; [vm_compute; reflexivity|].
  split.
  { unfold specUpdateRule. vm_compute. intros [H|[_ H]]; [discriminate|].
    by apply H. }
  split; [vm_compute; reflexivity|].
  eexists. split; [vm_compute; reflexivity|]. split; vm_compute; reflexivity.
Qed.

End RelayerProofs.

(** * Further properties of the prover *)

Module ProverMore.
Import Prover ProverSpec.

Ltac run :=
  unfold proveAndSubmit, deleteTask, Peek, UpdateTimes, Delete, fetchTaskFromServer,
    set_BlockHashes, set_ChunkProofs, Sleep, prove, proveChunk, proveBatch,
    getSortedTracesByHashes, signAndSubmitProof, Prover_Type, defer_, panic,
    mbind, M_bind, mret, M_ret, history, log, get_stack, set_stack;
  simpl.

(** X1. A failure of [Peek] other than [ErrEmpty] is returned as it is:
    [Peek] is the only call, the coordinator is not asked and the loop
    does not back off. *)
Theorem X1_peek_failure_returned env s e :
  PeekFault env (calls s) = Some e →
  e ≠ ErrEmpty →
  proveAndSubmit env s
  = (Done (Some e), {| stack := stack s; calls := calls s ++ [CallPeek] |}).
Proof.
  intros Hpeek Hne. destruct s as [q cs]. simpl in *. run. rewrite Hpeek. simpl.
  by rewrite decide_True.
Qed.

Lemma X1_witness :
  proveAndSubmit
    {| cfg_ProofType := ProofTypeChunk; Version := "v4.0.0";
       PeekFault := λ _, Some (ErrOther "database not open");
       UpdateTimesFault := λ _, None; DeleteFault := λ _, None;
       GetLatestConfirmedBlockNumber := λ _, inr 100;
       ProverTasks := λ _ _, inr None;
       UnmarshalBlockHashes := λ _, inr []; UnmarshalChunkProofs := λ _, inr [];
       GetBlockTraceByHash := λ _ h, inl (ErrOther "not found");
       sortSlice := insertion_sort;
       ProveChunk := λ _ _ _, inr (mkChunkProof "p");
       ProveBatch := λ _ _ _ _, inr (mkBatchProof "p");
       Sign := λ _ _, inr "signature"; MarshalProofs := λ _ _, inr "{}";
       SubmitProof := λ _ _, inr {| ErrCode := 200; ErrMsg := "" |} |}
    (ProverExamples.queued (ProverExamples.exampleTask 0))
  = (Done (Some (ErrOther "database not open")),
     {| stack := Some (ProverExamples.exampleTask 0); calls := [] ++ [CallPeek] |}).
Proof.
  apply X1_peek_failure_returned; [reflexivity|discriminate].
Defined.

(** X2. With an empty queue and a coordinator from which no task is
    obtained, because the block number cannot be read, the request
    fails, there is no data, the proof type is unknown or the payload does
    not parse, [proveAndSubmit] returns the error of the fetch after
    sleeping [retryWait] (10 seconds) as its last call; the coordinator is
    asked only when the latest confirmed block number was obtained, with
    that number as height, and nothing is written to the queue. *)
Theorem X2_fetch_failure_backs_off env s :
  ProverLifecycle.noTask env →
  stack s = None →
  PeekFault env (calls s) = None →
  ∃ err fetch,
    proveAndSubmit env s
    = (Done (Some err),
       {| stack := None; calls := calls s ++ [CallPeek] ++ fetch ++ [CallSleep 10] |})
    ∧ match GetLatestConfirmedBlockNumber env (calls s ++ [CallPeek]) with
      | inl e =>
          fetch = [CallGetLatestConfirmedBlockNumber]
          ∧ err = ErrOther ("failed to fetch latest confirmed block number: " +:+ Error e)
      | inr latestBlockNumber =>
          fetch = [CallGetLatestConfirmedBlockNumber;
                   CallProverTasks
                     {| ProverVersion := Version env;
                        ProverHeight := to_int64 latestBlockNumber;
                        ProverTasksRequest_ProofType :=
                          ProofType_code (cfg_ProofType env) |}]
          ∧ match ProverTasks env
                    (calls s ++ [CallPeek; CallGetLatestConfirmedBlockNumber])
                    {| ProverVersion := Version env;
                       ProverHeight := to_int64 latestBlockNumber;
                       ProverTasksRequest_ProofType :=
                         ProofType_code (cfg_ProofType env) |} with
            | inl e => err = e
            | inr None => err = ErrOther "no tasks available"
            | inr (Some data) =>
                match ProverTasksData_ProofType data with
                | ProofTypeChunk =>
                    UnmarshalBlockHashes env (ProofData data) = inl err
                | ProofTypeBatch =>
                    UnmarshalChunkProofs env (ProofData data) = inl err
                | other =>
                    err = ErrOther ("unknown proof type: "
                                    +:+ pretty (ProofType_code other))
                end
            end
      end.
Proof.
  intros Hwork Hq Hpeek. destruct s as [q cs]. simpl in *. subst q. run.
  rewrite Hpeek. simpl.
  destruct (GetLatestConfirmedBlockNumber env (cs ++ [CallPeek])) as [e|n] eqn:Hn; simpl.
  - eexists _, _. split; [|split; reflexivity]. by rewrite <- !app_assoc.
  - rewrite <- !app_assoc. simpl.
    destruct (ProverTasks env _ _) as [e|[data|]] eqn:Htasks; simpl.
    + eexists _, _. split; [|split; reflexivity]. by rewrite <- ?app_assoc.
    + pose proof (Hwork _ _ _ Htasks) as Hno. unfold ProverLifecycle.handsOutTask in Hno.
      destruct (ProverTasksData_ProofType data); simpl.
      * eexists _, _. split; [|split; reflexivity]. by rewrite <- ?app_assoc.
      * destruct (UnmarshalBlockHashes env (ProofData data)) as [e|l]; [|done]. simpl.
        eexists _, _. split; [|split; reflexivity]. by rewrite <- ?app_assoc.
      * destruct (UnmarshalChunkProofs env (ProofData data)) as [e|l]; [|done]. simpl.
        eexists _, _. split; [|split; reflexivity]. by rewrite <- ?app_assoc.
      * eexists _, _. split; [|split; reflexivity]. by rewrite <- ?app_assoc.
    + eexists _, _. split; [|split; reflexivity]. by rewrite <- ?app_assoc.
Qed.

Lemma X2_witness :
  ∃ err fetch,
    proveAndSubmit ProverLifecycle.garbledEnv {| stack := None; calls := [] |}
    = (Done (Some err),
       {| stack := None; calls := [] ++ [CallPeek] ++ fetch ++ [CallSleep 10] |})
    ∧ fetch = [CallGetLatestConfirmedBlockNumber;
               CallProverTasks {| ProverVersion := "v4.0.0"; ProverHeight := 100;
                                  ProverTasksRequest_ProofType := 1 |}]
    ∧ (inl (ErrOther "invalid character") : error + list Hash) = inl err.
Proof.
  apply (X2_fetch_failure_backs_off ProverLifecycle.garbledEnv
           {| stack := None; calls := [] |}); [|reflexivity|reflexivity].
  intros h req data Hdata. injection Hdata as <-. reflexivity.
Defined.

(** X3. [fetchTaskFromServer] builds the task with both detail pointers
    nil and then assigns through one of them: when the coordinator
    answers with a Chunk task whose block hashes unmarshal, or a Batch
    task whose chunk proofs unmarshal, the function panics with a nil
    pointer dereference instead of returning the task. *)
Theorem X3_fetched_task_panics env s latestBlockNumber data :
  GetLatestConfirmedBlockNumber env (calls s) = inr latestBlockNumber →
  ProverTasks env (calls s ++ [CallGetLatestConfirmedBlockNumber])
    {| ProverVersion := Version env;
       ProverHeight := to_int64 latestBlockNumber;
       ProverTasksRequest_ProofType := ProofType_code (cfg_ProofType env) |}
  = inr (Some data) →
  (ProverTasksData_ProofType data = ProofTypeChunk
   ∧ ∃ blockHashes, UnmarshalBlockHashes env (ProofData data) = inr blockHashes)
  ∨ (ProverTasksData_ProofType data = ProofTypeBatch
     ∧ ∃ subProofs, UnmarshalChunkProofs env (ProofData data) = inr subProofs) →
  ∃ s',
    fetchTaskFromServer env s
    = (Panicked "invalid memory address or nil pointer dereference", s')
    ∧ stack s' = stack s.
Proof.
  intros Hn Htasks Hdata. destruct s as [q cs]. simpl in *. run.
  rewrite Hn. simpl. rewrite Htasks. simpl.
  destruct Hdata as [[-> [l ->]]|[-> [l ->]]]; simpl; eauto.
Qed.

Lemma X3_witness :
  ∃ s',
    fetchTaskFromServer ProverLifecycle.workEnv {| stack := None; calls := [CallPeek] |}
    = (Panicked "invalid memory address or nil pointer dereference", s')
    ∧ stack s' = None.
Proof.
  apply (X3_fetched_task_panics ProverLifecycle.workEnv
           {| stack := None; calls := [CallPeek] |} 100 ProverLifecycle.handedOut);
    [reflexivity|reflexivity|].
  left. split; [reflexivity|]. eexists. reflexivity.
Defined.

(** ** Proving *)

Lemma fetchTraces_fails env pre x post e :
  ∀ traces s,
    (∀ h y, y ∈ pre → ∃ t, GetBlockTraceByHash env h y = inr t) →
    (∀ h, GetBlockTraceByHash env h x = inl e) →
    ∃ s',
      fetchTraces env (pre ++ x :: post) traces s = (Done (inl e), s')
      ∧ stack s' = stack s
      ∧ calls s' = calls s ++ map CallGetBlockTraceByHash (pre ++ [x]).
Proof.
  induction pre as [|y pre IH]; intros traces s Hpre Hx; simpl.
  - run. rewrite Hx. eexists. split; [reflexivity|]. done.
  - unfold mbind, M_bind, history, log. simpl.
    destruct (Hpre (calls s) y) as [t Ht]; [by left|]. rewrite Ht.
    edestruct (IH (traces ++ [t])) as (s' & E & St & C); [|exact Hx|].
    { intros h z Hz. apply Hpre. by right. }
    exists s'. rewrite E. split; [done|]. split; [done|].
    rewrite C. simpl. by rewrite <- app_assoc.
Qed.

(** X4. When the chain endpoint fails on one block hash of a chunk task,
    a Chunk prover stops fetching at that hash, does not call the proof
    engine, and reports [StatusProofError] with the fixed message
    ["get traces from eth node failed"] in place of the endpoint's own
    error. *)
Theorem X4_trace_failure_reported env task detail pre x post e s :
  cfg_ProofType env = ProofTypeChunk →
  TaskMsg_ChunkTaskDetail (Task task) = Some detail →
  BlockHashes detail = pre ++ x :: post →
  (∀ h y, y ∈ pre → ∃ t, GetBlockTraceByHash env h y = inr t) →
  (∀ h, GetBlockTraceByHash env h x = inl e) →
  prove env task s
  = (Done {| ProofDetail_ID := ID (Task task);
             ProofDetail_Type := Type_ (Task task);
             ProofDetail_Status := StatusProofError;
             ProofDetail_ChunkProof := None;
             ProofDetail_BatchProof := None;
             ProofDetail_Error := "get traces from eth node failed" |},
     {| stack := stack s;
        calls := calls s ++ map CallGetBlockTraceByHash (pre ++ [x]) |}).
Proof.
  intros Hcfg Hdetail Hhashes Hpre Hx.
  destruct (fetchTraces_fails env pre x post e [] s Hpre Hx) as (s' & E & St & C).
  unfold prove, Prover_Type, proveChunk, getSortedTracesByHashes.
  rewrite Hcfg, Hdetail, Hhashes. unfold mbind, M_bind, mret, M_ret. rewrite E.
  destruct s' as [q' cs']. simpl in *. by subst.
Qed.

Lemma X4_witness :
  prove ProverLifecycle.workEnv ProverLifecycle.missingBlockTask
    {| stack := None; calls := [] |}
  = (Done {| ProofDetail_ID := "task-9";
             ProofDetail_Type := ProofTypeChunk;
             ProofDetail_Status := StatusProofError;
             ProofDetail_ChunkProof := None;
             ProofDetail_BatchProof := None;
             ProofDetail_Error := "get traces from eth node failed" |},
     {| stack := None;
        calls := [] ++ map CallGetBlockTraceByHash (["0xbb"] ++ ["0xa"]) |}).
Proof.
  apply (X4_trace_failure_reported ProverLifecycle.workEnv
           ProverLifecycle.missingBlockTask
           {| BlockHashes := ["0xbb"; "0xa"; "0xccc"] |} ["0xbb"] "0xa" ["0xccc"]
           (ErrOther "block not found") {| stack := None; calls := [] |});
    try reflexivity.
  intros h y Hy. apply list_elem_of_singleton in Hy as ->. eexists. reflexivity.
Defined.

(** X5. A Batch prover dispatches on its own configured type, whatever
    the type of the task: it never contacts the chain endpoint, and its
    only call is [ProveBatch] with the chunk infos and chunk proofs of the
    task as they are; the detail carries the proof of the engine, or
    [StatusProofError] with the message of the engine's error.  A task
    without batch detail fails with ["BatchTaskDetail is empty"] and no
    call at all. *)
Theorem X5_batch_prover_dispatch env task s :
  cfg_ProofType env = ProofTypeBatch →
  ∃ d s',
    prove env task s = (Done d, s')
    ∧ stack s' = stack s
    ∧ ProofDetail_ID d = ID (Task task)
    ∧ ProofDetail_Type d = Type_ (Task task)
    ∧ ProofDetail_ChunkProof d = None
    ∧ match TaskMsg_BatchTaskDetail (Task task) with
      | None =>
          calls s' = calls s
          ∧ ProofDetail_Status d = StatusProofError
          ∧ ProofDetail_Error d = "BatchTaskDetail is empty"
          ∧ ProofDetail_BatchProof d = None
      | Some detail =>
          calls s' = calls s ++ [CallProveBatch (ID (Task task)) (ChunkInfos detail)
                                   (ChunkProofs detail)]
          ∧ match ProveBatch env (calls s) (ID (Task task)) (ChunkInfos detail)
                    (ChunkProofs detail) with
            | inl err =>
                ProofDetail_Status d = StatusProofError
                ∧ ProofDetail_Error d = Error err
                ∧ ProofDetail_BatchProof d = None
            | inr proof =>
                ProofDetail_Status d = StatusOk
                ∧ ProofDetail_Error d = ""
                ∧ ProofDetail_BatchProof d = Some proof
            end
      end.
Proof.
  intros Hcfg. destruct s as [q cs]. unfold prove, Prover_Type. rewrite Hcfg.
  unfold proveBatch, mbind, M_bind, mret, M_ret, history, log. simpl.
  destruct (TaskMsg_BatchTaskDetail (Task task)) as [detail|]; simpl.
  - destruct (ProveBatch env cs _ _ _) as [err|proof];
      eexists _, _; (split; [reflexivity|]); simpl; done.
  - eexists _, _. split; [reflexivity|]. simpl. done.
Qed.

Lemma X5_witness :
  ∃ d s',
    prove (ProverExamples.exampleEnv ProofTypeBatch None) ProverLifecycle.batchTask
      {| stack := None; calls := [] |} = (Done d, s')
    ∧ stack s' = None
    ∧ ProofDetail_ID d = "task-3"
    ∧ ProofDetail_Type d = ProofTypeBatch
    ∧ ProofDetail_ChunkProof d = None
    ∧ calls s' = [] ++ [CallProveBatch "task-3" [mkChunkInfo "i1"; mkChunkInfo "i2"]
                          [mkChunkProof "p1"; mkChunkProof "p2"]]
    ∧ ProofDetail_Status d = StatusOk
    ∧ ProofDetail_Error d = ""
    ∧ ProofDetail_BatchProof d = Some (mkBatchProof "batch-proof").
Proof.
  apply (X5_batch_prover_dispatch (ProverExamples.exampleEnv ProofTypeBatch None)
           ProverLifecycle.batchTask {| stack := None; calls := [] |}).
  reflexivity.
Defined.

(** ** Submission *)

(** X6. [signAndSubmitProof] signs first; it calls [SubmitProof] at most
    once, and only when signing and marshalling succeeded, with a request
    that carries the identifier, status, error and proof type of the
    detail and the signature.  It returns nil exactly when the coordinator
    answered with error code 200; it never touches the queue. *)
Theorem X6_submission env msg s :
  ∃ r s' sub,
    signAndSubmitProof env msg s = (Done r, s')
    ∧ stack s' = stack s
    ∧ calls s' = calls s ++ CallSign msg :: sub
    ∧ match Sign env (calls s) msg,
            MarshalProofs env (ProofDetail_ChunkProof msg) (ProofDetail_BatchProof msg) with
      | inr signature, inr proofJSON =>
          let req := {| SubmitProofRequest_TaskID := ProofDetail_ID msg;
                        SubmitProofRequest_Status := ProofDetail_Status msg;
                        SubmitProofRequest_Error := ProofDetail_Error msg;
                        SubmitProofRequest_ProofType :=
                          ProofType_code (ProofDetail_Type msg);
                        Signature := signature;
                        Proof_ := proofJSON |} in
          sub = [CallSubmitProof req]
          ∧ (r = None ↔
             ∃ resp, SubmitProof env (calls s ++ [CallSign msg]) req = inr resp
                     ∧ ErrCode resp = 200)
      | _, _ => sub = [] ∧ r ≠ None
      end.
Proof.
  destruct s as [q cs]. run.
  destruct (Sign env cs msg) as [e|signature]; simpl.
  { eexists _, _, []. split; [reflexivity|]. done. }
  destruct (MarshalProofs env _ _) as [e|proofJSON]; simpl.
  { eexists _, _, []. split; [reflexivity|]. done. }
  destruct (SubmitProof env _ _) as [e|resp] eqn:Hsubmit; simpl.
  { eexists _, _, [_]. split; [reflexivity|]. simpl. rewrite <- app_assoc.
    split; [done|]. split; [done|]. split; [done|].
    split; [done|]. intros (resp & Hresp & _). discriminate. }
  destruct (decide (ErrCode resp ≠ 200)) as [Hcode|Hcode]; simpl.
  - eexists _, _, [_]. split; [reflexivity|]. simpl. rewrite <- app_assoc.
    split; [done|]. split; [done|]. split; [done|].
    split; [done|]. intros (resp' & Hresp & Hok). by simplify_eq.
  - eexists _, _, [_]. split; [reflexivity|]. simpl. rewrite <- app_assoc.
    split; [done|]. split; [done|]. split; [done|].
    split; [|done]. intros _. exists resp. split; [done|].
    by destruct (decide (ErrCode resp = 200)).
Qed.

(** X7. The error of the deferred [Delete] is not returned: an attempt
    on a queued task that is signed, marshalled and accepted by the
    coordinator returns nil even when [Delete] fails, and the task then
    stays in the queue with the retry counter as the attempt left it
    (incremented, for a counter of at most 2). *)
Theorem X7_failed_delete_keeps_task env s task :
  stack s = Some task →
  PeekFault env (calls s) = None →
  (Times task ≤ 2 → UpdateTimesFault env (calls s ++ [CallPeek]) = None) →
  (∀ h d, ∃ signature, Sign env h d = inr signature) →
  (∀ c b, ∃ proofJSON, MarshalProofs env c b = inr proofJSON) →
  (∀ h req, ∃ resp, SubmitProof env h req = inr resp ∧ ErrCode resp = 200) →
  (∀ h, is_Some (DeleteFault env h)) →
  ∃ s' mid,
    proveAndSubmit env s = (Done None, s')
    ∧ calls s' = calls s ++ mid ++ [CallDelete (ID (Task task))]
    ∧ stack s' = Some {| Task := Task task;
                         Times := if decide (Times task ≤ 2)
                                  then Times task + 1 else Times task |}.
Proof.
  intros Hq Hpeek Hupd HS HM HP HD.
  assert (∀ d s2 t, stack s2 = Some t → ID (Task t) = ID (Task task) →
            ∃ s' sub,
              defer_ (signAndSubmitProof env d) (λ _, deleteTask env (ID (Task task))) s2
              = (Done None, s')
              ∧ calls s' = calls s2 ++ sub ++ [CallDelete (ID (Task task))]
              ∧ stack s' = Some t) as Hfinish.
  { intros d [q2 cs2] t Hq2 Hid. simpl in *. subst q2. run.
    destruct (HS cs2 d) as [signature ->]. simpl.
    destruct (HM (ProofDetail_ChunkProof d) (ProofDetail_BatchProof d)) as [json ->]. simpl.
    edestruct HP as (resp & -> & Hcode). simpl.
    rewrite decide_False by (intros H; by apply H). simpl.
    edestruct HD as [e ->]. simpl.
    eexists _, [_; _]. split; [reflexivity|]. simpl. rewrite <- !app_assoc. done. }
  rewrite (ProverProofs.proveAndSubmit_peeked env s task Hq Hpeek).
  destruct (decide (Times task ≤ 2)) as [Hle|Hgt].
  - rewrite (Hupd Hle).
    edestruct (ProverProofs.frame_prove env) as (d & s2 & -> & St & proving & C & _).
    edestruct (Hfinish d s2) as (s' & sub & E & C' & St'); [exact St|done|].
    exists s', ([CallPeek; CallUpdateTimes (ID (Task task)) (Times task + 1)]
                ++ proving ++ sub).
    split; [exact E|]. split; [|exact St'].
    rewrite C', C. simpl. by rewrite <- !app_assoc.
  - edestruct (Hfinish (poisonedDetail task)
                 {| stack := Some task; calls := calls s ++ [CallPeek] |})
      as (s' & sub & E & C' & St'); [done|done|].
    exists s', ([CallPeek] ++ sub). split; [exact E|]. split; [|by destruct task].
    rewrite C'. simpl. by rewrite <- !app_assoc.
Qed.

Lemma X7_witness :
  ∃ s' mid,
    proveAndSubmit ProverLifecycle.stuckEnv
      (ProverExamples.queued (ProverExamples.exampleTask 2)) = (Done None, s')
    ∧ calls s' = [] ++ mid ++ [CallDelete "task-1"]
    ∧ stack s' = Some (ProverExamples.exampleTask 3).
Proof.
  apply (X7_failed_delete_keeps_task ProverLifecycle.stuckEnv
           (ProverExamples.queued (ProverExamples.exampleTask 2))
           (ProverExamples.exampleTask 2)); try reflexivity.
  - intros h d. eexists. reflexivity.
  - intros c b. eexists. reflexivity.
  - intros h req. eexists. split; reflexivity.
  - intros h. eexists. reflexivity.
Defined.

(** ** Stopping and looping *)

(** X8. [Stop] is idempotent on a prover built by [NewProver]: the first
    call sets [isClosed], closes [stopChan] and closes the task store
    once; a second call changes nothing, so the channel is never closed
    twice. *)
Theorem X8_stop_twice found s :
  ProverLifecycle.NewProver found = inr s →
  ∃ s1,
    ProverLifecycle.Stop s = (Done (), s1)
    ∧ ProverLifecycle.Stop s1 = (Done (), s1)
    ∧ ProverLifecycle.isClosed s1 = 1
    ∧ ProverLifecycle.stopChan_closed s1 = true
    ∧ ProverLifecycle.stack_Close_calls s1 = 1%nat
    ∧ ProverLifecycle.prover s1 = ProverLifecycle.prover s.
Proof.
  unfold ProverLifecycle.NewProver. intros Hnew.
  repeat case_match; simplify_eq.
  eexists. split; [reflexivity|]. simpl. done.
Qed.

Lemma X8_witness :
  ∃ s1,
    ProverLifecycle.Stop (ProverLifecycle.started None) = (Done (), s1)
    ∧ ProverLifecycle.Stop s1 = (Done (), s1)
    ∧ ProverLifecycle.isClosed s1 = 1
    ∧ ProverLifecycle.stopChan_closed s1 = true
    ∧ ProverLifecycle.stack_Close_calls s1 = 1%nat
    ∧ ProverLifecycle.prover s1 = ProverLifecycle.prover (ProverLifecycle.started None).
Proof.
  apply (X8_stop_twice
           {| ProverLifecycle.LoadOrCreateKey := inr "key";
              ProverLifecycle.NewStack := inr None;
              ProverLifecycle.DialContext := None;
              ProverLifecycle.NewProverCore := None;
              ProverLifecycle.NewCoordinatorClient := None |}
           (ProverLifecycle.started None)).
  reflexivity.
Defined.

(** X9. Once [Stop] has returned, [ProveLoop] returns at its next look at
    [stopChan] without a single call: a stopped prover does not peek,
    fetch, prove or submit. *)
Theorem X9_stopped_loop_is_silent env found s fuel :
  ProverLifecycle.NewProver found = inr s →
  ∃ s1,
    (ProverLifecycle.Stop ≫= λ _, ProverLifecycle.ProveLoop env (S fuel)) s = (Done (), s1)
    ∧ ProverLifecycle.prover s1 = ProverLifecycle.prover s
    ∧ ProverLifecycle.stopChan_closed s1 = true.
Proof.
  unfold ProverLifecycle.NewProver. intros Hnew.
  repeat case_match; simplify_eq.
  eexists. split; [reflexivity|]. done.
Qed.

Lemma X9_witness :
  ∃ s1,
    (ProverLifecycle.Stop ≫= λ _, ProverLifecycle.ProveLoop ProverLifecycle.workEnv 3)
      (ProverLifecycle.started (Some (ProverExamples.exampleTask 0))) = (Done (), s1)
    ∧ ProverLifecycle.prover s1
      = ProverLifecycle.prover (ProverLifecycle.started (Some (ProverExamples.exampleTask 0)))
    ∧ ProverLifecycle.stopChan_closed s1 = true.
Proof.
  apply (X9_stopped_loop_is_silent ProverLifecycle.workEnv
           {| ProverLifecycle.LoadOrCreateKey := inr "key";
              ProverLifecycle.NewStack := inr (Some (ProverExamples.exampleTask 0));
              ProverLifecycle.DialContext := None;
              ProverLifecycle.NewProverCore := None;
              ProverLifecycle.NewCoordinatorClient := None |}
           (ProverLifecycle.started (Some (ProverExamples.exampleTask 0))) 2).
  reflexivity.
Defined.

Lemma frame_traces env blockHashes traces :
  frame ProverLifecycle.isTraceCall (fetchTraces env blockHashes traces).
Proof.
  revert traces. induction blockHashes as [|blockHash rest IH]; intros traces; simpl.
  - apply ProverProofs.frame_ret.
  - ProverProofs.frame_auto. apply IH.
Qed.

(** One run of [prove] calls the proof engine at most once. *)
Lemma prove_engine_once env task s :
  ∃ d s' new,
    prove env task s = (Done d, s')
    ∧ stack s' = stack s
    ∧ calls s' = calls s ++ new
    ∧ (count_calls isEngineCall new ≤ 1)%nat
    ∧ count_calls ProverLifecycle.isPeekCall new = 0%nat.
Proof.
  assert (∀ fetched : list Call,
            forallb ProverLifecycle.isTraceCall fetched = true →
            count_calls isEngineCall fetched = 0%nat
            ∧ count_calls ProverLifecycle.isPeekCall fetched = 0%nat) as Hfetched.
  { intros fetched HF. split.
    - apply (ProverProofs.count_calls_none _ ProverLifecycle.isTraceCall); [by intros []|done].
    - apply (ProverProofs.count_calls_none _ ProverLifecycle.isTraceCall); [by intros []|done]. }
  unfold prove, Prover_Type.
  destruct (cfg_ProofType env);
    try (eexists _, _, []; split; [reflexivity|]; rewrite app_nil_r; simpl;
         repeat split; first [done | unfold count_calls; simpl; lia]).
  - unfold proveChunk.
    destruct (TaskMsg_ChunkTaskDetail (Task task)) as [detail|].
    + unfold getSortedTracesByHashes, mbind, M_bind, mret, M_ret.
      destruct (frame_traces env (BlockHashes detail) [] s)
        as (r & s1 & E & St & fetched & C & F).
      cbv beta. rewrite E. destruct (Hfetched fetched F) as [He Hp].
      destruct r as [e|traces]; simpl.
      * eexists _, _, fetched. split; [reflexivity|]. rewrite He, Hp.
        repeat split; first [done | unfold count_calls; simpl; lia].
      * unfold history, log. simpl.
        destruct (ProveChunk env _ _ _);
          eexists _, _, (fetched ++ [_]); (split; [reflexivity|]); simpl;
          rewrite C, <- app_assoc, !ProverProofs.count_calls_app, He, Hp;
          repeat split; first [done | unfold count_calls; simpl; lia].
    + unfold mbind, M_bind, mret, M_ret.
      eexists _, _, []. split; [reflexivity|]. rewrite app_nil_r.
      repeat split; first [done | unfold count_calls; simpl; lia].
  - unfold proveBatch, mbind, M_bind, mret, M_ret, history, log.
    destruct (TaskMsg_BatchTaskDetail (Task task)) as [detail|]; simpl.
    + destruct (ProveBatch env _ _ _ _);
        eexists _, _, [_]; (split; [reflexivity|]); repeat split; first [done | unfold count_calls; simpl; lia].
    + eexists _, _, []. split; [reflexivity|]. rewrite app_nil_r.
      repeat split; first [done | unfold count_calls; simpl; lia].
Qed.

(** One iteration never calls the proof engine more often than the retry
    budget of the queued task allows, and uses the budget up. *)
Lemma proveAndSubmit_budget env s :
  ProverLifecycle.noWork env →
  ∃ r s' new,
    proveAndSubmit env s = (Done r, s')
    ∧ calls s' = calls s ++ new
    ∧ (count_calls isEngineCall new + ProverLifecycle.budget s'
       ≤ ProverLifecycle.budget s)%nat
    ∧ count_calls ProverLifecycle.isPeekCall new = 1%nat.
Proof.
  intros Hwork.
  destruct (stack s) as [task|] eqn:Hq;
    [destruct (PeekFault env (calls s)) as [e|] eqn:Hpeek|].
  2: {
    rewrite (ProverProofs.proveAndSubmit_peeked env s task Hq Hpeek).
    assert (∀ d s2 t pre,
              stack s2 = Some t → ID (Task t) = ID (Task task) →
              calls s2 = calls s ++ pre →
              ∃ r s' sub,
                defer_ (signAndSubmitProof env d) (λ _, deleteTask env (ID (Task task))) s2
                = (Done r, s')
                ∧ calls s' = calls s ++ pre ++ sub
                ∧ count_calls isEngineCall sub = 0%nat
                ∧ count_calls ProverLifecycle.isPeekCall sub = 0%nat
                ∧ (ProverLifecycle.budget s' ≤ Z.to_nat (3 - Times t))%nat) as Hfinish.
    { intros d s2 t pre Hq2 Hid Hc2.
      rewrite <- Hid.
      destruct (ProverProofs.defer_submit_delete env d s2 t Hq2)
        as (r & s' & sub & E & C & F & St).
      exists r, s', (CallSign d :: sub ++ [CallDelete (ID (Task t))]).
      split; [exact E|]. split; [by rewrite C, Hc2, <- !app_assoc|].
      change (CallSign d :: sub ++ [CallDelete (ID (Task t))])
        with ([CallSign d] ++ sub ++ [CallDelete (ID (Task t))]).
      rewrite !ProverProofs.count_calls_app.
      rewrite (ProverProofs.count_calls_none isEngineCall isSubmitProofCall sub);
        [|by intros []|done].
      rewrite (ProverProofs.count_calls_none ProverLifecycle.isPeekCall isSubmitProofCall sub);
        [|by intros []|done].
      split; [done|]. split; [done|].
      unfold ProverLifecycle.budget. rewrite St.
      destruct (DeleteFault env _); simpl; lia. }
    destruct (decide (Times task ≤ 2)) as [Hle|Hgt].
    - destruct (UpdateTimesFault env (calls s ++ [CallPeek])) as [e|].
      + eexists _, _, _. split; [reflexivity|]. simpl. split; [reflexivity|].
        unfold ProverLifecycle.budget. simpl. rewrite Hq. done.
      + edestruct (prove_engine_once env) as (d & s2 & proving & -> & St & C & He & Hp).
        edestruct (Hfinish d s2 {| Task := Task task; Times := Times task + 1 |}
                     ([CallPeek; CallUpdateTimes (ID (Task task)) (Times task + 1)] ++ proving))
          as (r & s' & sub & E & C' & He' & Hp' & Hb); [exact St|done| |].
        { rewrite C. simpl. by rewrite <- !app_assoc. }
        eexists r, s', _. split; [exact E|]. split; [exact C'|].
        rewrite !ProverProofs.count_calls_app, He', Hp', Hp.
        unfold ProverLifecycle.budget at 2. rewrite Hq. simpl in *.
        change (count_calls isEngineCall
                  [CallPeek; CallUpdateTimes (ID (Task task)) (Times task + 1)]) with 0%nat.
        split; [lia|]. reflexivity.
    - edestruct (Hfinish (poisonedDetail task)
                   {| stack := Some task; calls := calls s ++ [CallPeek] |} task [CallPeek])
        as (r & s' & sub & E & C' & He' & Hp' & Hb); [done|done|done|].
      eexists r, s', _. split; [exact E|]. split; [exact C'|].
      rewrite !ProverProofs.count_calls_app, He', Hp'.
      unfold ProverLifecycle.budget at 2. rewrite Hq. split; [simpl; lia|reflexivity]. }
  all: destruct s as [q cs]; simpl in *; subst q;
    run; rewrite ?Hpeek; simpl;
    repeat (case_match; simplify_eq; simpl);
    try (match goal with H : ProverTasks _ _ _ = inr (Some _) |- _ =>
           by destruct (Hwork _ _ _ H) end);
    eexists _, _, _; (split; [reflexivity|]); simpl;
    rewrite <- ?app_assoc; simpl; (split; [reflexivity|]);
    unfold ProverLifecycle.budget; simpl; done.
Qed.

(** X10. The retry budget holds across iterations.  While the
    coordinator hands out no new task, any number of iterations of
    [ProveLoop] on a queue that holds a task with retry counter [Times]
    calls the proof engine at most [3 - Times] times in all (never, for
    a counter of 3 or more), whatever fails in between, a [Delete] that
    keeps the task in the queue included; each iteration peeks once, so
    errors do not end the loop. *)
Theorem X10_retry_budget_across_iterations env fuel :
  ProverLifecycle.noWork env →
  ∀ s,
    ProverLifecycle.stopChan_closed s = false →
    ∃ s' new,
      ProverLifecycle.ProveLoop env fuel s = (Done (), s')
      ∧ calls (ProverLifecycle.prover s') = calls (ProverLifecycle.prover s) ++ new
      ∧ (count_calls isEngineCall new ≤ ProverLifecycle.budget (ProverLifecycle.prover s))%nat
      ∧ count_calls ProverLifecycle.isPeekCall new = fuel
      ∧ ProverLifecycle.stopChan_closed s' = false.
Proof.
  intros Hwork. induction fuel as [|fuel IH]; intros s Hopen.
  - exists s, []. simpl. rewrite app_nil_r. repeat split; try done.
    unfold count_calls. simpl. lia.
  - simpl. rewrite Hopen. unfold mbind, M_bind, ProverLifecycle.lift.
    destruct (proveAndSubmit_budget env (ProverLifecycle.prover s) Hwork)
      as (r & p1 & new1 & E & C & Hb & Hp).
    rewrite E.
    edestruct (IH {| ProverLifecycle.prover := p1;
                     ProverLifecycle.priv := ProverLifecycle.priv s;
                     ProverLifecycle.isClosed := ProverLifecycle.isClosed s;
                     ProverLifecycle.stopChan_closed := ProverLifecycle.stopChan_closed s;
                     ProverLifecycle.stack_Close_calls :=
                       ProverLifecycle.stack_Close_calls s |})
      as (s' & new2 & E2 & C2 & Hb2 & Hp2 & Hopen2); [exact Hopen|].
    exists s', (new1 ++ new2). split; [exact E2|]. simpl in *.
    split; [by rewrite C2, C, <- app_assoc|].
    rewrite !ProverProofs.count_calls_app, Hp, Hp2.
    split; [lia|]. split; [reflexivity|exact Hopen2].
Qed.

Lemma X10_witness :
  ∃ s' new,
    ProverLifecycle.ProveLoop ProverLifecycle.stuckEnv 6
      (ProverLifecycle.started (Some (ProverExamples.exampleTask 1))) = (Done (), s')
    ∧ calls (ProverLifecycle.prover s') = [] ++ new
    ∧ (count_calls isEngineCall new ≤ 2)%nat
    ∧ count_calls ProverLifecycle.isPeekCall new = 6%nat
    ∧ ProverLifecycle.stopChan_closed s' = false.
Proof.
  apply (X10_retry_budget_across_iterations ProverLifecycle.stuckEnv 6).
  - intros h req data. discriminate.
  - reflexivity.
Defined.

(** A run of the loop: the store refuses every [Delete], the task starts
    with counter 1, and in six iterations the engine is called twice. *)
Example ProveLoop_run :
  count_calls isEngineCall
    (calls (ProverLifecycle.prover
              (ProverLifecycle.ProveLoop ProverLifecycle.stuckEnv 6
                 (ProverLifecycle.started (Some (ProverExamples.exampleTask 1)))).2))
  = 2%nat
  ∧ stack (ProverLifecycle.prover
             (ProverLifecycle.ProveLoop ProverLifecycle.stuckEnv 6
                (ProverLifecycle.started (Some (ProverExamples.exampleTask 1)))).2)
    = Some (ProverExamples.exampleTask 3).
Proof. split; vm_compute; reflexivity. Qed.

End ProverMore.

(** * Further properties of the relayer *)

Module RelayerMore.
Import Relayer RelayerSpec.

Ltac run :=
  unfold ProcessCommittedBatches, finalizeVerified, submitFinalize, finalizeGuard,
    ProcessGasPriceOracle, SendCommitTx,
    db_UpdateRollupStatus, db_UpdateCommitTxHashAndRollupStatus,
    db_UpdateFinalizeTxHashAndRollupStatus, db_UpdateL2GasOracleStatusAndOracleTxHash,
    db_UpdateSkippedBatches, run_UpdateSkippedBatches, db_GetLatestBatch,
    db_GetCommittedBatches, db_GetBlockBatches, db_GetLatestFinalizingOrFinalizedBatch,
    db_GetVerifiedProofAndInstanceCommitmentsByHash, l2Client_SuggestGasPrice,
    Sender_SendTransaction, dbUpdate, Inc, log, history, modify_db,
    processingBatchesCommitment_Store, processingFinalization_Store,
    get_lastGasPrice, set_lastGasPrice, defer_, panic, mbind, M_bind, mret, M_ret;
  simpl.

(** ** Gas price oracle *)

(** X11. [ProcessGasPriceOracle] sends at most one transaction, and sends
    one only for a latest batch that is [GasOraclePending], with a
    suggested price that was fetched, meets the update condition and
    packs; when it sends nothing, the last applied price, the database
    and the registries are left as they were. *)
Theorem X11_oracle_sends_only_when_due env s :
  ∃ s' new,
    ProcessGasPriceOracle env s = (Done (), s')
    ∧ calls s' = calls s ++ new
    ∧ (count_calls isSendCall new ≤ 1)%nat
    ∧ (count_calls isSendCall new = 1%nat →
       ∃ batch suggestGasPrice data,
         GetLatestBatch env (calls s) = inr batch
         ∧ OracleStatus batch = GasOraclePending
         ∧ SuggestGasPrice env (calls s ++ [CallGetLatestBatch]) = inr suggestGasPrice
         ∧ shouldUpdate env (lastGasPrice s) (to_uint64 (BigInt_Int64 suggestGasPrice)) = true
         ∧ PackSetL2BaseFee env suggestGasPrice = inr data)
    ∧ (count_calls isSendCall new = 0%nat → sameMemory s s' ∧ db s' = db s).
Proof.
  destruct s as [table last commits finals cs]. run.
  destruct (GetLatestBatch env cs) as [e|batch] eqn:HB; simpl.
  { eexists _, [_]. split; [reflexivity|]. simpl. split; [done|].
    unfold count_calls. simpl. split; [lia|]. split; [lia|]. done. }
  destruct (decide (OracleStatus batch = GasOraclePending)) as [Hp|Hp]; simpl.
  2: { eexists _, [_]. split; [reflexivity|]. simpl. split; [done|].
       unfold count_calls. simpl. split; [lia|]. split; [lia|]. done. }
  destruct (SuggestGasPrice env _) as [e|price] eqn:HS; simpl.
  { eexists _, [_; _]. split; [reflexivity|]. simpl. rewrite <- app_assoc.
    split; [done|]. unfold count_calls. simpl. split; [lia|]. split; [lia|]. done. }
  destruct (shouldUpdate env last _) eqn:Hshould; simpl.
  2: { eexists _, [_; _]. split; [reflexivity|]. simpl. rewrite <- app_assoc.
       split; [done|]. unfold count_calls. simpl. split; [lia|]. split; [lia|]. done. }
  destruct (PackSetL2BaseFee env price) as [e|data] eqn:HP; simpl.
  { eexists _, [_; _]. split; [reflexivity|]. simpl. rewrite <- app_assoc.
    split; [done|]. unfold count_calls. simpl. split; [lia|]. split; [lia|]. done. }
  destruct (SendTransaction env _ _ _ _ _) as [e|hash]; simpl.
  { eexists _, [_; _; _]. split; [reflexivity|]. simpl. rewrite <- !app_assoc.
    split; [done|]. unfold count_calls. simpl. split; [lia|].
    split; [|lia]. intros _. eauto 10. }
  destruct (WriteFault env _ _); simpl;
    eexists _, [_; _; _; _]; (split; [reflexivity|]); simpl; rewrite <- !app_assoc;
    (split; [done|]); unfold count_calls; simpl; (split; [lia|]);
    (split; [|lia]); intros _; eauto 10.
Qed.

(** X12. The first run of a freshly constructed relayer on a pending
    batch always sends the update: the last applied price starts at zero,
    and then neither the floor nor the difference is looked at. *)
Theorem X12_first_update_always_sent world table cfg found r batch suggestGasPrice data :
  Reconcile.NewLayer2Relayer world table cfg found = inr r →
  GetLatestBatch world [] = inr batch →
  OracleStatus batch = GasOraclePending →
  SuggestGasPrice world [CallGetLatestBatch] = inr suggestGasPrice →
  PackSetL2BaseFee world suggestGasPrice = inr data →
  ∃ s' rest,
    ProcessGasPriceOracle (Reconcile.fixed r) (Reconcile.relayer (Reconcile.fields r))
    = (Done (), s')
    ∧ calls s' = [CallGetLatestBatch; CallSuggestGasPrice;
                  CallSendTransaction gasOracleSender (BlockBatch_Hash batch)
                    (Reconcile.cfg_GasPriceOracleContractAddress cfg) data] ++ rest.
Proof.
  unfold Reconcile.NewLayer2Relayer. intros Hnew HB Hp HS HP.
  repeat case_match; simplify_eq; simpl.
  all: run; rewrite HB; simpl; rewrite decide_True by done; simpl; rewrite HS; simpl;
    unfold shouldUpdate; simpl; rewrite HP; simpl;
    destruct (SendTransaction world _ _ _ _ _); simpl;
    [|destruct (WriteFault world _ _); simpl];
    eexists _, _; (split; [reflexivity|]); simpl; reflexivity.
Qed.

Lemma X12_witness :
  ∃ r,
    Reconcile.NewLayer2Relayer
      (RelayerExamples.exampleEnv ProvingTaskProved (inl RelayerExamples.noRows)
         (None, None) (inr RelayerExamples.txHash) 7)
      {[ "0xabc" := RelayerExamples.committedRow ]}
      Reconcile.exampleConfig Reconcile.exampleConstruction = inr r
    ∧ ∃ s' rest,
        ProcessGasPriceOracle (Reconcile.fixed r) (Reconcile.relayer (Reconcile.fields r))
        = (Done (), s')
        ∧ calls s' = [CallGetLatestBatch; CallSuggestGasPrice;
                      CallSendTransaction gasOracleSender "0xabc" "0xoracle" []] ++ rest.
Proof.
  eexists. split; [reflexivity|].
  eapply (X12_first_update_always_sent
            (RelayerExamples.exampleEnv ProvingTaskProved (inl RelayerExamples.noRows)
               (None, None) (inr RelayerExamples.txHash) 7)
            {[ "0xabc" := RelayerExamples.committedRow ]}
            Reconcile.exampleConfig Reconcile.exampleConstruction _
            (RelayerExamples.exampleBatch ProvingTaskProved 1000000000000)
            1000000000 []); reflexivity.
Defined.

(** X13. Once a price has been applied, a suggested price below the
    configured floor never triggers an update: the run consists of the
    read of the latest batch and, for a pending batch, the read of the
    suggested price, and leaves the relayer as it was. *)
Theorem X13_below_floor_never_sent env s batch suggestGasPrice :
  lastGasPrice s ≠ 0 →
  GetLatestBatch env (calls s) = inr batch →
  SuggestGasPrice env (calls s ++ [CallGetLatestBatch]) = inr suggestGasPrice →
  to_uint64 (BigInt_Int64 suggestGasPrice) < minGasPrice env →
  ProcessGasPriceOracle env s
  = (Done (),
     {| db := db s; lastGasPrice := lastGasPrice s;
        processingBatchesCommitment := processingBatchesCommitment s;
        processingFinalization := processingFinalization s;
        calls := calls s
                   ++ CallGetLatestBatch
                   :: (if decide (OracleStatus batch = GasOraclePending)
                       then [CallSuggestGasPrice] else []) |}).
Proof.
  intros Hlast HB HS Hfloor. destruct s as [table last commits finals cs]. simpl in *.
  run. rewrite HB. simpl.
  destruct (decide (OracleStatus batch = GasOraclePending)); simpl; [|done].
  rewrite HS. simpl. unfold shouldUpdate.
  rewrite (bool_decide_eq_false_2 (last = 0)) by done.
  rewrite (bool_decide_eq_false_2 (minGasPrice env ≤ _)) by lia. simpl.
  by rewrite <- app_assoc.
Qed.

Lemma X13_witness :
  ProcessGasPriceOracle
    {| minGasPrice := 2000000000; gasPriceDiff := 50000;
       gasPriceDiffPrecision := 1000000;
       FinalizeBatchIntervalSec := 600; RollupContractAddress := "0xrollup";
       GasPriceOracleContractAddress := "0xoracle";
       SecondsToUint64 := λ d, d; Keccak256Hash := λ b, b; HexToHash := λ _, [];
       PackSetL2BaseFee := λ _, inr []; PackCommitBatches := λ _, inr [];
       PackFinalizeBatchWithProof := λ _ _ _, inr [];
       SuggestGasPrice := λ _, inr 1000000000;
       SendTransaction := λ _ _ _ _ _, inr RelayerExamples.txHash;
       GetLatestBatch := λ _, inr (RelayerExamples.exampleBatch ProvingTaskProved 0);
       GetCommittedBatches := λ _ _, inr [];
       GetBlockBatches := λ _ _, inr [];
       GetLatestFinalizingOrFinalizedBatch := λ _, inl RelayerExamples.noRows;
       GetVerifiedProofAndInstanceCommitmentsByHash := λ _ _, inr (None, None);
       WriteFault := λ _ _, None;
       UpdateSkippedBatches := λ _ table, (inr 0, table) |}
    (RelayerExamples.exampleState 5000000000)
  = (Done (),
     {| db := {[ "0xabc" := RelayerExamples.committedRow ]};
        lastGasPrice := 5000000000;
        processingBatchesCommitment := ∅;
        processingFinalization := ∅;
        calls := [] ++ [CallGetLatestBatch; CallSuggestGasPrice] |}).
Proof.
  apply (X13_below_floor_never_sent _ (RelayerExamples.exampleState 5000000000)
           (RelayerExamples.exampleBatch ProvingTaskProved 0) 1000000000);
    [discriminate|reflexivity|reflexivity|vm_compute; reflexivity].
Defined.

(** X14. After a send that succeeded, the last applied price becomes the
    suggested price (as [uint64]) and the row of the batch becomes
    [GasOracleImporting] with the hash of the transaction, but only when
    the database accepts the write; when the write fails the price is not
    remembered, although the transaction has been sent. *)
Theorem X14_price_remembered_after_write env s batch suggestGasPrice data hash :
  GetLatestBatch env (calls s) = inr batch →
  OracleStatus batch = GasOraclePending →
  SuggestGasPrice env (calls s ++ [CallGetLatestBatch]) = inr suggestGasPrice →
  shouldUpdate env (lastGasPrice s) (to_uint64 (BigInt_Int64 suggestGasPrice)) = true →
  PackSetL2BaseFee env suggestGasPrice = inr data →
  SendTransaction env (calls s ++ [CallGetLatestBatch; CallSuggestGasPrice])
    gasOracleSender (BlockBatch_Hash batch) (GasPriceOracleContractAddress env) data
  = inr hash →
  ∃ s',
    ProcessGasPriceOracle env s = (Done (), s')
    ∧ calls s' = calls s
                   ++ [CallGetLatestBatch; CallSuggestGasPrice;
                       CallSendTransaction gasOracleSender (BlockBatch_Hash batch)
                         (GasPriceOracleContractAddress env) data;
                       CallUpdateL2GasOracleStatusAndOracleTxHash (BlockBatch_Hash batch)
                         GasOracleImporting (Hash_String hash)]
    ∧ processingBatchesCommitment s' = processingBatchesCommitment s
    ∧ processingFinalization s' = processingFinalization s
    ∧ match WriteFault env
              (calls s ++ [CallGetLatestBatch; CallSuggestGasPrice;
                           CallSendTransaction gasOracleSender (BlockBatch_Hash batch)
                             (GasPriceOracleContractAddress env) data])
              (CallUpdateL2GasOracleStatusAndOracleTxHash (BlockBatch_Hash batch)
                 GasOracleImporting (Hash_String hash)) with
      | None =>
          lastGasPrice s' = to_uint64 (BigInt_Int64 suggestGasPrice)
          ∧ db s' = alter (Reconcile.withOracle GasOracleImporting (Hash_String hash))
                      (BlockBatch_Hash batch) (db s)
      | Some _ => lastGasPrice s' = lastGasPrice s ∧ db s' = db s
      end.
Proof.
  intros HB Hp HS Hshould HP Hsend.
  destruct s as [table last commits finals cs]. simpl in *.
  run. rewrite HB. simpl. rewrite decide_True by done. simpl. rewrite HS. simpl.
  rewrite Hshould, HP. simpl. rewrite <- !app_assoc. simpl. rewrite Hsend. simpl.
  rewrite <- !app_assoc. simpl.
  destruct (WriteFault env _ _); simpl;
    eexists; (split; [reflexivity|]); simpl; rewrite <- ?app_assoc; done.
Qed.

Lemma X14_witness :
  ∃ s',
    ProcessGasPriceOracle
      (RelayerExamples.exampleEnv ProvingTaskProved (inl RelayerExamples.noRows)
         (None, None) (inr RelayerExamples.txHash) 50000)
      (RelayerExamples.exampleState 500000000) = (Done (), s')
    ∧ calls s' = [] ++ [CallGetLatestBatch; CallSuggestGasPrice;
                        CallSendTransaction gasOracleSender "0xabc" "0xoracle" [];
                        CallUpdateL2GasOracleStatusAndOracleTxHash "0xabc"
                          GasOracleImporting "0x0102"]
    ∧ processingBatchesCommitment s' = ∅
    ∧ processingFinalization s' = ∅
    ∧ lastGasPrice s' = to_uint64 (BigInt_Int64 1000000000)
    ∧ db s' = alter (Reconcile.withOracle GasOracleImporting "0x0102") "0xabc"
                {[ "0xabc" := RelayerExamples.committedRow ]}.
Proof.
  apply (X14_price_remembered_after_write
           (RelayerExamples.exampleEnv ProvingTaskProved (inl RelayerExamples.noRows)
              (None, None) (inr RelayerExamples.txHash) 50000)
           (RelayerExamples.exampleState 500000000)
           (RelayerExamples.exampleBatch ProvingTaskProved 1000000000000)
           1000000000 [] RelayerExamples.txHash); try reflexivity.
Defined.

(** X15. Where the threshold [lastGasPrice*gasPriceDiff/precision] is at
    most the last price and their sum fits 64 bits, the run on a pending
    batch sends the update exactly when the last price is zero, or the
    suggested price is at least the floor and differs from the last price
    by at least the threshold, the exact threshold included. *)
Theorem X15_threshold_rule_in_range env s batch suggestGasPrice data :
  GetLatestBatch env (calls s) = inr batch →
  OracleStatus batch = GasOraclePending →
  SuggestGasPrice env (calls s ++ [CallGetLatestBatch]) = inr suggestGasPrice →
  PackSetL2BaseFee env suggestGasPrice = inr data →
  0 < gasPriceDiffPrecision env →
  0 ≤ lastGasPrice s →
  expectedDelta env (lastGasPrice s) ≤ lastGasPrice s →
  lastGasPrice s + expectedDelta env (lastGasPrice s) < 2 ^ 64 →
  ∃ s' new,
    ProcessGasPriceOracle env s = (Done (), s')
    ∧ calls s' = calls s ++ new
    ∧ (count_calls isSendCall new ≤ 1)%nat
    ∧ (count_calls isSendCall new = 1%nat ↔
       lastGasPrice s = 0
       ∨ (minGasPrice env ≤ to_uint64 (BigInt_Int64 suggestGasPrice)
          ∧ expectedDelta env (lastGasPrice s)
            ≤ Z.abs (to_uint64 (BigInt_Int64 suggestGasPrice) - lastGasPrice s))).
Proof.
  intros HB Hp HS HP Hprec Hlast Hlow Hhigh.
  destruct (RelayerProofs.ProcessGasPriceOracle_sends_iff env s batch suggestGasPrice data
              HB Hp HS HP) as (s' & new & E & C & Hcount).
  exists s', new. split; [exact E|]. split; [exact C|].
  assert (0 ≤ to_uint64 (BigInt_Int64 suggestGasPrice) < 2 ^ 64) as Hnew.
  { unfold to_uint64. apply Z.mod_pos_bound. lia. }
  pose proof (RelayerProofs.shouldUpdate_in_range env (lastGasPrice s)
                (to_uint64 (BigInt_Int64 suggestGasPrice)) Hprec Hlast Hnew Hlow Hhigh)
    as Hrule.
  unfold specUpdateRule in Hrule.
  change (to_uint64 (lastGasPrice s * gasPriceDiff env) / gasPriceDiffPrecision env)
    with (expectedDelta env (lastGasPrice s)) in Hrule.
  rewrite <- Hrule, Hcount.
  destruct (shouldUpdate env _ _); split; try lia; split; try done; lia.
Qed.

Lemma X15_witness :
  ∃ s' new,
    ProcessGasPriceOracle
      (RelayerExamples.exampleEnv ProvingTaskProved (inl RelayerExamples.noRows)
         (None, None) (inr RelayerExamples.txHash) 50000)
      (RelayerExamples.exampleState 1052631578) = (Done (), s')
    ∧ calls s' = [] ++ new
    ∧ (count_calls isSendCall new ≤ 1)%nat
    ∧ (count_calls isSendCall new = 1%nat ↔
       1052631578 = 0
       ∨ (0 ≤ to_uint64 (BigInt_Int64 1000000000)
          ∧ expectedDelta
              (RelayerExamples.exampleEnv ProvingTaskProved (inl RelayerExamples.noRows)
                 (None, None) (inr RelayerExamples.txHash) 50000) 1052631578
            ≤ Z.abs (to_uint64 (BigInt_Int64 1000000000) - 1052631578))).
Proof.
  apply (X15_threshold_rule_in_range
           (RelayerExamples.exampleEnv ProvingTaskProved (inl RelayerExamples.noRows)
              (None, None) (inr RelayerExamples.txHash) 50000)
           (RelayerExamples.exampleState 1052631578)
           (RelayerExamples.exampleBatch ProvingTaskProved 1000000000000)
           1000000000 []); try reflexivity; vm_compute; done.
Defined.

(** X16. An update is not repeated for an unchanged price: after a run
    that sent the update for a suggested price and recorded it, a second
    run with the same suggested price sends nothing, even for a batch
    still [GasOraclePending], provided the threshold of that price is
    positive, at most the price, and their sum fits 64 bits. *)
Theorem X16_unchanged_price_not_resent env s batch suggestGasPrice data hash :
  (∀ h, GetLatestBatch env h = inr batch) →
  OracleStatus batch = GasOraclePending →
  (∀ h, SuggestGasPrice env h = inr suggestGasPrice) →
  PackSetL2BaseFee env suggestGasPrice = inr data →
  (∀ h sender id target payload, SendTransaction env h sender id target payload = inr hash) →
  Reconcile.writesAccepted env →
  shouldUpdate env (lastGasPrice s) (to_uint64 (BigInt_Int64 suggestGasPrice)) = true →
  0 < expectedDelta env (to_uint64 (BigInt_Int64 suggestGasPrice))
    ≤ to_uint64 (BigInt_Int64 suggestGasPrice) →
  to_uint64 (BigInt_Int64 suggestGasPrice)
  + expectedDelta env (to_uint64 (BigInt_Int64 suggestGasPrice)) < 2 ^ 64 →
  ∃ s' new,
    (ProcessGasPriceOracle env ≫= λ _, ProcessGasPriceOracle env) s = (Done (), s')
    ∧ calls s' = calls s ++ new
    ∧ count_calls isSendCall new = 1%nat
    ∧ lastGasPrice s' = to_uint64 (BigInt_Int64 suggestGasPrice).
Proof.
  intros HB Hp HS HP Hsend HW Hshould Hdelta Hfit.
  set (p := to_uint64 (BigInt_Int64 suggestGasPrice)) in *.
  assert (shouldUpdate env p p = false) as Hsame.
  { unfold shouldUpdate.
    set (d := expectedDelta env p) in *.
    rewrite (bool_decide_eq_false_2 (p = 0)) by lia.
    unfold to_uint64. rewrite !Z.mod_small by lia.
    rewrite (bool_decide_eq_false_2 (p + d ≤ p)) by lia.
    rewrite (bool_decide_eq_false_2 (p ≤ p - d)) by lia.
    by rewrite andb_false_r. }
  destruct s as [table last commits finals cs]. simpl in *.
  unfold mbind at 1. unfold M_bind at 1.
  run. rewrite !HB. simpl. rewrite !decide_True by done. simpl. rewrite !HS. simpl.
  fold p. rewrite Hshould, HP. simpl. rewrite Hsend. simpl. rewrite HW. simpl.
  rewrite HB. simpl. rewrite decide_True by done. simpl. rewrite HS. simpl.
  fold p. rewrite Hsame. simpl.
  eexists _, _. split; [reflexivity|]. simpl. rewrite <- !app_assoc. simpl.
  split; [reflexivity|]. done.
Qed.

Lemma X16_witness :
  ∃ s' new,
    (ProcessGasPriceOracle
       (RelayerExamples.exampleEnv ProvingTaskProved (inl RelayerExamples.noRows)
          (None, None) (inr RelayerExamples.txHash) 50000)
     ≫= λ _, ProcessGasPriceOracle
               (RelayerExamples.exampleEnv ProvingTaskProved (inl RelayerExamples.noRows)
                  (None, None) (inr RelayerExamples.txHash) 50000))
      (RelayerExamples.exampleState 0) = (Done (), s')
    ∧ calls s' = [] ++ new
    ∧ count_calls isSendCall new = 1%nat
    ∧ lastGasPrice s' = to_uint64 (BigInt_Int64 1000000000).
Proof.
  apply (X16_unchanged_price_not_resent
           (RelayerExamples.exampleEnv ProvingTaskProved (inl RelayerExamples.noRows)
              (None, None) (inr RelayerExamples.txHash) 50000)
           (RelayerExamples.exampleState 0)
           (RelayerExamples.exampleBatch ProvingTaskProved 1000000000000)
           1000000000 [] RelayerExamples.txHash); try reflexivity; vm_compute; done.
Defined.

(** ** Commit *)

Lemma recordCommitting_db env batchData txHash :
  Reconcile.writesAccepted env →
  ∀ s, ∃ s',
    recordCommitting env batchData txHash s = (Done (map batchHashHex batchData), s')
    ∧ sameMemory s s'
    ∧ ∀ hash,
        (hash ∈ map batchHashHex batchData →
         db s' !! hash
         = Reconcile.withCommit (Hash_String txHash) RollupCommitting <$> db s !! hash)
        ∧ (hash ∉ map batchHashHex batchData → db s' !! hash = db s !! hash).
Proof.
  intros HW. induction batchData as [|batch rest IH]; intros s.
  - exists s. split; [done|]. split; [done|]. intros hash. split; [|done].
    intros Hin. by apply elem_of_nil in Hin.
  - destruct s as [table last commits finals cs].
    cbn [recordCommitting]. run. rewrite HW. simpl.
    edestruct IH as (s' & E & Hmem & Hdb). rewrite E. simpl.
    exists s'. split; [done|]. split; [exact Hmem|].
    intros hash. destruct (Hdb hash) as [Hin Hout]. simpl in *.
    fold (batchHashHex batch).
    destruct (decide (hash = batchHashHex batch)) as [->|Hne].
    + split; [|intros H; destruct H; by left]. intros _.
      destruct (decide (batchHashHex batch ∈ map batchHashHex rest)) as [Hr|Hr].
      * rewrite (Hin Hr), lookup_alter_eq. unfold batchHashHex.
        by destruct (table !! Hash_Hex (BatchData_Hash batch)).
      * rewrite (Hout Hr), lookup_alter_eq. done.
    + split.
      * intros [?|Hr]%elem_of_cons; [done|].
        rewrite (Hin Hr), lookup_alter_ne by done. done.
      * intros Hr. rewrite Hout, lookup_alter_ne; [done|done|].
        intros H. apply Hr. by right.
Qed.

(** X17. After [SendCommitTx] has sent the transaction, with a database
    that accepts the writes, the row of every batch of the list is
    [RollupCommitting] and carries the hash of the transaction, and the
    row of every other batch is as it was. *)
Theorem X17_commit_marks_listed_batches env s batchData calldata txHash :
  batchData ≠ [] →
  PackCommitBatches env (map Batch batchData) = inr calldata →
  SendTransaction env (calls s) rollupSender (commitTxID env batchData)
    (RollupContractAddress env) calldata = inr txHash →
  Reconcile.writesAccepted env →
  ∃ s',
    SendCommitTx env batchData s = (Done None, s')
    ∧ ∀ hash,
        (hash ∈ map batchHashHex batchData →
         db s' !! hash
         = Reconcile.withCommit (Hash_String txHash) RollupCommitting <$> db s !! hash)
        ∧ (hash ∉ map batchHashHex batchData → db s' !! hash = db s !! hash).
Proof.
  intros Hne Hpack Hsend HW. destruct s as [table last commits finals cs].
  unfold SendCommitTx. rewrite decide_False by (by destruct batchData).
  rewrite Hpack. unfold Sender_SendTransaction, Inc, log, history, mbind, M_bind,
    mret, M_ret. simpl in *.
  fold (commitTxID env batchData). rewrite Hsend.
  edestruct (recordCommitting_db env batchData txHash HW) as (s1 & E & Hmem & Hdb).
  rewrite E. unfold processingBatchesCommitment_Store. simpl.
  eexists. split; [reflexivity|]. simpl. exact Hdb.
Qed.

Lemma X17_witness :
  ∃ s',
    SendCommitTx
      (RelayerExamples.exampleEnv ProvingTaskVerified (inl RelayerExamples.noRows)
         (None, None) (inr RelayerExamples.txHash) 50000)
      RelayerExamples.exampleBatchData Reconcile.halfKnown
    = (Done None, s')
    ∧ ∀ hash,
        (hash ∈ map batchHashHex RelayerExamples.exampleBatchData →
         db s' !! hash
         = Reconcile.withCommit (Hash_String RelayerExamples.txHash) RollupCommitting
             <$> db Reconcile.halfKnown !! hash)
        ∧ (hash ∉ map batchHashHex RelayerExamples.exampleBatchData →
           db s' !! hash = db Reconcile.halfKnown !! hash).
Proof.
  apply (X17_commit_marks_listed_batches
           (RelayerExamples.exampleEnv ProvingTaskVerified (inl RelayerExamples.noRows)
              (None, None) (inr RelayerExamples.txHash) 50000)
           Reconcile.halfKnown
           RelayerExamples.exampleBatchData [] RelayerExamples.txHash);
    [discriminate|reflexivity|reflexivity|].
  intros h c. reflexivity.
Defined.

(** ** Finalize *)

(** The three ways the sweep of skipped batches can end, up to the
    reading of the first committed batch. *)
Ltac sweep env cs table HC HB :=
  unfold ProcessCommittedBatches, db_UpdateSkippedBatches, run_UpdateSkippedBatches,
    db_GetCommittedBatches, db_GetBlockBatches, Inc, log, history,
    mbind, M_bind, mret, M_ret; simpl;
  let e := fresh "e" in
  let count := fresh "count" in
  let table' := fresh "table'" in
  destruct (UpdateSkippedBatches env cs table) as [[e|count] table'];
    unfold Reconcile.sweepCount; simpl;
    [|destruct (decide (0 < count))]; simpl;
    rewrite HC; simpl; rewrite HB; simpl.

(** The start of [ProcessCommittedBatches] for a verified batch, with the
    calls it makes before the [Verified] case. *)
Lemma ProcessCommittedBatches_verified_log env s hash tl batch rest :
  (∀ h, GetCommittedBatches env h 1 = inr (hash :: tl)) →
  (∀ h, GetBlockBatches env h hash = inr (batch :: rest)) →
  ProvingStatus_ batch = ProvingTaskVerified →
  ProcessCommittedBatches env s
  = finalizeVerified env hash batch
      {| db := (UpdateSkippedBatches env (calls s) (db s)).2;
         lastGasPrice := lastGasPrice s;
         processingBatchesCommitment := processingBatchesCommitment s;
         processingFinalization := processingFinalization s;
         calls := calls s ++ CallUpdateSkippedBatches
                    :: Reconcile.sweepCount (UpdateSkippedBatches env (calls s) (db s)).1
                    ++ [CallGetCommittedBatches 1; CallGetBlockBatches hash] |}.
Proof.
  intros HC HB Hst. destruct s as [table last commits finals cs].
  sweep env cs table HC HB; rewrite Hst; by rewrite <- !app_assoc.
Qed.

Lemma finalizeVerified_proceeds env hash batch s :
  proceedsToFinalize env batch (GetLatestFinalizingOrFinalizedBatch env (calls s)) →
  finalizeVerified env hash batch s
  = (defer_ (submitFinalize env hash) (finalizeGuard env hash) ≫= λ _, mret ())
      {| db := db s; lastGasPrice := lastGasPrice s;
         processingBatchesCommitment := processingBatchesCommitment s;
         processingFinalization := processingFinalization s;
         calls := calls s ++ [CallGetLatestFinalizingOrFinalizedBatch] |}.
Proof.
  intros Hgo. destruct s as [table last commits finals cs]. simpl in *.
  unfold finalizeVerified, db_GetLatestFinalizingOrFinalizedBatch, log, history, panic.
  unfold mbind at 1 2 3 4. unfold M_bind at 1 2 3 4. unfold mret at 1, M_ret at 1. simpl.
  destruct (GetLatestFinalizingOrFinalizedBatch env cs) as [err|previousBatch]; simpl in *.
  - unfold mret at 1, M_ret at 1. simpl.
    rewrite decide_False by (intros H; by apply H). done.
  - destruct Hgo as (t & u & -> & -> & Hlate). simpl.
    unfold mret at 1, M_ret at 1. simpl.
    rewrite bool_decide_eq_false_2 by lia. done.
Qed.

(** The finalize path when the proof is sent. *)
Lemma ProcessCommittedBatches_submitted
  env s hash tl batch rest proofBuffer icBuffer data txHash :
  (∀ h, GetCommittedBatches env h 1 = inr (hash :: tl)) →
  (∀ h, GetBlockBatches env h hash = inr (batch :: rest)) →
  ProvingStatus_ batch = ProvingTaskVerified →
  (∀ h, proceedsToFinalize env batch (GetLatestFinalizingOrFinalizedBatch env h)) →
  (∀ h, GetVerifiedProofAndInstanceCommitmentsByHash env h hash
        = inr (Some proofBuffer, Some icBuffer)) →
  buffersRejected (Some proofBuffer) (Some icBuffer) = false →
  PackFinalizeBatchWithProof env (HexToHash env hash) (BufferToUint256Le proofBuffer)
    (BufferToUint256Le icBuffer) = inr data →
  (∀ h, SendTransaction env h rollupSender (hash +:+ "-finalize")
          (RollupContractAddress env) data = inr txHash) →
  ∃ s' pre,
    ProcessCommittedBatches env s = (Done (), s')
    ∧ calls s' = calls s ++ pre
                   ++ [CallSendTransaction rollupSender (hash +:+ "-finalize")
                         (RollupContractAddress env) data;
                       CallInc bridgeL2BatchesFinalizedTotalCounter 1;
                       CallUpdateFinalizeTxHashAndRollupStatus hash (Hash_String txHash)
                         RollupFinalizing]
    ∧ forallb isQuiet pre = true
    ∧ processingFinalization s'
      = <[hash +:+ "-finalize" := hash]> (processingFinalization s)
    ∧ processingBatchesCommitment s' = processingBatchesCommitment s
    ∧ lastGasPrice s' = lastGasPrice s
    ∧ (Reconcile.writesAccepted env →
       db s' = alter (Reconcile.withFinalize (Hash_String txHash) RollupFinalizing) hash
                 (UpdateSkippedBatches env (calls s) (db s)).2).
Proof.
  intros HC HB Hst HL HV Hok HP Hsend.
  destruct (RelayerProofs.ProcessCommittedBatches_verified env s hash tl batch rest HC HB Hst)
    as (pre & Hpre & ->).
  rewrite finalizeVerified_proceeds by apply HL.
  destruct s as [table last commits finals cs]. simpl in *.
  unfold buffersRejected in Hok. apply orb_false_elim in Hok as [Hp Hi].
  apply negb_false_iff, bool_decide_eq_true in Hp.
  apply negb_false_iff, bool_decide_eq_true in Hi.
  run. rewrite HV.
  rewrite decide_False by (intros H; by apply H).
  rewrite decide_False by (intros H; by apply H).
  rewrite HP. simpl. rewrite Hsend. simpl.
  destruct (WriteFault env _ _) eqn:HW; simpl;
    eexists _, (pre ++ [CallGetLatestFinalizingOrFinalizedBatch;
                        CallGetVerifiedProofAndInstanceCommitmentsByHash hash]);
    (split; [reflexivity|]); simpl; rewrite <- !app_assoc; simpl;
    (split; [reflexivity|]);
    (split; [rewrite forallb_app, Hpre; reflexivity|]);
    (split; [reflexivity|]); (split; [reflexivity|]); (split; [reflexivity|]);
    intros Hacc; [by rewrite Hacc in HW|reflexivity].
Qed.

(** X18. The finalize path, when everything succeeds: for a verified
    batch past the rate limit whose stored proof and commitment are
    present with lengths that are multiples of 32, one transaction is
    sent under the correlation identifier [<hash>-finalize], the batch is
    recorded as [RollupFinalizing] with the hash of the transaction, the
    identifier is inserted into the finalize registry with the batch hash,
    and the deferred guard writes nothing. *)
Theorem X18_finalize_submitted
  env s hash tl batch rest proofBuffer icBuffer data txHash :
  (∀ h, GetCommittedBatches env h 1 = inr (hash :: tl)) →
  (∀ h, GetBlockBatches env h hash = inr (batch :: rest)) →
  ProvingStatus_ batch = ProvingTaskVerified →
  (∀ h, proceedsToFinalize env batch (GetLatestFinalizingOrFinalizedBatch env h)) →
  (∀ h, GetVerifiedProofAndInstanceCommitmentsByHash env h hash
        = inr (Some proofBuffer, Some icBuffer)) →
  buffersRejected (Some proofBuffer) (Some icBuffer) = false →
  PackFinalizeBatchWithProof env (HexToHash env hash) (BufferToUint256Le proofBuffer)
    (BufferToUint256Le icBuffer) = inr data →
  (∀ h, SendTransaction env h rollupSender (hash +:+ "-finalize")
          (RollupContractAddress env) data = inr txHash) →
  ∃ s' pre,
    ProcessCommittedBatches env s = (Done (), s')
    ∧ calls s' = calls s ++ pre
                   ++ [CallSendTransaction rollupSender (hash +:+ "-finalize")
                         (RollupContractAddress env) data;
                       CallInc bridgeL2BatchesFinalizedTotalCounter 1;
                       CallUpdateFinalizeTxHashAndRollupStatus hash (Hash_String txHash)
                         RollupFinalizing]
    ∧ forallb isQuiet pre = true
    ∧ processingFinalization s'
      = <[hash +:+ "-finalize" := hash]> (processingFinalization s)
    ∧ processingBatchesCommitment s' = processingBatchesCommitment s
    ∧ lastGasPrice s' = lastGasPrice s
    ∧ (Reconcile.writesAccepted env →
       db s' = alter (Reconcile.withFinalize (Hash_String txHash) RollupFinalizing) hash
                 (UpdateSkippedBatches env (calls s) (db s)).2).
Proof.
  intros HC HB Hst HL HV Hok HP Hsend.
  destruct (RelayerProofs.ProcessCommittedBatches_verified env s hash tl batch rest HC HB Hst)
    as (pre & Hpre & ->).
  rewrite finalizeVerified_proceeds by apply HL.
  destruct s as [table last commits finals cs]. simpl in *.
  unfold buffersRejected in Hok. apply orb_false_elim in Hok as [Hp Hi].
  apply negb_false_iff, bool_decide_eq_true in Hp.
  apply negb_false_iff, bool_decide_eq_true in Hi.
  run. rewrite HV.
  rewrite decide_False by (intros H; by apply H).
  rewrite decide_False by (intros H; by apply H).
  rewrite HP. simpl. rewrite Hsend. simpl.
  destruct (WriteFault env _ _) eqn:HW; simpl;
    eexists _, (pre ++ [CallGetLatestFinalizingOrFinalizedBatch;
                        CallGetVerifiedProofAndInstanceCommitmentsByHash hash]);
    (split; [reflexivity|]); simpl; rewrite <- !app_assoc; simpl;
    (split; [reflexivity|]);
    (split; [rewrite forallb_app, Hpre; reflexivity|]);
    (split; [reflexivity|]); (split; [reflexivity|]); (split; [reflexivity|]);
    intros Hacc; [by rewrite Hacc in HW|reflexivity].
Qed.

Lemma X18_witness :
  ∃ s' pre,
    ProcessCommittedBatches
      (RelayerExamples.exampleEnv ProvingTaskVerified (inl RelayerExamples.noRows)
         (Some (replicate 32 Byte.x00), Some (replicate 64 Byte.x01))
         (inr RelayerExamples.txHash) 50000)
      (RelayerExamples.exampleState 0) = (Done (), s')
    ∧ calls s' = [] ++ pre
                   ++ [CallSendTransaction rollupSender ("0xabc" +:+ "-finalize")
                         "0xrollup" [];
                       CallInc bridgeL2BatchesFinalizedTotalCounter 1;
                       CallUpdateFinalizeTxHashAndRollupStatus "0xabc"
                         (Hash_String RelayerExamples.txHash) RollupFinalizing]
    ∧ forallb isQuiet pre = true
    ∧ processingFinalization s' = <["0xabc" +:+ "-finalize" := "0xabc"]> ∅
    ∧ processingBatchesCommitment s' = ∅
    ∧ lastGasPrice s' = 0
    ∧ (Reconcile.writesAccepted
         (RelayerExamples.exampleEnv ProvingTaskVerified (inl RelayerExamples.noRows)
            (Some (replicate 32 Byte.x00), Some (replicate 64 Byte.x01))
            (inr RelayerExamples.txHash) 50000) →
       db s' = alter (Reconcile.withFinalize (Hash_String RelayerExamples.txHash)
                        RollupFinalizing) "0xabc"
                 {[ "0xabc" := RelayerExamples.committedRow ]}).
Proof.
  apply (X18_finalize_submitted
           (RelayerExamples.exampleEnv ProvingTaskVerified (inl RelayerExamples.noRows)
              (Some (replicate 32 Byte.x00), Some (replicate 64 Byte.x01))
              (inr RelayerExamples.txHash) 50000)
           (RelayerExamples.exampleState 0) "0xabc" []
           (RelayerExamples.exampleBatch ProvingTaskVerified 1000000000000) []
           (replicate 32 Byte.x00) (replicate 64 Byte.x01) [] RelayerExamples.txHash);
    try (intros; reflexivity).
Defined.

(** X19. A finalize transaction that the sender refuses, for whatever
    reason (a full pending queue and a missing account included), leaves
    the batch marked [RollupFinalizationSkipped] by the deferred guard.
    The calls of the invocation are the sweep with its count, the four
    reads, the send and the write of the guard, and no other: nothing is
    counted as finalized, no transaction hash is recorded and the
    registries are as they were. *)
Theorem X19_refused_finalize_marked_skipped
  env s hash tl batch rest proofBuffer icBuffer data err :
  (∀ h, GetCommittedBatches env h 1 = inr (hash :: tl)) →
  (∀ h, GetBlockBatches env h hash = inr (batch :: rest)) →
  ProvingStatus_ batch = ProvingTaskVerified →
  (∀ h, proceedsToFinalize env batch (GetLatestFinalizingOrFinalizedBatch env h)) →
  (∀ h, GetVerifiedProofAndInstanceCommitmentsByHash env h hash
        = inr (Some proofBuffer, Some icBuffer)) →
  buffersRejected (Some proofBuffer) (Some icBuffer) = false →
  PackFinalizeBatchWithProof env (HexToHash env hash) (BufferToUint256Le proofBuffer)
    (BufferToUint256Le icBuffer) = inr data →
  (∀ h, SendTransaction env h rollupSender (hash +:+ "-finalize")
          (RollupContractAddress env) data = inl err) →
  ∃ s',
    ProcessCommittedBatches env s = (Done (), s')
    ∧ calls s' = calls s ++ CallUpdateSkippedBatches
                   :: Reconcile.sweepCount (UpdateSkippedBatches env (calls s) (db s)).1
                   ++ [CallGetCommittedBatches 1; CallGetBlockBatches hash;
                       CallGetLatestFinalizingOrFinalizedBatch;
                       CallGetVerifiedProofAndInstanceCommitmentsByHash hash;
                       CallSendTransaction rollupSender (hash +:+ "-finalize")
                         (RollupContractAddress env) data;
                       CallUpdateRollupStatus hash RollupFinalizationSkipped]
    ∧ sameMemory s s'
    ∧ (Reconcile.writesAccepted env →
       db s' = alter (withRollupStatus RollupFinalizationSkipped) hash
                 (UpdateSkippedBatches env (calls s) (db s)).2).
Proof.
  intros HC HB Hst HL HV Hok HP Hsend.
  rewrite (ProcessCommittedBatches_verified_log env s hash tl batch rest HC HB Hst).
  rewrite finalizeVerified_proceeds by apply HL.
  destruct s as [table last commits finals cs]. simpl in *.
  unfold buffersRejected in Hok. apply orb_false_elim in Hok as [Hp Hi].
  apply negb_false_iff, bool_decide_eq_true in Hp.
  apply negb_false_iff, bool_decide_eq_true in Hi.
  run. rewrite HV.
  rewrite decide_False by (intros H; by apply H).
  rewrite decide_False by (intros H; by apply H).
  rewrite HP. simpl. rewrite Hsend. simpl.
  destruct (WriteFault env _ _) eqn:HW; simpl;
    eexists; (split; [reflexivity|]); simpl; repeat (rewrite <- app_assoc; simpl);
    (split; [reflexivity|]); (split; [done|]);
    intros Hacc; [by rewrite Hacc in HW|reflexivity].
Qed.

Lemma X19_witness :
  ∃ s',
    ProcessCommittedBatches
      (RelayerExamples.exampleEnv ProvingTaskVerified (inl RelayerExamples.noRows)
         (Some (replicate 32 Byte.x00), Some (replicate 64 Byte.x01))
         (inl ErrFullPending) 50000)
      (RelayerExamples.exampleState 0) = (Done (), s')
    ∧ calls s' = [] ++ CallUpdateSkippedBatches
                   :: Reconcile.sweepCount (inr 0)
                   ++ [CallGetCommittedBatches 1; CallGetBlockBatches "0xabc";
                       CallGetLatestFinalizingOrFinalizedBatch;
                       CallGetVerifiedProofAndInstanceCommitmentsByHash "0xabc";
                       CallSendTransaction rollupSender ("0xabc" +:+ "-finalize")
                         "0xrollup" [];
                       CallUpdateRollupStatus "0xabc" RollupFinalizationSkipped]
    ∧ sameMemory (RelayerExamples.exampleState 0) s'
    ∧ (Reconcile.writesAccepted
         (RelayerExamples.exampleEnv ProvingTaskVerified (inl RelayerExamples.noRows)
            (Some (replicate 32 Byte.x00), Some (replicate 64 Byte.x01))
            (inl ErrFullPending) 50000) →
       db s' = alter (withRollupStatus RollupFinalizationSkipped) "0xabc"
                 {[ "0xabc" := RelayerExamples.committedRow ]}).
Proof.
  apply (X19_refused_finalize_marked_skipped
           (RelayerExamples.exampleEnv ProvingTaskVerified (inl RelayerExamples.noRows)
              (Some (replicate 32 Byte.x00), Some (replicate 64 Byte.x01))
              (inl ErrFullPending) 50000)
           (RelayerExamples.exampleState 0) "0xabc" []
           (RelayerExamples.exampleBatch ProvingTaskVerified 1000000000000) []
           (replicate 32 Byte.x00) (replicate 64 Byte.x01) [] ErrFullPending);
    try (intros; reflexivity).
Defined.

(** X20. A committed batch whose proof failed or was skipped is marked
    [RollupFinalizationSkipped] by exactly one write, which is the last
    call of the invocation, after the sweep and the two reads; nothing is
    sent and the registries are as they were. *)
Theorem X20_failed_proof_marked_skipped env s hash tl batch rest :
  (∀ h, GetCommittedBatches env h 1 = inr (hash :: tl)) →
  (∀ h, GetBlockBatches env h hash = inr (batch :: rest)) →
  ProvingStatus_ batch = ProvingTaskFailed ∨ ProvingStatus_ batch = ProvingTaskSkipped →
  ∃ s',
    ProcessCommittedBatches env s = (Done (), s')
    ∧ calls s' = calls s ++ CallUpdateSkippedBatches
                   :: Reconcile.sweepCount (UpdateSkippedBatches env (calls s) (db s)).1
                   ++ [CallGetCommittedBatches 1; CallGetBlockBatches hash;
                       CallUpdateRollupStatus hash RollupFinalizationSkipped]
    ∧ sameMemory s s'
    ∧ (Reconcile.writesAccepted env →
       db s' = alter (withRollupStatus RollupFinalizationSkipped) hash
                 (UpdateSkippedBatches env (calls s) (db s)).2).
Proof.
  intros HC HB Hst. destruct s as [table last commits finals cs].
  sweep env cs table HC HB;
    destruct Hst as [-> | ->]; simpl;
    unfold db_UpdateRollupStatus, dbUpdate, modify_db, log, history,
      mbind, M_bind, mret, M_ret; simpl;
    destruct (WriteFault env _ _) eqn:HW; simpl;
    eexists; (split; [reflexivity|]); simpl; rewrite <- !app_assoc; simpl;
    (split; [reflexivity|]); (split; [done|]);
    intros Hacc; first [by rewrite Hacc in HW | reflexivity].
Qed.

Lemma X20_witness :
  ∃ s',
    ProcessCommittedBatches
      (RelayerExamples.exampleEnv ProvingTaskFailed (inl RelayerExamples.noRows)
         (None, None) (inr RelayerExamples.txHash) 50000)
      (RelayerExamples.exampleState 0) = (Done (), s')
    ∧ calls s' = [] ++ CallUpdateSkippedBatches
                   :: Reconcile.sweepCount (inr 0)
                   ++ [CallGetCommittedBatches 1; CallGetBlockBatches "0xabc";
                       CallUpdateRollupStatus "0xabc" RollupFinalizationSkipped]
    ∧ sameMemory (RelayerExamples.exampleState 0) s'
    ∧ (Reconcile.writesAccepted
         (RelayerExamples.exampleEnv ProvingTaskFailed (inl RelayerExamples.noRows)
            (None, None) (inr RelayerExamples.txHash) 50000) →
       db s' = alter (withRollupStatus RollupFinalizationSkipped) "0xabc"
                 {[ "0xabc" := RelayerExamples.committedRow ]}).
Proof.
  apply (X20_failed_proof_marked_skipped
           (RelayerExamples.exampleEnv ProvingTaskFailed (inl RelayerExamples.noRows)
              (None, None) (inr RelayerExamples.txHash) 50000)
           (RelayerExamples.exampleState 0) "0xabc" []
           (RelayerExamples.exampleBatch ProvingTaskFailed 1000000000000) []);
    [intros; reflexivity | intros; reflexivity | left; reflexivity].
Defined.

(** X21. A committed batch whose proof is not ready (unassigned,
    assigned, proved but not verified, or of an unknown status) is left
    alone: after the sweep of skipped batches the invocation only reads
    the batch; it writes nothing to the database, sends nothing and
    changes no registry. *)
Theorem X21_unready_batch_untouched env s hash tl batch rest :
  (∀ h, GetCommittedBatches env h 1 = inr (hash :: tl)) →
  (∀ h, GetBlockBatches env h hash = inr (batch :: rest)) →
  ProvingStatus_ batch ≠ ProvingTaskVerified →
  ProvingStatus_ batch ≠ ProvingTaskFailed →
  ProvingStatus_ batch ≠ ProvingTaskSkipped →
  ∃ s',
    ProcessCommittedBatches env s = (Done (), s')
    ∧ calls s' = calls s ++ CallUpdateSkippedBatches
                   :: Reconcile.sweepCount (UpdateSkippedBatches env (calls s) (db s)).1
                   ++ [CallGetCommittedBatches 1; CallGetBlockBatches hash]
    ∧ sameMemory s s'
    ∧ db s' = (UpdateSkippedBatches env (calls s) (db s)).2.
Proof.
  intros HC HB Hv Hf Hs. destruct s as [table last commits finals cs].
  sweep env cs table HC HB;
    destruct (ProvingStatus_ batch); try done; simpl;
    eexists; (split; [reflexivity|]); simpl; rewrite <- !app_assoc; simpl;
    (split; [reflexivity|]); done.
Qed.

Lemma X21_witness :
  ∃ s',
    ProcessCommittedBatches
      (RelayerExamples.exampleEnv ProvingTaskProved (inl RelayerExamples.noRows)
         (Some [], Some []) (inr RelayerExamples.txHash) 50000)
      (RelayerExamples.exampleState 0) = (Done (), s')
    ∧ calls s' = [] ++ CallUpdateSkippedBatches
                   :: Reconcile.sweepCount (inr 0)
                   ++ [CallGetCommittedBatches 1; CallGetBlockBatches "0xabc"]
    ∧ sameMemory (RelayerExamples.exampleState 0) s'
    ∧ db s' = {[ "0xabc" := RelayerExamples.committedRow ]}.
Proof.
  apply (X21_unready_batch_untouched
           (RelayerExamples.exampleEnv ProvingTaskProved (inl RelayerExamples.noRows)
              (Some [], Some []) (inr RelayerExamples.txHash) 50000)
           (RelayerExamples.exampleState 0) "0xabc" []
           (RelayerExamples.exampleBatch ProvingTaskProved 1000000000000) []);
    try (intros; reflexivity); discriminate.
Defined.

(** X22. When the query for the latest finalizing or finalized batch
    fails with anything but [sql: no rows in result set], the invocation
    ends at that query: its calls are the sweep with its count, the two
    reads of the committed batch and the query, and no other.  The
    verified batch is not marked [RollupFinalizationSkipped], its proof is
    not read and nothing is sent. *)
Theorem X22_unexpected_db_error_aborts env s hash tl batch rest :
  (∀ h, GetCommittedBatches env h 1 = inr (hash :: tl)) →
  (∀ h, GetBlockBatches env h hash = inr (batch :: rest)) →
  ProvingStatus_ batch = ProvingTaskVerified →
  (∀ h, ∃ err, GetLatestFinalizingOrFinalizedBatch env h = inl err
               ∧ Error err ≠ "sql: no rows in result set") →
  ∃ s',
    ProcessCommittedBatches env s = (Done (), s')
    ∧ calls s' = calls s ++ CallUpdateSkippedBatches
                   :: Reconcile.sweepCount (UpdateSkippedBatches env (calls s) (db s)).1
                   ++ [CallGetCommittedBatches 1; CallGetBlockBatches hash;
                       CallGetLatestFinalizingOrFinalizedBatch]
    ∧ sameMemory s s'
    ∧ db s' = (UpdateSkippedBatches env (calls s) (db s)).2.
Proof.
  intros HC HB Hst HL.
  rewrite (ProcessCommittedBatches_verified_log env s hash tl batch rest HC HB Hst).
  destruct s as [table last commits finals cs]. simpl.
  unfold finalizeVerified, db_GetLatestFinalizingOrFinalizedBatch, log, history,
    mbind, M_bind, mret, M_ret. simpl.
  match goal with
  | |- context [GetLatestFinalizingOrFinalizedBatch env ?h] =>
      destruct (HL h) as (err & -> & Herr)
  end.
  simpl. rewrite decide_True by done.
  eexists. split; [reflexivity|]. simpl. repeat (rewrite <- app_assoc; simpl). done.
Qed.

Lemma X22_witness :
  ∃ s',
    ProcessCommittedBatches
      (RelayerExamples.exampleEnv ProvingTaskVerified (inl (ErrOther "connection refused"))
         (Some [], Some []) (inr RelayerExamples.txHash) 50000)
      (RelayerExamples.exampleState 0) = (Done (), s')
    ∧ calls s' = [] ++ CallUpdateSkippedBatches
                   :: Reconcile.sweepCount (inr 0)
                   ++ [CallGetCommittedBatches 1; CallGetBlockBatches "0xabc";
                       CallGetLatestFinalizingOrFinalizedBatch]
    ∧ sameMemory (RelayerExamples.exampleState 0) s'
    ∧ db s' = {[ "0xabc" := RelayerExamples.committedRow ]}.
Proof.
  apply (X22_unexpected_db_error_aborts
           (RelayerExamples.exampleEnv ProvingTaskVerified
              (inl (ErrOther "connection refused"))
              (Some [], Some []) (inr RelayerExamples.txHash) 50000)
           (RelayerExamples.exampleState 0) "0xabc" []
           (RelayerExamples.exampleBatch ProvingTaskVerified 1000000000000) []);
    try (intros; reflexivity).
  intros h. exists (ErrOther "connection refused"). split; [reflexivity|discriminate].
Defined.

(** X23. With no committed batch to read, whether the query fails or
    answers an empty list, an invocation consists of the sweep of skipped
    batches, the count of the batches it skipped when there are any, and
    the query; a failed sweep does not stop the invocation before the
    query. *)
Theorem X23_nothing_committed env s :
  (∀ h hash tl, GetCommittedBatches env h 1 ≠ inr (hash :: tl)) →
  ∃ s',
    ProcessCommittedBatches env s = (Done (), s')
    ∧ calls s' = calls s ++ CallUpdateSkippedBatches
                   :: Reconcile.sweepCount (UpdateSkippedBatches env (calls s) (db s)).1
                   ++ [CallGetCommittedBatches 1]
    ∧ sameMemory s s'
    ∧ db s' = (UpdateSkippedBatches env (calls s) (db s)).2.
Proof.
  intros HC. destruct s as [table last commits finals cs].
  unfold ProcessCommittedBatches, db_UpdateSkippedBatches, run_UpdateSkippedBatches,
    db_GetCommittedBatches, db_GetBlockBatches, Inc, log, history,
    mbind, M_bind, mret, M_ret. simpl.
  destruct (UpdateSkippedBatches env cs table) as [[e|count] table'];
    unfold Reconcile.sweepCount; simpl;
    [|destruct (decide (0 < count))]; simpl;
    match goal with
    | |- context [GetCommittedBatches env ?h 1] =>
        pose proof (HC h) as Hh;
        destruct (GetCommittedBatches env h 1) as [err|[|hash tl]]
    end; try (by destruct (Hh hash tl)); simpl;
    eexists; (split; [reflexivity|]); simpl; rewrite <- ?app_assoc; done.
Qed.

Lemma X23_witness :
  ∃ s',
    ProcessCommittedBatches Reconcile.idleEnv (RelayerExamples.exampleState 0)
    = (Done (), s')
    ∧ calls s' = [] ++ CallUpdateSkippedBatches
                   :: Reconcile.sweepCount (inr 2) ++ [CallGetCommittedBatches 1]
    ∧ sameMemory (RelayerExamples.exampleState 0) s'
    ∧ db s' = {[ "0xabc" := RelayerExamples.committedRow ]}.
Proof.
  apply (X23_nothing_committed Reconcile.idleEnv (RelayerExamples.exampleState 0)).
  intros h hash tl. discriminate.
Defined.

End RelayerMore.

(** * The confirmation handler *)

Module ReconcileMore.
Import Relayer RelayerSpec Reconcile.

Ltac runC :=
  unfold handleConfirmation, lift, logMessage, processingMessage_Load,
    processingMessage_Delete, processingBatchesCommitment_Load,
    processingBatchesCommitment_Delete, processingFinalization_Load,
    processingFinalization_Delete, db_UpdateFinalizeTxHashAndRollupStatus,
    db_UpdateCommitTxHashAndRollupStatus, db_UpdateL2GasOracleStatusAndOracleTxHash,
    dbUpdate, modify_db, log, history, mbind, M_bind, mret, M_ret;
  simpl.

(** The loop over the batch hashes of a commit: one write per hash, in
    the order of the list. *)
Lemma confirmBatches_run env txHash status batchHashes :
  ∀ s, ∃ s',
    confirmBatches env batchHashes txHash status s = (Done (), s')
    ∧ calls s' = calls s
                   ++ map (λ batchHash,
                             CallUpdateCommitTxHashAndRollupStatus batchHash txHash status)
                        batchHashes
    ∧ sameMemory s s'
    ∧ (writesAccepted env →
       ∀ hash,
         (hash ∈ batchHashes → db s' !! hash = withCommit txHash status <$> db s !! hash)
         ∧ (hash ∉ batchHashes → db s' !! hash = db s !! hash)).
Proof.
  induction batchHashes as [|h rest IH]; intros s.
  - exists s. simpl. rewrite app_nil_r. split; [done|]. split; [done|]. split; [done|].
    intros _ hash. split; [|done]. intros Hin. by apply elem_of_nil in Hin.
  - destruct s as [table last commits finals cs].
    cbn [confirmBatches]. runC.
    destruct (WriteFault env cs _) eqn:HW; simpl.
    + edestruct IH as (s' & E & Hc & Hmem & Hdb). rewrite E.
      exists s'. split; [done|]. rewrite Hc. simpl. rewrite <- app_assoc.
      split; [done|]. split; [exact Hmem|]. intros Hacc. by rewrite Hacc in HW.
    + edestruct IH as (s' & E & Hc & Hmem & Hdb). rewrite E.
      exists s'. split; [done|]. rewrite Hc. simpl. rewrite <- app_assoc.
      split; [done|]. split; [exact Hmem|]. intros Hacc hash.
      destruct (Hdb Hacc hash) as [Hin Hout]. simpl in *.
      destruct (decide (hash = h)) as [->|Hne].
      * split; [|intros H; destruct H; by left]. intros _.
        destruct (decide (h ∈ rest)) as [Hr|Hr].
        -- rewrite (Hin Hr), lookup_alter_eq. by destruct (table !! h).
        -- rewrite (Hout Hr), lookup_alter_eq. done.
      * split.
        -- intros [?|Hr]%elem_of_cons; [done|].
           rewrite (Hin Hr), lookup_alter_ne by done. done.
        -- intros Hr. rewrite Hout, lookup_alter_ne; [done|done|].
           intros H. apply Hr. by right.
Qed.

Lemma commitWrites_not_send c found : count_calls isSendCall (commitWrites c found) = 0%nat.
Proof.
  destruct found as [batchHashes|]; [|done]. simpl.
  induction batchHashes as [|h rest IH]; [done|]. exact IH.
Qed.

Lemma finalizeWrites_not_send c found :
  count_calls isSendCall (finalizeWrites c found) = 0%nat.
Proof. by destruct found. Qed.

(** One confirmation, whatever the registries hold. *)
Lemma handleConfirmation_run env c s :
  ∃ r',
    handleConfirmation env c s
    = (Done (),
       {| relayer := r';
          processingMessage := delete (Confirmation_ID c) (processingMessage s);
          messageCalls :=
            messageCalls s
              ++ confirmedCalls c (processingMessage s !! Confirmation_ID c)
                   (processingBatchesCommitment (relayer s) !! Confirmation_ID c)
                   (processingFinalization (relayer s) !! Confirmation_ID c) |})
    ∧ calls r' = calls (relayer s)
                   ++ commitWrites c
                        (processingBatchesCommitment (relayer s) !! Confirmation_ID c)
                   ++ finalizeWrites c
                        (processingFinalization (relayer s) !! Confirmation_ID c)
    ∧ processingBatchesCommitment r'
      = delete (Confirmation_ID c) (processingBatchesCommitment (relayer s))
    ∧ processingFinalization r'
      = delete (Confirmation_ID c) (processingFinalization (relayer s))
    ∧ lastGasPrice r' = lastGasPrice (relayer s).
Proof.
  destruct s as [[table last commits finals cs] messages ms].
  destruct c as [id ok txHash]. unfold confirmedCalls, commitWrites, finalizeWrites.
  runC.
  destruct (messages !! id) as [msgHash|] eqn:Hm; simpl;
    destruct (commits !! id) as [batchHashes|] eqn:Hc; simpl;
    try (edestruct (confirmBatches_run env (Hash_String txHash)
                      (if ok then RollupCommitted else RollupCommitFailed) batchHashes
                      {| db := table; lastGasPrice := last;
                         processingBatchesCommitment := commits;
                         processingFinalization := finals; calls := cs |})
           as ([table1 last1 commits1 finals1 cs1] & E & Hcs & (Hl & Hcm & Hf) & _);
         rewrite E; simpl in *; subst last1 commits1 finals1 cs1);
    destruct (finals !! id) as [batchHash|] eqn:Hf'; simpl;
    try destruct (WriteFault env _ _); simpl;
    eexists;
    (split; [rewrite <- ?app_assoc, ?app_nil_r, ?(delete_id messages id) by done;
             simpl; reflexivity|]);
    simpl;
    rewrite <- ?app_assoc, ?app_nil_r, ?(delete_id commits id), ?(delete_id finals id)
      by done;
    done.
Qed.

Lemma bind_Done {S A B : Type} (m : M S A) (k : A → M S B) s a s1 :
  m s = (Done a, s1) → (m ≫= k) s = k a s1.
Proof. intros E. unfold mbind, M_bind. by rewrite E. Qed.

(** A confirmation whose identifier is in no registry changes nothing. *)
Lemma handleConfirmation_unknown env c s :
  processingMessage s !! Confirmation_ID c = None →
  processingBatchesCommitment (relayer s) !! Confirmation_ID c = None →
  processingFinalization (relayer s) !! Confirmation_ID c = None →
  handleConfirmation env c s = (Done (), s).
Proof.
  destruct s as [[table last commits finals cs] messages ms]. simpl.
  intros Hm Hc Hf. runC. rewrite Hm. simpl. rewrite Hc. simpl. by rewrite Hf.
Qed.

(** X24. [handleConfirmation] consumes the identifier of the
    confirmation: whatever the three registries hold, it returns with the
    identifier removed from each of them and every other entry in place.
    For the batch hashes filed under the identifier in the commit
    registry it writes the commit status once per hash, in the order they
    were filed, then the finalize status for a batch filed in the finalize
    registry, always with the transaction hash of the confirmation; the
    last applied gas price is not touched. *)
Theorem X24_confirmation_consumes_id env c s :
  ∃ s',
    handleConfirmation env c s = (Done (), s')
    ∧ processingMessage s' = delete (Confirmation_ID c) (processingMessage s)
    ∧ processingBatchesCommitment (relayer s')
      = delete (Confirmation_ID c) (processingBatchesCommitment (relayer s))
    ∧ processingFinalization (relayer s')
      = delete (Confirmation_ID c) (processingFinalization (relayer s))
    ∧ lastGasPrice (relayer s') = lastGasPrice (relayer s)
    ∧ calls (relayer s')
      = calls (relayer s)
          ++ commitWrites c (processingBatchesCommitment (relayer s) !! Confirmation_ID c)
          ++ finalizeWrites c (processingFinalization (relayer s) !! Confirmation_ID c)
    ∧ messageCalls s'
      = messageCalls s
          ++ confirmedCalls c (processingMessage s !! Confirmation_ID c)
               (processingBatchesCommitment (relayer s) !! Confirmation_ID c)
               (processingFinalization (relayer s) !! Confirmation_ID c).
Proof.
  destruct (handleConfirmation_run env c s) as (r' & E & Hcs & Hc & Hf & Hl).
  eexists. split; [exact E|]. simpl. done.
Qed.

(** X25. A confirmation delivered again is ignored: after a confirmation
    has been handled, any confirmation that carries the same identifier,
    successful or not and with whatever transaction hash, leaves the
    relayer exactly as it is, with no write and no count. *)
Theorem X25_redelivered_confirmation_ignored env c s :
  ∃ s',
    handleConfirmation env c s = (Done (), s')
    ∧ ∀ ok txHash,
        handleConfirmation env
          {| Confirmation_ID := Confirmation_ID c; IsSuccessful := ok; TxHash := txHash |}
          s'
        = (Done (), s').
Proof.
  destruct (handleConfirmation_run env c s) as (r' & E & Hcs & Hc & Hf & Hl).
  eexists. split; [exact E|]. intros ok txHash.
  apply handleConfirmation_unknown; simpl.
  - apply lookup_delete_eq.
  - rewrite Hc. apply lookup_delete_eq.
  - rewrite Hf. apply lookup_delete_eq.
Qed.

(** A confirmation of a commit, with a database that accepts the
    writes. *)
Lemma handleConfirmation_commit env c s batchHashes :
  processingBatchesCommitment (relayer s) !! Confirmation_ID c = Some batchHashes →
  processingFinalization (relayer s) !! Confirmation_ID c = None →
  writesAccepted env →
  ∃ s',
    handleConfirmation env c s = (Done (), s')
    ∧ processingBatchesCommitment (relayer s')
      = delete (Confirmation_ID c) (processingBatchesCommitment (relayer s))
    ∧ ∀ hash,
        (hash ∈ batchHashes →
         db (relayer s') !! hash
         = withCommit (Hash_String (TxHash c)) (commitStatus c) <$> db (relayer s) !! hash)
        ∧ (hash ∉ batchHashes → db (relayer s') !! hash = db (relayer s) !! hash).
Proof.
  destruct s as [[table last commits finals cs] messages ms].
  destruct c as [id ok txHash]. simpl. intros Hc Hf Hacc.
  runC.
  edestruct (confirmBatches_run env (Hash_String txHash)
               (if ok then RollupCommitted else RollupCommitFailed) batchHashes
               {| db := table; lastGasPrice := last;
                  processingBatchesCommitment := commits;
                  processingFinalization := finals; calls := cs |})
    as ([table1 last1 commits1 finals1 cs1] & E & Hcs & (Hl & Hcm & Hfin) & Hdb).
  simpl in *. subst last1 commits1 finals1.
  destruct (messages !! id); simpl; rewrite Hc; simpl; rewrite E; simpl;
    rewrite Hf; simpl;
    eexists; (split; [reflexivity|]); simpl; (split; [done|]); exact (Hdb Hacc).
Qed.

(** What [SendCommitTx] leaves behind after a send, with a database that
    accepts the writes. *)
Lemma SendCommitTx_recorded env s batchData calldata txHash :
  batchData ≠ [] →
  PackCommitBatches env (map Batch batchData) = inr calldata →
  SendTransaction env (calls s) rollupSender (commitTxID env batchData)
    (RollupContractAddress env) calldata = inr txHash →
  writesAccepted env →
  ∃ s',
    SendCommitTx env batchData s = (Done None, s')
    ∧ processingBatchesCommitment s'
      = <[commitTxID env batchData := map batchHashHex batchData]>
          (processingBatchesCommitment s)
    ∧ processingFinalization s' = processingFinalization s
    ∧ ∀ hash,
        (hash ∈ map batchHashHex batchData →
         db s' !! hash = withCommit (Hash_String txHash) RollupCommitting <$> db s !! hash)
        ∧ (hash ∉ map batchHashHex batchData → db s' !! hash = db s !! hash).
Proof.
  intros Hne Hpack Hsend HW. destruct s as [table last commits finals cs].
  unfold SendCommitTx. rewrite decide_False by (by destruct batchData).
  rewrite Hpack. unfold Sender_SendTransaction, Inc, log, history, mbind, M_bind,
    mret, M_ret. simpl in *.
  fold (commitTxID env batchData). rewrite Hsend.
  edestruct (RelayerMore.recordCommitting_db env batchData txHash HW)
    as ([table1 last1 commits1 finals1 cs1] & E & (Hl & Hcm & Hfin) & Hdb).
  rewrite E. unfold processingBatchesCommitment_Store. simpl in *.
  subst last1 commits1 finals1.
  eexists. split; [reflexivity|]. simpl. done.
Qed.

(** X26. Round trip of a commit: when [SendCommitTx] has sent the
    transaction for a list of batches and the confirmation that carries
    its correlation identifier is handled, with a database that accepts
    the writes, the row of every batch of the list holds
    [RollupCommitted] for a successful confirmation and
    [RollupCommitFailed] for a failed one, together with the transaction
    hash of the confirmation (not the hash returned by the send); the
    other rows are as they were and the identifier is no longer in the
    commit registry. *)
Theorem X26_commit_round_trip env s batchData calldata txHash c :
  batchData ≠ [] →
  PackCommitBatches env (map Batch batchData) = inr calldata →
  SendTransaction env (calls (relayer s)) rollupSender (commitTxID env batchData)
    (RollupContractAddress env) calldata = inr txHash →
  writesAccepted env →
  Confirmation_ID c = commitTxID env batchData →
  processingFinalization (relayer s) !! commitTxID env batchData = None →
  ∃ s',
    (lift (SendCommitTx env batchData) ≫= λ _, handleConfirmation env c) s = (Done (), s')
    ∧ (∀ hash,
         (hash ∈ map batchHashHex batchData →
          db (relayer s') !! hash
          = withCommit (Hash_String (TxHash c)) (commitStatus c)
              <$> db (relayer s) !! hash)
         ∧ (hash ∉ map batchHashHex batchData →
            db (relayer s') !! hash = db (relayer s) !! hash))
    ∧ processingBatchesCommitment (relayer s')
      = delete (commitTxID env batchData) (processingBatchesCommitment (relayer s)).
Proof.
  intros Hne Hpack Hsend HW Hid Hfree.
  destruct (SendCommitTx_recorded env (relayer s) batchData calldata txHash
              Hne Hpack Hsend HW) as (r1 & E & Hcm & Hfin & Hdb).
  erewrite bind_Done; [|unfold lift; rewrite E; reflexivity].
  edestruct (handleConfirmation_commit env c
               {| relayer := r1; processingMessage := processingMessage s;
                  messageCalls := messageCalls s |} (map batchHashHex batchData))
    as (s' & E' & Hcm' & Hdb'); simpl.
  - rewrite Hcm, Hid. apply lookup_insert_eq.
  - by rewrite Hfin, Hid.
  - exact HW.
  - exists s'. split; [exact E'|]. simpl in *. split.
    + intros hash. destruct (Hdb hash) as [Hin Hout], (Hdb' hash) as [Hin' Hout'].
      split.
      * intros H. rewrite (Hin' H), (Hin H). by destruct (db (relayer s) !! hash).
      * intros H. by rewrite (Hout' H), (Hout H).
    + rewrite Hcm', Hcm, Hid. apply delete_insert_eq.
Qed.

Lemma X26_witness :
  ∃ s',
    (lift (SendCommitTx
             (RelayerExamples.exampleEnv ProvingTaskVerified (inl RelayerExamples.noRows)
                (None, None) (inr RelayerExamples.txHash) 50000)
             RelayerExamples.exampleBatchData)
       ≫= λ _, handleConfirmation
                 (RelayerExamples.exampleEnv ProvingTaskVerified
                    (inl RelayerExamples.noRows) (None, None)
                    (inr RelayerExamples.txHash) 50000)
                 (commitConfirmed false))
      (noMessages halfKnown) = (Done (), s')
    ∧ (∀ hash,
         (hash ∈ map batchHashHex RelayerExamples.exampleBatchData →
          db (relayer s') !! hash
          = withCommit (Hash_String (TxHash (commitConfirmed false)))
              (commitStatus (commitConfirmed false))
              <$> db (relayer (noMessages halfKnown)) !! hash)
         ∧ (hash ∉ map batchHashHex RelayerExamples.exampleBatchData →
            db (relayer s') !! hash = db (relayer (noMessages halfKnown)) !! hash))
    ∧ processingBatchesCommitment (relayer s')
      = delete
          (commitTxID
             (RelayerExamples.exampleEnv ProvingTaskVerified (inl RelayerExamples.noRows)
                (None, None) (inr RelayerExamples.txHash) 50000)
             RelayerExamples.exampleBatchData)
          (processingBatchesCommitment (relayer (noMessages halfKnown))).
Proof.
  apply (X26_commit_round_trip
           (RelayerExamples.exampleEnv ProvingTaskVerified (inl RelayerExamples.noRows)
              (None, None) (inr RelayerExamples.txHash) 50000)
           (noMessages halfKnown) RelayerExamples.exampleBatchData []
           RelayerExamples.txHash (commitConfirmed false));
    [discriminate|reflexivity|reflexivity| |reflexivity|reflexivity].
  intros h c. reflexivity.
Defined.

(** A confirmation of a finalization, with a database that accepts the
    write. *)
Lemma handleConfirmation_finalize env c s batchHash :
  processingBatchesCommitment (relayer s) !! Confirmation_ID c = None →
  processingFinalization (relayer s) !! Confirmation_ID c = Some batchHash →
  writesAccepted env →
  ∃ s',
    handleConfirmation env c s = (Done (), s')
    ∧ processingFinalization (relayer s')
      = delete (Confirmation_ID c) (processingFinalization (relayer s))
    ∧ processingBatchesCommitment (relayer s') = processingBatchesCommitment (relayer s)
    ∧ db (relayer s')
      = alter (withFinalize (Hash_String (TxHash c)) (finalizeStatus c)) batchHash
          (db (relayer s)).
Proof.
  destruct s as [[table last commits finals cs] messages ms].
  destruct c as [id ok txHash]. simpl. intros Hc Hf Hacc.
  runC.
  destruct (messages !! id); simpl; rewrite Hc; simpl; rewrite Hf; simpl;
    rewrite Hacc; simpl; eexists; (split; [reflexivity|]); done.
Qed.

(** X27. Round trip of a finalization: when [ProcessCommittedBatches] has
    sent the proof of a batch and the confirmation that carries the
    identifier [<hash>-finalize] is handled, with a database that accepts
    the writes, the row of the batch holds [RollupFinalized] for a
    successful confirmation and [RollupFinalizeFailed] for a failed one,
    together with the transaction hash of the confirmation, and the
    identifier is no longer in the finalize registry. *)
Theorem X27_finalize_round_trip
  env s hash tl batch rest proofBuffer icBuffer data txHash c :
  (∀ h, GetCommittedBatches env h 1 = inr (hash :: tl)) →
  (∀ h, GetBlockBatches env h hash = inr (batch :: rest)) →
  ProvingStatus_ batch = ProvingTaskVerified →
  (∀ h, proceedsToFinalize env batch (GetLatestFinalizingOrFinalizedBatch env h)) →
  (∀ h, GetVerifiedProofAndInstanceCommitmentsByHash env h hash
        = inr (Some proofBuffer, Some icBuffer)) →
  buffersRejected (Some proofBuffer) (Some icBuffer) = false →
  PackFinalizeBatchWithProof env (HexToHash env hash) (BufferToUint256Le proofBuffer)
    (BufferToUint256Le icBuffer) = inr data →
  (∀ h, SendTransaction env h rollupSender (hash +:+ "-finalize")
          (RollupContractAddress env) data = inr txHash) →
  writesAccepted env →
  Confirmation_ID c = hash +:+ "-finalize" →
  processingBatchesCommitment (relayer s) !! (hash +:+ "-finalize") = None →
  ∃ s',
    (lift (ProcessCommittedBatches env) ≫= λ _, handleConfirmation env c) s
    = (Done (), s')
    ∧ db (relayer s')
      = alter (withFinalize (Hash_String (TxHash c)) (finalizeStatus c)) hash
          (UpdateSkippedBatches env (calls (relayer s)) (db (relayer s))).2
    ∧ processingFinalization (relayer s')
      = delete (hash +:+ "-finalize") (processingFinalization (relayer s)).
Proof.
  intros HC HB Hst HL HV Hok HP Hsend HW Hid Hfree.
  destruct (RelayerMore.ProcessCommittedBatches_submitted env (relayer s) hash tl batch
              rest proofBuffer icBuffer data txHash HC HB Hst HL HV Hok HP Hsend)
    as (r1 & pre & E & _ & _ & Hfin & Hcm & _ & Hdb).
  erewrite bind_Done; [|unfold lift; rewrite E; reflexivity].
  edestruct (handleConfirmation_finalize env c
               {| relayer := r1; processingMessage := processingMessage s;
                  messageCalls := messageCalls s |} hash)
    as (s' & E' & Hfin' & _ & Hdb'); simpl.
  - by rewrite Hcm, Hid.
  - rewrite Hfin, Hid. apply lookup_insert_eq.
  - exact HW.
  - exists s'. split; [exact E'|]. simpl in *. split.
    + rewrite Hdb', (Hdb HW). apply map_eq. intros k.
      destruct (decide (k = hash)) as [->|Hne].
      * rewrite !lookup_alter_eq. by destruct (_ !! hash).
      * by rewrite !lookup_alter_ne.
    + rewrite Hfin', Hfin, Hid. apply delete_insert_eq.
Qed.

Lemma X27_witness :
  ∃ s',
    (lift (ProcessCommittedBatches
             (RelayerExamples.exampleEnv ProvingTaskVerified (inl RelayerExamples.noRows)
                (Some (replicate 32 Byte.x00), Some (replicate 64 Byte.x01))
                (inr RelayerExamples.txHash) 50000))
       ≫= λ _, handleConfirmation
                 (RelayerExamples.exampleEnv ProvingTaskVerified
                    (inl RelayerExamples.noRows)
                    (Some (replicate 32 Byte.x00), Some (replicate 64 Byte.x01))
                    (inr RelayerExamples.txHash) 50000)
                 (finalizeConfirmed true))
      (noMessages (RelayerExamples.exampleState 0)) = (Done (), s')
    ∧ db (relayer s')
      = alter (withFinalize (Hash_String (TxHash (finalizeConfirmed true)))
                 (finalizeStatus (finalizeConfirmed true))) "0xabc"
          {[ "0xabc" := RelayerExamples.committedRow ]}
    ∧ processingFinalization (relayer s') = delete ("0xabc" +:+ "-finalize") ∅.
Proof.
  apply (X27_finalize_round_trip
           (RelayerExamples.exampleEnv ProvingTaskVerified (inl RelayerExamples.noRows)
              (Some (replicate 32 Byte.x00), Some (replicate 64 Byte.x01))
              (inr RelayerExamples.txHash) 50000)
           (noMessages (RelayerExamples.exampleState 0)) "0xabc" []
           (RelayerExamples.exampleBatch ProvingTaskVerified 1000000000000) []
           (replicate 32 Byte.x00) (replicate 64 Byte.x01) [] RelayerExamples.txHash
           (finalizeConfirmed true));
    try (intros; reflexivity).
  intros h c. reflexivity.
Defined.

(** The gas-oracle branch of [handleConfirmLoop]. *)
Lemma oracleConfirmation_run env cfm s :
  ∃ r',
    (if negb (IsSuccessful cfm)
     then _ ← lift (db_UpdateL2GasOracleStatusAndOracleTxHash env
                      (Confirmation_ID cfm) GasOracleFailed (Hash_String (TxHash cfm)));
          mret ()
     else _ ← lift (db_UpdateL2GasOracleStatusAndOracleTxHash env
                      (Confirmation_ID cfm) GasOracleImported (Hash_String (TxHash cfm)));
          mret ()) s
    = (Done (), withRelayer s r')
    ∧ calls r' = calls (relayer s)
                   ++ [CallUpdateL2GasOracleStatusAndOracleTxHash (Confirmation_ID cfm)
                         (oracleStatus cfm) (Hash_String (TxHash cfm))]
    ∧ sameMemory (relayer s) r'
    ∧ (writesAccepted env →
       db r' = alter (withOracle (oracleStatus cfm) (Hash_String (TxHash cfm)))
                 (Confirmation_ID cfm) (db (relayer s))).
Proof.
  destruct s as [[table last commits finals cs] messages ms].
  destruct cfm as [id [|] txHash]; unfold withRelayer, oracleStatus; runC;
    destruct (WriteFault env cs _) eqn:HW; simpl;
    eexists; (split; [reflexivity|]); simpl; (split; [done|]); (split; [done|]);
    intros Hacc; first [by rewrite Hacc in HW | done].
Qed.

(** X28. The confirmation loop only consumes: whatever it receives, in
    whatever order, it sends no transaction, adds no entry to any of the
    three registries and leaves the last applied gas price alone. *)
Theorem X28_confirm_loop_only_consumes env received :
  ∀ s, ∃ s' new,
    handleConfirmLoop env received s = (Done (), s')
    ∧ calls (relayer s') = calls (relayer s) ++ new
    ∧ count_calls isSendCall new = 0%nat
    ∧ processingMessage s' ⊆ processingMessage s
    ∧ processingBatchesCommitment (relayer s') ⊆ processingBatchesCommitment (relayer s)
    ∧ processingFinalization (relayer s') ⊆ processingFinalization (relayer s)
    ∧ lastGasPrice (relayer s') = lastGasPrice (relayer s).
Proof.
  assert (Hstop : ∀ s : State, ∃ s' new,
            (mret () : M State unit) s = (Done (), s')
            ∧ calls (relayer s') = calls (relayer s) ++ new
            ∧ count_calls isSendCall new = 0%nat
            ∧ processingMessage s' ⊆ processingMessage s
            ∧ processingBatchesCommitment (relayer s')
              ⊆ processingBatchesCommitment (relayer s)
            ∧ processingFinalization (relayer s') ⊆ processingFinalization (relayer s)
            ∧ lastGasPrice (relayer s') = lastGasPrice (relayer s)).
  { intros s. exists s, []. rewrite app_nil_r. done. }
  assert (Hconfirm : ∀ c rest,
            (∀ s, ∃ s' new,
               handleConfirmLoop env rest s = (Done (), s')
               ∧ calls (relayer s') = calls (relayer s) ++ new
               ∧ count_calls isSendCall new = 0%nat
               ∧ processingMessage s' ⊆ processingMessage s
               ∧ processingBatchesCommitment (relayer s')
                 ⊆ processingBatchesCommitment (relayer s)
               ∧ processingFinalization (relayer s')
                 ⊆ processingFinalization (relayer s)
               ∧ lastGasPrice (relayer s') = lastGasPrice (relayer s)) →
            ∀ s, ∃ s' new,
              (handleConfirmation env c ≫= λ _, handleConfirmLoop env rest) s
              = (Done (), s')
              ∧ calls (relayer s') = calls (relayer s) ++ new
              ∧ count_calls isSendCall new = 0%nat
              ∧ processingMessage s' ⊆ processingMessage s
              ∧ processingBatchesCommitment (relayer s')
                ⊆ processingBatchesCommitment (relayer s)
              ∧ processingFinalization (relayer s')
                ⊆ processingFinalization (relayer s)
              ∧ lastGasPrice (relayer s') = lastGasPrice (relayer s)).
  { intros c rest IH s.
    destruct (handleConfirmation_run env c s) as (r1 & E & Hcs & Hc & Hf & Hl).
    erewrite bind_Done by exact E.
    edestruct IH as (s' & new & E' & Hcs' & Hn & Hm' & Hc' & Hf' & Hl').
    exists s', ((commitWrites c (processingBatchesCommitment (relayer s)
                                   !! Confirmation_ID c)
                 ++ finalizeWrites c (processingFinalization (relayer s)
                                        !! Confirmation_ID c)) ++ new).
    split; [exact E'|]. simpl in *.
    split; [by rewrite Hcs', Hcs, <- !app_assoc|].
    split; [by rewrite !RelayerProofs.count_sum, commitWrites_not_send,
              finalizeWrites_not_send, Hn|].
    split; [etrans; [exact Hm'|apply delete_subseteq]|].
    split; [etrans; [exact Hc'|rewrite Hc; apply delete_subseteq]|].
    split; [etrans; [exact Hf'|rewrite Hf; apply delete_subseteq]|].
    by rewrite Hl'. }
  induction received as [|r rest IH]; [exact Hstop|].
  destruct r as [|c|c|cfm]; cbn [handleConfirmLoop];
    [exact Hstop|by apply Hconfirm|by apply Hconfirm|].
  intros s.
  destruct (oracleConfirmation_run env cfm s) as (r1 & E & Hcs & (Hl & Hc & Hf) & _).
  erewrite bind_Done by exact E.
  edestruct IH as (s' & new & E' & Hcs' & Hn & Hm' & Hc' & Hf' & Hl').
  exists s', ([CallUpdateL2GasOracleStatusAndOracleTxHash (Confirmation_ID cfm)
                 (oracleStatus cfm) (Hash_String (TxHash cfm))] ++ new).
  split; [exact E'|]. simpl in *.
  split; [by rewrite Hcs', Hcs, <- !app_assoc|].
  split; [exact Hn|].
  split; [exact Hm'|].
  split; [by rewrite <- Hc|].
  split; [by rewrite <- Hf|].
  by rewrite Hl'.
Qed.

(** X29. Round trip of a gas-price update: when [ProcessGasPriceOracle]
    has sent the update for the latest batch and recorded it, and the
    gas-oracle sender confirms the transaction filed under the hash of
    that batch, the row of the batch holds [GasOracleImported] for a
    successful confirmation and [GasOracleFailed] for a failed one,
    together with the transaction hash of the confirmation.  The applied
    price stays the suggested one in both cases, and no registry
    changes. *)
Theorem X29_oracle_round_trip env s batch suggestGasPrice data hash cfm :
  GetLatestBatch env (calls (relayer s)) = inr batch →
  OracleStatus batch = GasOraclePending →
  SuggestGasPrice env (calls (relayer s) ++ [CallGetLatestBatch]) = inr suggestGasPrice →
  shouldUpdate env (lastGasPrice (relayer s)) (to_uint64 (BigInt_Int64 suggestGasPrice))
  = true →
  PackSetL2BaseFee env suggestGasPrice = inr data →
  SendTransaction env (calls (relayer s) ++ [CallGetLatestBatch; CallSuggestGasPrice])
    gasOracleSender (BlockBatch_Hash batch) (GasPriceOracleContractAddress env) data
  = inr hash →
  writesAccepted env →
  Confirmation_ID cfm = BlockBatch_Hash batch →
  ∃ s',
    (lift (ProcessGasPriceOracle env)
       ≫= λ _, handleConfirmLoop env [fromGasOracleSender cfm]) s = (Done (), s')
    ∧ db (relayer s')
      = alter (withOracle (oracleStatus cfm) (Hash_String (TxHash cfm)))
          (BlockBatch_Hash batch) (db (relayer s))
    ∧ lastGasPrice (relayer s') = to_uint64 (BigInt_Int64 suggestGasPrice)
    ∧ processingMessage s' = processingMessage s
    ∧ processingBatchesCommitment (relayer s') = processingBatchesCommitment (relayer s)
    ∧ processingFinalization (relayer s') = processingFinalization (relayer s).
Proof.
  intros HB Hp HS Hshould HP Hsend HW Hid.
  destruct s as [[table last commits finals cs] messages ms]. simpl in *.
  assert (∃ cs1,
    ProcessGasPriceOracle env
      {| db := table; lastGasPrice := last; processingBatchesCommitment := commits;
         processingFinalization := finals; calls := cs |}
    = (Done (),
       {| db := alter (withOracle GasOracleImporting (Hash_String hash))
                  (BlockBatch_Hash batch) table;
          lastGasPrice := to_uint64 (BigInt_Int64 suggestGasPrice);
          processingBatchesCommitment := commits;
          processingFinalization := finals;
          calls := cs1 |})) as (cs1 & E).
  { RelayerProofs.run. rewrite HB. simpl. rewrite decide_True by done. simpl.
    rewrite HS. simpl. rewrite Hshould, HP. simpl. rewrite <- !app_assoc. simpl.
    rewrite Hsend. simpl. rewrite HW. simpl. eexists. reflexivity. }
  erewrite bind_Done; [|unfold lift; simpl; rewrite E; reflexivity].
  cbn [handleConfirmLoop].
  edestruct (oracleConfirmation_run env cfm) as (r' & E2 & Hcs & (Hl & Hc & Hf) & Hdb).
  erewrite bind_Done by exact E2.
  eexists. split; [reflexivity|]. simpl in *.
  split; [|done].
  rewrite (Hdb HW), Hid. apply map_eq. intros k.
  destruct (decide (k = BlockBatch_Hash batch)) as [->|Hne].
  - rewrite !lookup_alter_eq. by destruct (table !! BlockBatch_Hash batch).
  - by rewrite !lookup_alter_ne.
Qed.

Lemma X29_witness :
  ∃ s',
    (lift (ProcessGasPriceOracle
             (RelayerExamples.exampleEnv ProvingTaskProved (inl RelayerExamples.noRows)
                (None, None) (inr RelayerExamples.txHash) 50000))
       ≫= λ _, handleConfirmLoop
                 (RelayerExamples.exampleEnv ProvingTaskProved
                    (inl RelayerExamples.noRows) (None, None)
                    (inr RelayerExamples.txHash) 50000)
                 [fromGasOracleSender (oracleConfirmed false)])
      (noMessages (RelayerExamples.exampleState 500000000)) = (Done (), s')
    ∧ db (relayer s')
      = alter (withOracle (oracleStatus (oracleConfirmed false))
                 (Hash_String (TxHash (oracleConfirmed false))))
          (BlockBatch_Hash (RelayerExamples.exampleBatch ProvingTaskProved 1000000000000))
          (db (relayer (noMessages (RelayerExamples.exampleState 500000000))))
    ∧ lastGasPrice (relayer s') = to_uint64 (BigInt_Int64 1000000000)
    ∧ processingMessage s'
      = processingMessage (noMessages (RelayerExamples.exampleState 500000000))
    ∧ processingBatchesCommitment (relayer s')
      = processingBatchesCommitment
          (relayer (noMessages (RelayerExamples.exampleState 500000000)))
    ∧ processingFinalization (relayer s')
      = processingFinalization
          (relayer (noMessages (RelayerExamples.exampleState 500000000))).
Proof.
  apply (X29_oracle_round_trip
           (RelayerExamples.exampleEnv ProvingTaskProved (inl RelayerExamples.noRows)
              (None, None) (inr RelayerExamples.txHash) 50000)
           (noMessages (RelayerExamples.exampleState 500000000))
           (RelayerExamples.exampleBatch ProvingTaskProved 1000000000000)
           1000000000 [] RelayerExamples.txHash (oracleConfirmed false));
    try reflexivity.
  intros h c. reflexivity.
Defined.

End ReconcileMore.
